(** * A scientific calculator (src/src/App.tsx): state machine and evaluation pipeline

    The component [App] keeps four pieces of React state ([expression],
    [displayValue], [isRad], [history]) and four handlers ([handleInput],
    [handleDelete], [handleClear], [handleCalculate]).  [handleCalculate]
    rewrites the expression with a chain of [String.prototype.replace] calls,
    runs the rewritten text as JavaScript with [new Function], rounds the
    result and stores it back.

    The development models JavaScript strings as lists of UTF-16 code units,
    numbers as binary64 floats, the regular expressions of the source as a
    small backtracking matcher, and the expression language that the rewritten
    text is written in as a lexer, a parser and an evaluator. *)

From Stdlib Require Import ZArith List Bool Ascii String DecimalString Lia.
From Stdlib Require Import PrimFloat FloatOps SpecFloat FloatClass Uint63.
Import ListNotations.

Set Implicit Arguments.
Set Warnings "-register-all".

(** ** JavaScript strings *)

(** A string is its sequence of UTF-16 code units. *)
Definition jsstring := list N.

(** An ASCII literal as a JavaScript string. *)
Definition lit (s : string) : jsstring :=
  map N_of_ascii (list_ascii_of_string s).

Fixpoint str_eqb (a b : jsstring) : bool :=
  match a, b with
  | [], [] => true
  | x :: a', y :: b' => N.eqb x y && str_eqb a' b'
  | _, _ => false
  end.

(** [arr.includes(val)] on an array of strings. *)
Definition includes (arr : list jsstring) (val : jsstring) : bool :=
  existsb (str_eqb val) arr.

(** [s.slice(0, -1)]: the string without its last code unit. *)
Definition slice_0_minus1 (s : jsstring) : jsstring := removelast s.

(** [s || d]: the empty string is falsy. *)
Definition or_default (s d : jsstring) : jsstring :=
  match s with [] => d | _ => s end.

(** The code units of the display symbols. *)
Definition cu_times : N := 215.   (* U+00D7 *)
Definition cu_divide : N := 247.  (* U+00F7 *)
Definition cu_pi : N := 960.      (* U+03C0 *)
Definition cu_sqrt : N := 8730.   (* U+221A *)

(** ** The component state *)

Record State := mkState {
  expression : jsstring;
  displayValue : jsstring;
  isRad : bool;
  history : jsstring
}.

(** [useState('')], [useState('0')], [useState(false)], [useState('')]. *)
Definition initialState : State :=
  mkState [] (lit "0") false [].

Definition setExpression (v : jsstring) (st : State) : State :=
  mkState v (displayValue st) (isRad st) (history st).
Definition setDisplayValue (v : jsstring) (st : State) : State :=
  mkState (expression st) v (isRad st) (history st).
Definition setIsRad (v : bool) (st : State) : State :=
  mkState (expression st) (displayValue st) v (history st).
Definition setHistory (v : jsstring) (st : State) : State :=
  mkState (expression st) (displayValue st) (isRad st) v.

Definition operators : list jsstring :=
  [lit "+"; lit "-"; lit "*"; lit "/"; lit "^"].

(** [handleInput]: the handler reads the state of the current render and
    queues the setters. *)
Definition handleInput (val : jsstring) (st : State) : State :=
  if str_eqb (displayValue st) (lit "Error") then
    setDisplayValue val (setExpression val st)
  else
    let nextExpr :=
      if str_eqb (expression st) (displayValue st) && negb (includes operators val)
      then val
      else expression st ++ val in
    setDisplayValue nextExpr (setExpression nextExpr st).

Definition handleClear (st : State) : State :=
  setHistory [] (setDisplayValue (lit "0") (setExpression [] st)).

Definition handleDelete (st : State) : State :=
  if str_eqb (displayValue st) (lit "Error") then handleClear st
  else
    let newExpr := slice_0_minus1 (expression st) in
    setDisplayValue (or_default newExpr (lit "0")) (setExpression newExpr st).

(** The mode button: [onClick={() => setIsRad(!isRad)}]. *)
Definition toggleAngleUnit (st : State) : State :=
  setIsRad (negb (isRad st)) st.

(** ** Regular expressions

    The patterns of the source use literal characters, the classes [\d],
    [[^)]] and [[0-9.]], the greedy quantifiers [+] (on a class) and [?],
    alternation and capturing groups.  The matcher is the backtracking one of
    ECMAScript, written with a continuation: the first alternative, and the
    longest repetition, are tried first, and the next choice is taken when
    the rest of the pattern fails. *)
Module RegExp.

Inductive cset :=
| Chr (c : N)             (* a literal character *)
| Digit                   (* \d *)
| NoneOf (cs : list N)    (* [^...] *)
| DigitOr (cs : list N).  (* [0-9...] *)

Definition is_digit (c : N) : bool := (48 <=? c)%N && (c <=? 57)%N.

Definition cset_mem (cs : cset) (c : N) : bool :=
  match cs with
  | Chr x => N.eqb x c
  | Digit => is_digit c
  | NoneOf l => negb (existsb (N.eqb c) l)
  | DigitOr l => is_digit c || existsb (N.eqb c) l
  end.

Inductive regex :=
| One (c : cset)
| Plus (c : cset)
| Seq (r1 r2 : regex)
| Alt (r1 r2 : regex)
| Opt (r : regex)
| Group (n : nat) (r : regex).

(** The literal text [s] followed by [r]. *)
Fixpoint re_lit (s : jsstring) (r : regex) : regex :=
  match s with
  | [] => r
  | c :: s' => Seq (One (Chr c)) (re_lit s' r)
  end.

(** Captures, the most recent first. *)
Definition captures := list (nat * jsstring).

Fixpoint capture (n : nat) (caps : captures) : jsstring :=
  match caps with
  | [] => []
  | (m, s) :: caps' => if Nat.eqb m n then s else capture n caps'
  end.

Definition mresult := option (jsstring * captures).
Definition cont := jsstring -> captures -> mresult.

(** The rest of [c+] after its first character: as many more as possible,
    giving one back at a time while the continuation fails. *)
Fixpoint plus_loop (c : cset) (s : jsstring) (caps : captures) (k : cont) : mresult :=
  match s with
  | x :: s' =>
      if cset_mem c x then
        match plus_loop c s' caps k with
        | Some r => Some r
        | None => k s caps
        end
      else k s caps
  | [] => k [] caps
  end.

Fixpoint rmatch (r : regex) (s : jsstring) (caps : captures) (k : cont) : mresult :=
  match r with
  | One c =>
      match s with
      | x :: s' => if cset_mem c x then k s' caps else None
      | [] => None
      end
  | Plus c =>
      match s with
      | x :: s' => if cset_mem c x then plus_loop c s' caps k else None
      | [] => None
      end
  | Seq r1 r2 => rmatch r1 s caps (fun s' caps' => rmatch r2 s' caps' k)
  | Alt r1 r2 =>
      match rmatch r1 s caps k with
      | Some x => Some x
      | None => rmatch r2 s caps k
      end
  | Opt r' =>
      match rmatch r' s caps k with
      | Some x => Some x
      | None => k s caps
      end
  | Group n r' =>
      rmatch r' s caps
        (fun s' caps' => k s' ((n, firstn (List.length s - List.length s') s) :: caps'))
  end.

(** A match of [r] at the start of [s]: what is left of [s], and the captures. *)
Definition match_here (r : regex) (s : jsstring) : mresult :=
  rmatch r s [] (fun s' caps => Some (s', caps)).

(** A replacement: literal text and references [$n] to the captures. *)
Inductive piece := Text (s : jsstring) | Ref (n : nat).

Definition expand (tmpl : list piece) (caps : captures) : jsstring :=
  flat_map (fun p => match p with Text s => s | Ref n => capture n caps end) tmpl.

(** [s.replace(/r/g, tmpl)]: from left to right, the leftmost match is
    replaced and the search goes on after it; [skip] counts the characters of
    the last match that are still to be passed over. *)
Fixpoint replace_from (r : regex) (tmpl : list piece) (s : jsstring) (skip : nat) : jsstring :=
  match s with
  | [] =>
      match skip with
      | O => match match_here r [] with
             | Some (_, caps) => expand tmpl caps
             | None => []
             end
      | S _ => []
      end
  | c :: s' =>
      match skip with
      | S n => replace_from r tmpl s' n
      | O =>
          match match_here r s with
          | Some (rest, caps) =>
              expand tmpl caps ++
              match List.length s - List.length rest with
              | O => c :: replace_from r tmpl s' 0
              | S n => replace_from r tmpl s' n
              end
          | None => c :: replace_from r tmpl s' 0
          end
      end
  end.

Definition replace_all (r : regex) (tmpl : list piece) (s : jsstring) : jsstring :=
  replace_from r tmpl s 0.

End RegExp.

(** ** The rewriting of the expression (handleCalculate, lines 90 to 126) *)

Import RegExp.

Definition chr (s : string) : regex :=
  match lit s with c :: _ => One (Chr c) | [] => One (NoneOf []) end.

(** [/(\d+(\.\d+)?)/] as group [n], with its inner group [m]. *)
Definition re_number (n m : nat) : regex :=
  Group n (Seq (Plus Digit) (Opt (Group m (Seq (chr ".") (Plus Digit))))).

(** [/(\d+(\.\d+)?)\^(\d+(\.\d+)?)/g] *)
Definition re_pow : regex :=
  Seq (re_number 1 2) (Seq (chr "^") (re_number 3 4)).

(** [/√\(([^)]+)\)/g] *)
Definition re_sqrt_paren : regex :=
  Seq (One (Chr cu_sqrt))
      (Seq (chr "(") (Seq (Group 1 (Plus (NoneOf (lit ")")))) (chr ")"))).

(** [/√(\d+)/g] *)
Definition re_sqrt_digits : regex :=
  Seq (One (Chr cu_sqrt)) (Group 1 (Plus Digit)).

(** [new RegExp(`${func}\\(`, 'g')], also [/ln\(/g] and [/log\(/g]. *)
Definition re_call (func : jsstring) : regex := re_lit func (chr "(").

(** [new RegExp(`${func}\\(([0-9.]+|\\([^)]+\\))\\)`, 'g')] *)
Definition re_call_deg (func : jsstring) : regex :=
  re_lit func
    (Seq (chr "(")
       (Seq (Group 1 (Alt (Plus (DigitOr (lit ".")))
                          (Seq (chr "(") (Seq (Plus (NoneOf (lit ")"))) (chr ")")))))
            (chr ")"))).

Definition mathFuncs : list jsstring :=
  [lit "sin"; lit "cos"; lit "tan"; lit "log"; lit "log10"; lit "abs"].

(** The body of [mathFuncs.forEach]. *)
Definition rewriteFunc (isRad : bool) (evalExpr : jsstring) (func : jsstring) : jsstring :=
  if str_eqb func (lit "log") then
    replace_all (re_call (lit "ln")) [Text (lit "Math.log(")] evalExpr
  else if str_eqb func (lit "log10") then
    replace_all (re_call (lit "log")) [Text (lit "Math.log10(")] evalExpr
  else if includes [lit "sin"; lit "cos"; lit "tan"] func && negb isRad then
    replace_all (re_call_deg func)
      [Text (lit "Math." ++ func ++ lit "(("); Ref 1; Text (lit ") * Math.PI / 180)")]
      evalExpr
  else
    replace_all (re_call func) [Text (lit "Math." ++ func ++ lit "(")] evalExpr.

(** ['Math.pow($1, $3)'] and ['Math.sqrt($1)'] *)
Definition pow_template : list piece :=
  [Text (lit "Math.pow("); Ref 1; Text (lit ", "); Ref 3; Text (lit ")")].
Definition sqrt_template : list piece :=
  [Text (lit "Math.sqrt("); Ref 1; Text (lit ")")].

(** The text handed to [new Function]: symbols, powers, roots, functions. *)
Definition normalize (isRad : bool) (expression : jsstring) : jsstring :=
  let evalExpr := expression in
  let evalExpr := replace_all (One (Chr cu_times)) [Text (lit "*")] evalExpr in
  let evalExpr := replace_all (One (Chr cu_divide)) [Text (lit "/")] evalExpr in
  let evalExpr := replace_all (One (Chr cu_pi)) [Text (lit "Math.PI")] evalExpr in
  let evalExpr := replace_all (chr "e") [Text (lit "Math.E")] evalExpr in
  let evalExpr := replace_all re_pow pow_template evalExpr in
  let evalExpr := replace_all re_sqrt_paren sqrt_template evalExpr in
  let evalExpr := replace_all re_sqrt_digits sqrt_template evalExpr in
  fold_left (rewriteFunc isRad) mathFuncs evalExpr.

(** ** Numbers

    A Number is a binary64 float; the arithmetic operators are the IEEE 754
    ones of the kernel.  [Math.round], the value of a decimal literal and the
    conversion to a string are computed on the float's mantissa and exponent
    ([Prim2SF]: the float is [±m * 2^e]). *)
Module Number.

Local Open Scope Z_scope.

(** The float of an integer [z] with [|z| < 2^63] (the range of
    [Uint63.of_Z]); exact when [|z| <= 2^53]. *)
Definition float_of_Z (z : Z) : float :=
  if z <? 0 then PrimFloat.opp (of_uint63 (Uint63.of_Z (- z)))
  else of_uint63 (Uint63.of_Z z).

(** [Math.round(x)]: the integer closest to [x], a tie going up; an integer,
    an infinity and NaN are returned as they are, and a result of zero keeps
    the sign of [x]. *)
Definition Math_round (x : float) : float :=
  match Prim2SF x with
  | S754_finite s m e =>
      if 0 <=? e then x
      else
        let d := 2 ^ (- e) in
        if s then
          let r := (d - 2 * Z.pos m) / (2 * d) in
          if r =? 0 then neg_zero else float_of_Z r
        else float_of_Z ((2 * Z.pos m + d) / (2 * d))
  | _ => x
  end.

(** The decimal digits of a natural number. *)
Definition digits (z : Z) : jsstring :=
  lit (NilZero.string_of_uint (N.to_uint (Z.to_N z))).

(** [cmp_dec_bin s q b e] compares [s * 10^q] with [b * 2^e]. *)
Definition cmp_dec_bin (s q b e : Z) : comparison :=
  Z.compare (s * 10 ^ Z.max q 0 * 2 ^ Z.max (- e) 0)
            (b * 2 ^ Z.max e 0 * 10 ^ Z.max (- q) 0).

(** Whether the decimal [s * 10^q] rounds to the float [m * 2^e]: it lies
    between the midpoints to the two neighbouring floats, a midpoint counting
    when [m] is even. *)
Definition rounds_to (m e s q : Z) : bool :=
  let lo := if (m =? 2 ^ 52) && (-1074 <? e) then 4 * m - 1 else 4 * m - 2 in
  let hi := 4 * m + 2 in
  match cmp_dec_bin s q lo (e - 2), cmp_dec_bin s q hi (e - 2) with
  | Gt, Lt => true
  | Eq, _ => Z.even m
  | _, Eq => Z.even m
  | _, _ => false
  end.

(** The least [n], from [n] on, with [m * 2^e < 10^n]. *)
Fixpoint magnitude (fuel : nat) (m e n : Z) : Z :=
  match fuel with
  | O => n
  | S fuel' =>
      match cmp_dec_bin 1 n m e with
      | Gt => n
      | _ => magnitude fuel' m e (n + 1)
      end
  end.

(** Number::toString, step 5: integers [n], [k], [s] with [s] of [k] digits,
    [s * 10^(n-k)] rounding to the float, and [k] as small as possible; of two
    such [s] the closer to the float, the even one on a tie.  The search
    tries [k = 1], [2], ... in turn, each with the test and the choice of the
    closer candidate; seventeen digits identify every binary64 Number, so it
    ends by [k = 17], which the fuel of [shortest] reaches. *)
Fixpoint shortest_from (fuel : nat) (m e n0 k : Z) : Z * Z * Z :=
  let q := n0 - k in
  let num := m * 2 ^ Z.max e 0 * 10 ^ Z.max (- q) 0 in
  let den := 2 ^ Z.max (- e) 0 * 10 ^ Z.max q 0 in
  let s_lo := num / den in
  let s_hi := s_lo + 1 in
  let pick s := if s =? 10 ^ k then (n0 + 1, 1, 1) else (n0, k, s) in
  match fuel with
  | O => (n0, k, s_lo)
  | S fuel' =>
      match rounds_to m e s_lo q, rounds_to m e s_hi q with
      | true, true =>
          match Z.compare (num - s_lo * den) (s_hi * den - num) with
          | Lt => pick s_lo
          | Gt => pick s_hi
          | Eq => if Z.even s_lo then pick s_lo else pick s_hi
          end
      | true, false => pick s_lo
      | false, true => pick s_hi
      | false, false => shortest_from fuel' m e n0 (k + 1)
      end
  end.

Definition shortest (m e : Z) : Z * Z * Z :=
  shortest_from 17 m e (magnitude 700 m e (-330)) 1.

(** Number::toString, steps 6 to 10: the digits of [s] laid out by [n]. *)
Definition layout (n k s : Z) : jsstring :=
  let d := digits s in
  if (0 <? n) && (n <=? 21) then
    if k <=? n then d ++ repeat 48%N (Z.to_nat (n - k))
    else firstn (Z.to_nat n) d ++ lit "." ++ skipn (Z.to_nat n) d
  else if (-6 <? n) && (n <=? 0) then
    lit "0." ++ repeat 48%N (Z.to_nat (- n)) ++ d
  else
    let ex := lit "e" ++ (if n - 1 <? 0 then lit "-" else lit "+") ++ digits (Z.abs (n - 1)) in
    if k =? 1 then d ++ ex
    else firstn 1 d ++ lit "." ++ skipn 1 d ++ ex.

(** [String(x)] for a Number [x]. *)
Definition toString (x : float) : jsstring :=
  match Prim2SF x with
  | S754_nan => lit "NaN"
  | S754_zero _ => lit "0"
  | S754_infinity false => lit "Infinity"
  | S754_infinity true => lit "-Infinity"
  | S754_finite sg m e =>
      let '(n, k, s) := shortest (Z.pos m) e in
      (if sg then lit "-" else []) ++ layout n k s
  end.

(** The value of the decimal literal with integer digits [ip] and fraction
    digits [fp], when its digits make an integer below [2^53] and the
    fraction has at most 18 digits: the integer and the power of ten (below
    [2^63], where [float_of_Z] is defined, and a product of a power of two and
    [5^k < 2^53]) are floats then, and their quotient is rounded once.  Any
    other literal has no value here. *)
Definition digit_value (c : N) : Z := Z.of_N c - 48.

Definition digits_value (ds : jsstring) : Z :=
  fold_left (fun acc c => 10 * acc + digit_value c) ds 0.

Definition literal_value (ip fp : jsstring) : option float :=
  let n := digits_value (ip ++ fp) in
  let k := Z.of_nat (List.length fp) in
  if (n <? 2 ^ 53) && (k <=? 18)
  then Some (PrimFloat.div (float_of_Z n) (float_of_Z (10 ^ k)))
  else None.

End Number.

(** ** The expression language of the rewritten text

    [new Function(`return ${evalExpr}`)()] parses and runs [evalExpr] as a
    JavaScript expression.  The part of the language that the rewriting
    produces from calculator input is modelled: decimal literals, the
    identifiers [Math], [Infinity], [NaN] and [undefined], property access,
    calls, unary and binary [+ - * /], the comma, parentheses.  A text outside
    this part is [Unmodelled] here and is left to the engine ([host]). *)
Module Js.

Inductive error := SyntaxError | TypeError | ReferenceError | OtherError.

(** The result of running a function body: a value, or an exception. *)
Inductive completion (A : Type) :=
| Normal (a : A)
| Throw (e : error).
Arguments Throw {A} e.

(** The result of the modelled part. *)
Inductive outcome (A : Type) :=
| Done (a : A)
| Throws (e : error)
| Unmodelled.
Arguments Throws {A} e.
Arguments Unmodelled {A}.

Definition bind {A B} (x : outcome A) (f : A -> outcome B) : outcome B :=
  match x with
  | Done a => f a
  | Throws e => Throws e
  | Unmodelled => Unmodelled
  end.

Notation "x <- c1 ;; c2" := (bind c1 (fun x => c2))
  (at level 61, c1 at next level, right associativity).
Notation "' pat <- c1 ;; c2" := (bind c1 (fun x => match x with pat => c2 end))
  (at level 61, pat pattern, c1 at next level, right associativity).

Inductive builtin := BSin | BCos | BTan | BLog | BLog10 | BAbs | BSqrt | BPow.

Inductive value :=
| VUndefined
| VNumber (x : float)
| VMath                    (* the Math object *)
| VBuiltin (b : builtin).  (* a function of the Math object *)

(** What the engine supplies: the functions of [Math] that ECMAScript leaves
    implementation-approximated, and the run of a text outside the modelled
    part up to the conversion of its result to a Number (the Number, or an
    exception). *)
Record Engine := mkEngine {
  Math_sin : float -> float;
  Math_cos : float -> float;
  Math_tan : float -> float;
  Math_log : float -> float;
  Math_log10 : float -> float;
  Math_pow : float -> float -> float;
  host : jsstring -> completion float
}.

Definition Math_E : float := 0x1.5bf0a8b145769p+1%float.
Definition Math_PI : float := 0x1.921fb54442d18p+1%float.

(** *** Tokens *)

Inductive token :=
| TNum (x : float)
| TIdent (name : jsstring)
| TLParen | TRParen | TComma | TDot
| TPlus | TMinus | TStar | TSlash
| TInvalid (e : error).    (* no token: the text from here on does not lex *)

Definition is_digit := RegExp.is_digit.

Definition is_ident_start (c : N) : bool :=
  ((65 <=? c) && (c <=? 90) || (97 <=? c) && (c <=? 122) || (c =? 95) || (c =? 36))%N.

Definition is_ident_part (c : N) : bool := is_ident_start c || is_digit c.

(** Letters that continue a numeric literal (exponent, BigInt suffix,
    separator, radix prefix): such literals are not modelled. *)
Definition continues_literal (c : N) : bool :=
  existsb (N.eqb c) (lit "eEn_xXbBoO").

(** The longest prefix of [s] whose characters satisfy [p], and the rest. *)
Fixpoint span (p : N -> bool) (s : jsstring) : jsstring * jsstring :=
  match s with
  | c :: s' =>
      if p c then let '(a, b) := span p s' in (c :: a, b) else ([], s)
  | [] => ([], [])
  end.

(** After a numeric literal: an identifier character or a digit may not
    follow it. *)
Definition after_literal (rest : jsstring) : outcome unit :=
  match rest with
  | c :: _ =>
      if continues_literal c then Unmodelled
      else if is_ident_part c then Throws SyntaxError
      else Done tt
  | [] => Done tt
  end.

Definition number_token (ip fp rest : jsstring) : outcome token :=
  _ <- after_literal rest ;;
  match ip with
  | 48%N :: _ :: _ => Unmodelled   (* a legacy octal literal *)
  | _ =>
      match Number.literal_value ip fp with
      | Some x => Done (TNum x)
      | None => Unmodelled
      end
  end.

(** One token off the front of [s] (which does not start with a space). *)
Definition next_token (s : jsstring) : outcome (token * jsstring) :=
  match s with
  | [] => Unmodelled
  | c :: s' =>
      if is_digit c then
        let '(ip, r) := span is_digit s in
        match r with
        | 46%N :: r' =>
            let '(fp, r'') := span is_digit r' in
            t <- number_token ip fp r'' ;; Done (t, r'')
        | _ => t <- number_token ip [] r ;; Done (t, r)
        end
      else if is_ident_start c then
        let '(name, r) := span is_ident_part s in Done (TIdent name, r)
      else
        match c, s' with
        | 46%N, d :: _ =>
            if is_digit d then
              let '(fp, r) := span is_digit s' in
              t <- number_token [] fp r ;; Done (t, r)
            else if (d =? 46)%N then Unmodelled
            else Done (TDot, s')
        | 46%N, [] => Done (TDot, s')
        | 40%N, _ => Done (TLParen, s')
        | 41%N, _ => Done (TRParen, s')
        | 44%N, _ => Done (TComma, s')
        | 43%N, 43%N :: _ => Unmodelled           (* ++ *)
        | 43%N, _ => Done (TPlus, s')
        | 45%N, 45%N :: _ => Unmodelled           (* -- *)
        | 45%N, _ => Done (TMinus, s')
        | 42%N, 42%N :: _ => Unmodelled           (* ** *)
        | 42%N, _ => Done (TStar, s')
        | 47%N, 47%N :: _ => Unmodelled           (* a comment *)
        | 47%N, 42%N :: _ => Unmodelled           (* a comment *)
        | 47%N, _ => Done (TSlash, s')
        | _, _ => Unmodelled
        end
  end.

(** The tokens of [s], from left to right.  The parser of the language asks
    for one token at a time and decides by the tokens it has read whether a
    [/] divides or opens a regular expression literal, so a lexical error is
    an error only if the parser gets as far: the token list ends with
    [TInvalid] there.  A character outside the modelled part makes the whole
    text [Unmodelled], as it may open a string, a template, a comment, or
    turn what precedes it into the parameters of an arrow function. *)
Fixpoint tokens (fuel : nat) (s : jsstring) : outcome (list token) :=
  match fuel with
  | O => Unmodelled
  | S fuel' =>
      match s with
      | [] => Done []
      | 32%N :: s' => tokens fuel' s'
      | _ =>
          match next_token s with
          | Done (t, r) => ts <- tokens fuel' r ;; Done (t :: ts)
          | Throws e => Done [TInvalid e]
          | Unmodelled => Unmodelled
          end
      end
  end.

Definition tokenize (s : jsstring) : outcome (list token) :=
  tokens (S (List.length s)) s.

(** *** Expressions *)

Inductive binop := Add | Sub | Mul | Div.

Inductive expr :=
| ENum (x : float)
| EIdent (name : jsstring)
| EMember (e : expr) (name : jsstring)
| ECall (f : expr) (args : list expr)
| EPos (e : expr)
| ENeg (e : expr)
| EBin (op : binop) (e1 e2 : expr)
| EComma (e1 e2 : expr).

Definition globals : list jsstring :=
  [lit "Math"; lit "Infinity"; lit "NaN"; lit "undefined"].

(** A token where none may stand.  An identifier that is not one of the
    modelled globals may be an operator of the full language ([in],
    [instanceof]); where the text does not lex, the error is the lexer's. *)
Definition unexpected {A} (ts : list token) : outcome A :=
  match ts with
  | TIdent name :: _ => if includes globals name then Throws SyntaxError else Unmodelled
  | TInvalid e :: _ => Throws e
  | _ => Throws SyntaxError
  end.

Definition parser (A : Type) := list token -> outcome (A * list token).

(** Recursive descent, one function per level of the grammar:
    Expression, AssignmentExpression (here an additive expression),
    MultiplicativeExpression, UnaryExpression, CallExpression, Arguments,
    PrimaryExpression. *)
Fixpoint parse_expr (fuel : nat) : parser expr :=
  fun ts =>
  match fuel with
  | O => Unmodelled
  | S f => '(e, r) <- parse_additive f ts ;; parse_comma_rest f e r
  end
with parse_comma_rest (fuel : nat) (e : expr) : parser expr :=
  fun ts =>
  match fuel with
  | O => Unmodelled
  | S f =>
      match ts with
      | TComma :: r => '(e', r') <- parse_additive f r ;; parse_comma_rest f (EComma e e') r'
      | _ => Done (e, ts)
      end
  end
with parse_additive (fuel : nat) : parser expr :=
  fun ts =>
  match fuel with
  | O => Unmodelled
  | S f => '(e, r) <- parse_multiplicative f ts ;; parse_additive_rest f e r
  end
with parse_additive_rest (fuel : nat) (e : expr) : parser expr :=
  fun ts =>
  match fuel with
  | O => Unmodelled
  | S f =>
      match ts with
      | TPlus :: r =>
          '(e', r') <- parse_multiplicative f r ;; parse_additive_rest f (EBin Add e e') r'
      | TMinus :: r =>
          '(e', r') <- parse_multiplicative f r ;; parse_additive_rest f (EBin Sub e e') r'
      | _ => Done (e, ts)
      end
  end
with parse_multiplicative (fuel : nat) : parser expr :=
  fun ts =>
  match fuel with
  | O => Unmodelled
  | S f => '(e, r) <- parse_unary f ts ;; parse_multiplicative_rest f e r
  end
with parse_multiplicative_rest (fuel : nat) (e : expr) : parser expr :=
  fun ts =>
  match fuel with
  | O => Unmodelled
  | S f =>
      match ts with
      | TStar :: r =>
          '(e', r') <- parse_unary f r ;; parse_multiplicative_rest f (EBin Mul e e') r'
      | TSlash :: r =>
          '(e', r') <- parse_unary f r ;; parse_multiplicative_rest f (EBin Div e e') r'
      | _ => Done (e, ts)
      end
  end
with parse_unary (fuel : nat) : parser expr :=
  fun ts =>
  match fuel with
  | O => Unmodelled
  | S f =>
      match ts with
      | TPlus :: r => '(e, r') <- parse_unary f r ;; Done (EPos e, r')
      | TMinus :: r => '(e, r') <- parse_unary f r ;; Done (ENeg e, r')
      | _ => '(e, r) <- parse_primary f ts ;; parse_postfix f e r
      end
  end
with parse_postfix (fuel : nat) (e : expr) : parser expr :=
  fun ts =>
  match fuel with
  | O => Unmodelled
  | S f =>
      match ts with
      | TDot :: TIdent name :: r => parse_postfix f (EMember e name) r
      | TDot :: r => unexpected r
      | TLParen :: r => '(args, r') <- parse_arguments f r ;; parse_postfix f (ECall e args) r'
      | _ => Done (e, ts)
      end
  end
with parse_arguments (fuel : nat) : parser (list expr) :=
  fun ts =>
  match fuel with
  | O => Unmodelled
  | S f =>
      match ts with
      | TRParen :: r => Done ([], r)
      | _ =>
          '(a, r) <- parse_additive f ts ;;
          match r with
          | TComma :: r' => '(args, r'') <- parse_arguments f r' ;; Done (a :: args, r'')
          | TRParen :: r' => Done ([a], r')
          | _ => unexpected r
          end
      end
  end
with parse_primary (fuel : nat) : parser expr :=
  fun ts =>
  match fuel with
  | O => Unmodelled
  | S f =>
      match ts with
      | TNum x :: r => Done (ENum x, r)
      | TIdent name :: r =>
          if includes globals name then Done (EIdent name, r) else Unmodelled
      | TLParen :: r =>
          '(e, r') <- parse_expr f r ;;
          match r' with
          | TRParen :: r'' => Done (e, r'')
          | _ => unexpected r'
          end
      | TSlash :: _ => Unmodelled    (* a regular expression literal *)
      | _ => unexpected ts
      end
  end.

(** The body [return <tokens>]: no expression at all is [return;]. *)
Definition parse_return (ts : list token) : outcome (option expr) :=
  match ts with
  | [] => Done None
  | _ =>
      '(e, r) <- parse_expr (10 * S (List.length ts)) ts ;;
      match r with
      | [] => Done (Some e)
      | _ => unexpected r
      end
  end.

(** *** Evaluation *)

(** ToNumber: [undefined] is NaN, and so are the Math object and its
    functions (their primitive is a string that is not a numeric literal). *)
Definition to_number (v : value) : float :=
  match v with
  | VNumber x => x
  | _ => nan
  end.

Definition math_properties : list (jsstring * value) :=
  [(lit "E", VNumber Math_E); (lit "PI", VNumber Math_PI);
   (lit "sin", VBuiltin BSin); (lit "cos", VBuiltin BCos); (lit "tan", VBuiltin BTan);
   (lit "log", VBuiltin BLog); (lit "log10", VBuiltin BLog10);
   (lit "abs", VBuiltin BAbs); (lit "sqrt", VBuiltin BSqrt); (lit "pow", VBuiltin BPow);
   (* the Math object has no property of its own name *)
   (lit "Math", VUndefined)].

Fixpoint lookup (name : jsstring) (l : list (jsstring * value)) : outcome value :=
  match l with
  | [] => Unmodelled
  | (k, v) :: l' => if str_eqb k name then Done v else lookup name l'
  end.

Definition get_member (v : value) (name : jsstring) : outcome value :=
  match v with
  | VUndefined => Throws TypeError
  | VMath => lookup name math_properties
  | VNumber _ | VBuiltin _ => Unmodelled
  end.

Definition global (name : jsstring) : outcome value :=
  lookup name
    [(lit "Math", VMath); (lit "Infinity", VNumber infinity);
     (lit "NaN", VNumber nan); (lit "undefined", VUndefined)].

Section Eval.

Variable E : Engine.

Definition arg (n : nat) (args : list value) : float :=
  to_number (nth n args VUndefined).

Definition apply_builtin (b : builtin) (args : list value) : float :=
  match b with
  | BSin => Math_sin E (arg 0 args)
  | BCos => Math_cos E (arg 0 args)
  | BTan => Math_tan E (arg 0 args)
  | BLog => Math_log E (arg 0 args)
  | BLog10 => Math_log10 E (arg 0 args)
  | BAbs => PrimFloat.abs (arg 0 args)
  | BSqrt => PrimFloat.sqrt (arg 0 args)
  | BPow => Math_pow E (arg 0 args) (arg 1 args)
  end.

Definition call (f : value) (args : list value) : outcome value :=
  match f with
  | VBuiltin b => Done (VNumber (apply_builtin b args))
  | _ => Throws TypeError
  end.

Definition is_object (v : value) : bool :=
  match v with
  | VMath | VBuiltin _ => true
  | _ => false
  end.

Definition binary (op : binop) (l r : value) : outcome value :=
  match op with
  | Add =>
      (* an object operand makes [+] a string concatenation *)
      if is_object l || is_object r then Unmodelled
      else Done (VNumber (PrimFloat.add (to_number l) (to_number r)))
  | Sub => Done (VNumber (PrimFloat.sub (to_number l) (to_number r)))
  | Mul => Done (VNumber (PrimFloat.mul (to_number l) (to_number r)))
  | Div => Done (VNumber (PrimFloat.div (to_number l) (to_number r)))
  end.

Fixpoint eval (e : expr) : outcome value :=
  match e with
  | ENum x => Done (VNumber x)
  | EIdent name => global name
  | EMember e' name => v <- eval e' ;; get_member v name
  | ECall f args =>
      fv <- eval f ;;
      vs <- (fix eval_list (l : list expr) : outcome (list value) :=
               match l with
               | [] => Done []
               | a :: l' => v <- eval a ;; vs <- eval_list l' ;; Done (v :: vs)
               end) args ;;
      call fv vs
  | EPos e' => v <- eval e' ;; Done (VNumber (to_number v))
  | ENeg e' => v <- eval e' ;; Done (VNumber (PrimFloat.opp (to_number v)))
  | EBin op e1 e2 => l <- eval e1 ;; r <- eval e2 ;; binary op l r
  | EComma e1 e2 => _ <- eval e1 ;; eval e2
  end.

(** The modelled part of [new Function(`return ${evalExpr}`)()]. *)
Definition run (evalExpr : jsstring) : outcome value :=
  ts <- tokenize evalExpr ;;
  p <- parse_return ts ;;
  match p with
  | None => Done VUndefined
  | Some e => eval e
  end.

(** [new Function(`return ${evalExpr}`)()], and the conversion of its result
    to a Number that [result * 1000000000] starts with. *)
Definition newFunction_return (evalExpr : jsstring) : completion float :=
  match run evalExpr with
  | Done v => Normal (to_number v)
  | Throws e => Throw e
  | Unmodelled => host E evalExpr
  end.

End Eval.

End Js.

(** ** handleCalculate *)

Section Calculate.

Variable E : Js.Engine.

(** [Math.round(result * 1000000000) / 1000000000] *)
Definition finalResult (result : float) : float :=
  PrimFloat.div (Number.Math_round (PrimFloat.mul result 1000000000)) 1000000000.

(** The [try] block up to [finalResult]: the Number, or the exception that
    the [catch] receives. *)
Definition calculate (isRad : bool) (expression : jsstring) : Js.completion float :=
  match Js.newFunction_return E (normalize isRad expression) with
  | Js.Normal result => Js.Normal (finalResult result)
  | Js.Throw e => Js.Throw e
  end.

Definition handleCalculate (st : State) : State :=
  match calculate (isRad st) (expression st) with
  | Js.Normal r =>
      setExpression (Number.toString r)
        (setDisplayValue (Number.toString r) (setHistory (expression st) st))
  | Js.Throw _ =>
      setExpression [] (setDisplayValue (lit "Error") st)
  end.

End Calculate.

(** ** An engine for the examples

    Its functions return, at the arguments that the examples use, the values
    of a correctly rounding implementation, and NaN elsewhere. *)

Definition at_points (pts : list (float * float)) (x : float) : float :=
  match find (fun p => PrimFloat.eqb (fst p) x) pts with
  | Some p => snd p
  | None => nan
  end.

Definition sample_engine : Js.Engine :=
  Js.mkEngine
    (at_points [(90, 0x1.c9b9ee41cb866p-1); (0x1.921fb54442d18p+0, 1)]%float)
    (at_points [(0, 1)]%float)
    (at_points [(0, 0)]%float)
    (at_points [(1, 0)]%float)
    (at_points [(100, 2)]%float)
    (fun x y => if PrimFloat.eqb x 2 && PrimFloat.eqb y 10 then 1024%float else nan)
    (fun _ => Js.Throw Js.OtherError).

(** The state with [s] in the buffer and on the display. *)
Definition entered (s : jsstring) (isRad : bool) (history : jsstring) : State :=
  mkState s s isRad history.

(** The state that the [catch] of handleCalculate is meant to leave, as the
    specification words it. *)
Definition error_state (st : State) : Prop :=
  displayValue st = lit "Error" /\ expression st = [].

(** The display never shows text that differs from a non-empty buffer. *)
Definition display_agrees (st : State) : Prop :=
  displayValue st = expression st \/
  (expression st = [] /\ (displayValue st = lit "0" \/ displayValue st = lit "Error")).

(** ** The handlers as queued updates

    A handler is a closure of one render: it reads the state of that render
    and queues calls of the setters, which React applies to the state of the
    component.  For a button the render is the current one.  The keydown
    listener is registered by [useEffect] with the dependencies
    [[expression, isRad]]: it is the closure of the last render in which one
    of the two had changed. *)

Inductive update :=
| SetExpression (v : jsstring)
| SetDisplayValue (v : jsstring)
| SetIsRad (v : bool)
| SetHistory (v : jsstring).

Definition apply_update (st : State) (u : update) : State :=
  match u with
  | SetExpression v => setExpression v st
  | SetDisplayValue v => setDisplayValue v st
  | SetIsRad v => setIsRad v st
  | SetHistory v => setHistory v st
  end.

(** The queued updates applied, in order, to the state of the component. *)
Definition commit (us : list update) (st : State) : State :=
  fold_left apply_update us st.

Definition handleInput_updates (val : jsstring) (c : State) : list update :=
  if str_eqb (displayValue c) (lit "Error") then
    [SetExpression val; SetDisplayValue val]
  else
    let nextExpr :=
      if str_eqb (expression c) (displayValue c) && negb (includes operators val)
      then val
      else expression c ++ val in
    [SetExpression nextExpr; SetDisplayValue nextExpr].

Definition handleClear_updates : list update :=
  [SetExpression []; SetDisplayValue (lit "0"); SetHistory []].

Definition handleDelete_updates (c : State) : list update :=
  if str_eqb (displayValue c) (lit "Error") then handleClear_updates
  else
    let newExpr := slice_0_minus1 (expression c) in
    [SetExpression newExpr; SetDisplayValue (or_default newExpr (lit "0"))].

Definition handleCalculate_updates (E : Js.Engine) (c : State) : list update :=
  match calculate E (isRad c) (expression c) with
  | Js.Normal r =>
      [SetHistory (expression c); SetDisplayValue (Number.toString r);
       SetExpression (Number.toString r)]
  | Js.Throw _ => [SetDisplayValue (lit "Error"); SetExpression []]
  end.

Definition toggle_updates (c : State) : list update :=
  [SetIsRad (negb (isRad c))].

(** [r.test(s)]: whether [r] matches somewhere in [s]. *)
Fixpoint regexp_test (r : regex) (s : jsstring) : bool :=
  match match_here r s with
  | Some _ => true
  | None =>
      match s with
      | [] => false
      | _ :: s' => regexp_test r s'
      end
  end.

(** [['+', '-', '*', '/', '(', ')', '.']] *)
Definition keyboard_tokens : list jsstring :=
  [lit "+"; lit "-"; lit "*"; lit "/"; lit "("; lit ")"; lit "."].

(** [handleKeyDown]: five independent [if]s, each queueing the updates of its
    handler. *)
Definition handleKeyDown (E : Js.Engine) (key : jsstring) (c : State) : list update :=
  (if regexp_test (One (DigitOr [])) key then handleInput_updates key c else []) ++
  (if includes keyboard_tokens key then handleInput_updates key c else []) ++
  (if str_eqb key (lit "Enter") then handleCalculate_updates E c else []) ++
  (if str_eqb key (lit "Backspace") then handleDelete_updates c else []) ++
  (if str_eqb key (lit "Escape") then handleClear_updates else []).

(** The buttons of the component: a key with its label and the token that it
    hands to handleInput, AC, DEL, [=], and the mode indicator. *)
Inductive button :=
| Key (label token : jsstring)
| AC
| DEL
| Equal
| Mode.

Definition buttons : list button :=
  [ Mode;
    Key (lit "sin") (lit "sin("); Key (lit "cos") (lit "cos("); Key (lit "tan") (lit "tan(");
    Key [cu_pi] [cu_pi]; Key (lit "e") (lit "e");
    Key (lit "ln") (lit "ln("); Key (lit "log") (lit "log(");
    Key [cu_sqrt] (cu_sqrt :: lit "("); Key (lit "^") (lit "^"); Key (lit "(") (lit "(");
    AC; DEL; Key (lit ")") (lit ")"); Key [cu_divide] (lit "/");
    Key (lit "7") (lit "7"); Key (lit "8") (lit "8"); Key (lit "9") (lit "9");
    Key [cu_times] (lit "*");
    Key (lit "4") (lit "4"); Key (lit "5") (lit "5"); Key (lit "6") (lit "6");
    Key (lit "-") (lit "-");
    Key (lit "1") (lit "1"); Key (lit "2") (lit "2"); Key (lit "3") (lit "3");
    Key (lit "+") (lit "+");
    Key (lit "0") (lit "0"); Key (lit ".") (lit "."); Equal ].

Definition onClick (E : Js.Engine) (b : button) (c : State) : list update :=
  match b with
  | Key _ token => handleInput_updates token c
  | AC => handleClear_updates
  | DEL => handleDelete_updates c
  | Equal => handleCalculate_updates E c
  | Mode => toggle_updates c
  end.

(** The component with its keydown listener: the current state, and the
    state that the registered listener has captured. *)
Record Ui := mkUi {
  current : State;
  listener : State
}.

Definition initialUi : Ui := mkUi initialState initialState.

(** Whether a dependency of the effect differs between two renders. *)
Definition deps_changed (a b : State) : bool :=
  negb (str_eqb (expression a) (expression b)) || negb (Bool.eqb (isRad a) (isRad b)).

(** The render after an event: the effect registers the listener of the new
    render when a dependency has changed, and keeps the old one otherwise. *)
Definition render (ui : Ui) (st : State) : Ui :=
  mkUi st (if deps_changed (listener ui) st then st else listener ui).

Inductive event :=
| Click (b : button)
| KeyDown (key : jsstring).

Definition step (E : Js.Engine) (ui : Ui) (ev : event) : Ui :=
  match ev with
  | Click b => render ui (commit (onClick E b (current ui)) (current ui))
  | KeyDown key => render ui (commit (handleKeyDown E key (listener ui)) (current ui))
  end.

Definition run_events (E : Js.Engine) (evs : list event) : Ui :=
  fold_left (step E) evs initialUi.

(** A click is on one of the buttons of the component; any key may be
    pressed. *)
Definition on_keypad (ev : event) : Prop :=
  match ev with
  | Click b => In b buttons
  | KeyDown _ => True
  end.

(** What a key does when its handler reads the current state. *)
Definition key_action (E : Js.Engine) (key : jsstring) (st : State) : State :=
  if existsb is_digit key || includes keyboard_tokens key then handleInput key st
  else if str_eqb key (lit "Enter") then handleCalculate E st
  else if str_eqb key (lit "Backspace") then handleDelete st
  else if str_eqb key (lit "Escape") then handleClear st
  else st.

(** The tokens that an event can hand to handleInput. *)
Definition token_of (ev : event) : list jsstring :=
  match ev with
  | Click (Key _ token) => [token]
  | KeyDown key => [key]
  | _ => []
  end.

Definition is_prefix (a b : jsstring) : Prop := exists t, b = a ++ t.

Definition operator_char (c : N) : Prop := In [c] operators.

(** A buffer with at most one operand: the beginning of one token or of the
    string of one result, followed by operator characters only. *)
Definition single_operand (tokens : list jsstring) (s : jsstring) : Prop :=
  exists a ops,
    s = a ++ ops /\
    Forall operator_char ops /\
    exists atom, is_prefix a atom /\ (In atom tokens \/ exists R, atom = Number.toString R).

(** The characters that the rewriting removes: the display symbols for
    times, divide and pi, and the letter e. *)
Definition is_symbol (c : N) : bool :=
  existsb (N.eqb c) [cu_times; cu_divide; cu_pi; 101%N].

(** Line 93, character by character. *)
Definition symbol_text (c : N) : jsstring :=
  if N.eqb c cu_times then lit "*"
  else if N.eqb c cu_divide then lit "/"
  else if N.eqb c cu_pi then lit "Math.PI"
  else if N.eqb c 101 then lit "Math.E"
  else [c].

(** The text after lines 93 to 100, before [mathFuncs.forEach]. *)
Definition before_functions (expression : jsstring) : jsstring :=
  replace_all re_sqrt_digits sqrt_template
    (replace_all re_sqrt_paren sqrt_template
       (replace_all re_pow pow_template
          (replace_all (chr "e") [Text (lit "Math.E")]
             (replace_all (One (Chr cu_pi)) [Text (lit "Math.PI")]
                (replace_all (One (Chr cu_divide)) [Text (lit "/")]
                   (replace_all (One (Chr cu_times)) [Text (lit "*")] expression)))))).

(** The letters that only the names sin, cos and tan bring: i, c and n. *)
Definition no_trig_letter (c : N) : bool :=
  negb (existsb (N.eqb c) (lit "icn")).

(** No match of [r] starts inside the prefix [a] of the text [a ++ s]. *)
Fixpoint no_match_in (r : regex) (a s : jsstring) : Prop :=
  match a with
  | [] => True
  | _ :: a' => match_here r (a ++ s) = None /\ no_match_in r a' s
  end.

(** What an event does when its handler reads the current state. *)
Definition act (E : Js.Engine) (ev : event) (st : State) : State :=
  match ev with
  | Click b => commit (onClick E b st) st
  | KeyDown key => key_action E key st
  end.

(** The display agrees with the buffer and is never empty. *)
Definition well_formed (st : State) : Prop :=
  display_agrees st /\ displayValue st <> [].

(** What the registered listener may have missed: it has the buffer and the
    angle unit of the current state, and its display differs from the
    current one only when buffer and history are empty and "0" is shown. *)
Definition listener_ok (ui : Ui) : Prop :=
  expression (listener ui) = expression (current ui) /\
  isRad (listener ui) = isRad (current ui) /\
  displayValue (listener ui) <> [] /\
  (displayValue (listener ui) = displayValue (current ui) \/
   (expression (current ui) = [] /\ history (current ui) = [] /\
    displayValue (current ui) = lit "0")).

(** How a handler may change a state whose dependencies it leaves alone. *)
Definition quiet_change (st st' : State) : Prop :=
  well_formed st' /\
  (expression st' = expression st ->
   displayValue st' = displayValue st \/
   (expression st' = [] /\ history st' = [] /\ displayValue st' = lit "0")) /\
  (expression st' = expression st -> expression st = [] -> history st = [] ->
   history st' = []).

(** What may follow a number in the texts of the properties: the end, ")"
    or ",". *)
Definition closes (rest : jsstring) : Prop :=
  match rest with
  | [] => True
  | c :: _ => c = 41%N \/ c = 44%N
  end.

Definition is_suffix (s' s : jsstring) : Prop := exists p, s = p ++ s'.

(** The characters that line 93 rewrites, those that lines 93 to 100 look
    for, and a letter of every pattern of [mathFuncs.forEach]. *)
Definition symbols : jsstring := [cu_times; cu_divide; cu_pi; 101%N].
Definition sought_before : jsstring := symbols ++ [cu_sqrt; 94%N].
Definition sought_by_functions : jsstring := lit "icnlb".

(** The text [s] holds none of the characters of [l]. *)
Definition lacks (l : jsstring) (s : jsstring) : Prop :=
  forallb (fun c => negb (existsb (N.eqb c) l)) s = true.

(** The engine's function for a trigonometric name. *)
Definition trig_function (E : Js.Engine) (func : jsstring) : float -> float :=
  if str_eqb func (lit "sin") then Js.Math_sin E
  else if str_eqb func (lit "cos") then Js.Math_cos E
  else Js.Math_tan E.

(** The text [s] starts with the digits [ds] and a capital M. *)
Definition number_then_M (ds s : jsstring) : Prop := exists tl, s = ds ++ 77%N :: tl.

(** The characters of the string of a Number. *)
Definition result_char (c : N) : bool :=
  is_digit c || existsb (N.eqb c) (lit ".-+eNaInfity").

(** The text [s] holds no multiplication and no division sign. *)
Definition no_sign (s : jsstring) : Prop := lacks [cu_times; cu_divide] s.

(** A click on a button of the component, or a key whose name holds no
    multiplication and no division sign. *)
Definition enters_no_sign (ev : event) : Prop :=
  match ev with
  | Click b => In b buttons
  | KeyDown key => lacks [cu_times; cu_divide] key
  end.

(** * Properties *)

(** ** Strings *)

Lemma str_eqb_eq (a b : jsstring) : str_eqb a b = true <-> a = b.
Proof.
  revert b; induction a as [|x a IH]; intros [|y b]; simpl; split;
    try congruence; try reflexivity.
  - intros H. apply andb_true_iff in H as [H1 H2].
    apply N.eqb_eq in H1. apply IH in H2. congruence.
  - intros H. injection H as -> ->. rewrite N.eqb_refl. simpl. now apply IH.
Qed.

Lemma str_eqb_refl (a : jsstring) : str_eqb a a = true.
Proof. now apply str_eqb_eq. Qed.

Lemma includes_In (arr : list jsstring) (val : jsstring) :
  In val arr -> includes arr val = true.
Proof.
  intros H. unfold includes. apply existsb_exists.
  exists val. split; [exact H | apply str_eqb_refl].
Qed.

(** ** The string of a Number never reads [Error] *)

Definition starts_plain (s : jsstring) : Prop :=
  exists c r, s = c :: r /\ c <> 69%N.

Lemma starts_plain_app (s t : jsstring) : starts_plain s -> starts_plain (s ++ t).
Proof. intros (c & r & -> & H). exists c, (r ++ t). now split. Qed.

Lemma starts_plain_not_Error (s : jsstring) :
  starts_plain s -> str_eqb s (lit "Error") = false.
Proof.
  intros (c & r & -> & H). simpl.
  destruct (N.eqb c 69) eqn:Ec; [apply N.eqb_eq in Ec; contradiction | reflexivity].
Qed.

Lemma digits_starts_plain (z : Z) : starts_plain (Number.digits z).
Proof.
  unfold Number.digits.
  destruct (N.to_uint (Z.to_N z)); simpl;
    (eexists; eexists; split; [reflexivity | discriminate]).
Qed.

Lemma firstn_starts_plain (n : nat) (s : jsstring) :
  (0 < n)%nat -> starts_plain s -> starts_plain (firstn n s).
Proof.
  intros Hn (c & r & -> & H). destruct n; [lia |].
  exists c, (firstn n r). now split.
Qed.

Lemma layout_starts_plain (n k s : Z) : starts_plain (Number.layout n k s).
Proof.
  unfold Number.layout.
  pose proof (digits_starts_plain s) as Hd.
  destruct ((0 <? n)%Z && (n <=? 21)%Z) eqn:E1.
  - apply andb_true_iff in E1 as [E1 _]. apply Z.ltb_lt in E1.
    destruct (k <=? n)%Z.
    + now apply starts_plain_app.
    + apply starts_plain_app, firstn_starts_plain; [lia | exact Hd].
  - destruct ((-6 <? n)%Z && (n <=? 0)%Z).
    + exists 48%N. eexists. split; [reflexivity | discriminate].
    + destruct (k =? 1)%Z.
      * now apply starts_plain_app.
      * apply starts_plain_app, firstn_starts_plain; [lia | exact Hd].
Qed.

Lemma toString_starts_plain (x : float) : starts_plain (Number.toString x).
Proof.
  unfold Number.toString.
  destruct (Prim2SF x) as [sg|sg| |sg m e].
  - exists 48%N, []. split; [reflexivity | discriminate].
  - destruct sg; eexists; eexists; (split; [reflexivity | discriminate]).
  - eexists; eexists; (split; [reflexivity | discriminate]).
  - destruct (Number.shortest (Z.pos m) e) as [[n k] s].
    destruct sg.
    + eexists; eexists; (split; [reflexivity | discriminate]).
    + apply layout_starts_plain.
Qed.

Lemma toString_not_Error (x : float) (t : jsstring) :
  str_eqb (Number.toString x ++ t) (lit "Error") = false.
Proof. apply starts_plain_not_Error, starts_plain_app, toString_starts_plain. Qed.

(** ** The matcher on numbers *)

Definition all_digits (ds : jsstring) : Prop :=
  ds <> [] /\ forallb is_digit ds = true.

(** The run of digits [ds] is a decimal literal that the lexer reads as the
    Number [x]. *)
Definition reads_as (ds : jsstring) (x : float) : Prop :=
  all_digits ds /\ Js.number_token ds [] [] = Js.Done (Js.TNum x).

(** What may follow a repetition of [c] for the repetition to end there. *)
Definition stops (c : cset) (rest : jsstring) : Prop :=
  match rest with
  | [] => True
  | x :: _ => cset_mem c x = false
  end.

Lemma plus_loop_greedy (c : cset) (ds rest : jsstring) (caps : captures) (k : cont)
      (res : jsstring * captures) :
  forallb (cset_mem c) ds = true ->
  stops c rest ->
  k rest caps = Some res ->
  plus_loop c (ds ++ rest) caps k = Some res.
Proof.
  intros Hds Hrest Hk. induction ds as [|d ds IH]; simpl in *.
  - destruct rest as [|x rest']; simpl in *; [exact Hk |].
    rewrite Hrest. exact Hk.
  - apply andb_true_iff in Hds as [Hd Hds]. rewrite Hd, (IH Hds). reflexivity.
Qed.

Lemma plus_greedy (c : cset) (ds rest : jsstring) (caps : captures) (k : cont)
      (res : jsstring * captures) :
  ds <> [] ->
  forallb (cset_mem c) ds = true ->
  stops c rest ->
  k rest caps = Some res ->
  rmatch (Plus c) (ds ++ rest) caps k = Some res.
Proof.
  intros Hne Hds Hrest Hk. destruct ds as [|d ds]; [congruence |].
  simpl in *. apply andb_true_iff in Hds as [Hd Hds]. rewrite Hd.
  now apply plus_loop_greedy.
Qed.

Lemma captured_prefix (ds rest : jsstring) :
  firstn (List.length (ds ++ rest) - List.length rest) (ds ++ rest) = ds.
Proof.
  rewrite length_app, Nat.add_sub, firstn_app, Nat.sub_diag, firstn_all. simpl.
  apply app_nil_r.
Qed.

(** A run of digits that is followed by neither a digit nor a point is
    matched whole by the number pattern, and captured. *)
Lemma re_number_matches (n m : nat) (ds rest : jsstring) (caps : captures) (k : cont)
      (res : jsstring * captures) :
  all_digits ds ->
  stops (DigitOr (lit ".")) rest ->
  k rest ((n, ds) :: caps) = Some res ->
  rmatch (re_number n m) (ds ++ rest) caps k = Some res.
Proof.
  intros [Hne Hds] Hrest Hk. unfold re_number.
  cbn [rmatch]. apply plus_greedy; [exact Hne | exact Hds | |].
  - destruct rest as [|x rest']; simpl in *; [exact I |].
    apply orb_false_iff in Hrest as [H _]. exact H.
  - rewrite captured_prefix.
    change (chr ".") with (One (Chr 46)).
    destruct rest as [|x rest']; cbn [rmatch cset_mem]; [exact Hk |].
    simpl in Hrest.
    apply orb_false_iff in Hrest as [_ H]. apply orb_false_iff in H as [H _].
    rewrite N.eqb_sym in H. rewrite H. exact Hk.
Qed.

Lemma replace_from_skip (r : regex) (tmpl : list piece) (s : jsstring) :
  match_here r [] = None ->
  replace_from r tmpl s (List.length s) = [].
Proof.
  intros H. destruct s as [|c s]; simpl; [rewrite H; reflexivity |].
  revert c. induction s as [|c' s IH]; intros c; simpl; [rewrite H; reflexivity |].
  apply (IH c').
Qed.

(** When the pattern matches the whole of [s], the result is the
    replacement. *)
Lemma replace_all_whole (r : regex) (tmpl : list piece) (s : jsstring) (caps : captures) :
  s <> [] ->
  match_here r [] = None ->
  match_here r s = Some ([], caps) ->
  replace_all r tmpl s = expand tmpl caps.
Proof.
  intros Hne Hnil Hs. unfold replace_all.
  destruct s as [|c s]; [congruence |].
  cbn [replace_from]. rewrite Hs. cbn [List.length Nat.sub].
  rewrite (replace_from_skip r tmpl s Hnil). apply app_nil_r.
Qed.

(** The step for powers, on any two runs of digits. *)
Lemma pow_step (a b : jsstring) :
  all_digits a -> all_digits b ->
  replace_all re_pow pow_template (a ++ lit "^" ++ b) =
  lit "Math.pow(" ++ a ++ lit ", " ++ b ++ lit ")".
Proof.
  intros Ha Hb.
  rewrite (@replace_all_whole re_pow pow_template (a ++ lit "^" ++ b) [(3, b); (1, a)]).
  - simpl. reflexivity.
  - destruct Ha as [Ha _]. destruct a; [congruence | discriminate].
  - reflexivity.
  - unfold match_here, re_pow. cbn [rmatch].
    apply re_number_matches; [exact Ha | simpl; reflexivity |].
    cbn [lit list_ascii_of_string map app chr]. cbn [rmatch cset_mem].
    rewrite N.eqb_refl.
    rewrite <- (app_nil_r b) at 1.
    apply re_number_matches; [exact Hb | exact I |].
    reflexivity.
Qed.

Lemma rmatch_seq (r1 r2 : regex) (s : jsstring) (caps : captures) (k : cont) :
  rmatch (Seq r1 r2) s caps k = rmatch r1 s caps (fun s' caps' => rmatch r2 s' caps' k).
Proof. reflexivity. Qed.

Lemma rmatch_chr (c : N) (s : jsstring) (caps : captures) (k : cont) :
  rmatch (One (Chr c)) (c :: s) caps k = k s caps.
Proof. simpl. rewrite N.eqb_refl. reflexivity. Qed.

Lemma group_plus_matches (n : nat) (c : cset) (ds rest : jsstring) (caps : captures)
      (k : cont) (res : jsstring * captures) :
  ds <> [] ->
  forallb (cset_mem c) ds = true ->
  stops c rest ->
  k rest ((n, ds) :: caps) = Some res ->
  rmatch (Group n (Plus c)) (ds ++ rest) caps k = Some res.
Proof.
  intros Hne Hds Hrest Hk.
  change (rmatch (Plus c) (ds ++ rest) caps
            (fun s' caps' =>
               k s' ((n, firstn (List.length (ds ++ rest) - List.length s') (ds ++ rest))
                       :: caps')) = Some res).
  apply plus_greedy; [exact Hne | exact Hds | exact Hrest |].
  rewrite captured_prefix. exact Hk.
Qed.

(** The two steps for square roots: on any run of digits, and on any text
    without a closing parenthesis between parentheses. *)
Lemma sqrt_digits_step (a : jsstring) :
  all_digits a ->
  replace_all re_sqrt_digits sqrt_template (cu_sqrt :: a) = lit "Math.sqrt(" ++ a ++ lit ")".
Proof.
  intros [Hne Ha].
  rewrite (@replace_all_whole re_sqrt_digits sqrt_template (cu_sqrt :: a) [(1, a)]).
  - simpl. reflexivity.
  - discriminate.
  - reflexivity.
  - unfold match_here, re_sqrt_digits. rewrite rmatch_seq, rmatch_chr.
    rewrite <- (app_nil_r a) at 1.
    apply group_plus_matches; [exact Hne | exact Ha | exact I | reflexivity].
Qed.

Lemma sqrt_paren_step (body : jsstring) :
  body <> [] ->
  forallb (cset_mem (NoneOf (lit ")"))) body = true ->
  replace_all re_sqrt_paren sqrt_template (cu_sqrt :: lit "(" ++ body ++ lit ")") =
  lit "Math.sqrt(" ++ body ++ lit ")".
Proof.
  intros Hne Hbody.
  rewrite (@replace_all_whole re_sqrt_paren sqrt_template
             (cu_sqrt :: lit "(" ++ body ++ lit ")") [(1, body)]).
  - simpl. reflexivity.
  - discriminate.
  - reflexivity.
  - unfold match_here, re_sqrt_paren.
    change (chr "(") with (One (Chr 40)).
    change (lit "(" ++ body ++ lit ")") with (40%N :: body ++ lit ")").
    rewrite rmatch_seq, rmatch_chr, rmatch_seq, rmatch_chr, rmatch_seq.
    apply group_plus_matches; [exact Hne | exact Hbody | reflexivity | reflexivity].
Qed.

(** ** handleCalculate, by the outcome of the run *)

Lemma handleCalculate_normal (E : Js.Engine) (st : State) (r : float) :
  calculate E (isRad st) (expression st) = Js.Normal r ->
  handleCalculate E st =
  mkState (Number.toString r) (Number.toString r) (isRad st) (expression st).
Proof. intros H. unfold handleCalculate. rewrite H. reflexivity. Qed.

Lemma handleCalculate_throw (E : Js.Engine) (st : State) (e : Js.error) :
  calculate E (isRad st) (expression st) = Js.Throw e ->
  handleCalculate E st = mkState [] (lit "Error") (isRad st) (history st).
Proof. intros H. unfold handleCalculate. rewrite H. reflexivity. Qed.

Lemma calculate_run_done (E : Js.Engine) (isRad : bool) (s : jsstring) (v : Js.value) :
  Js.run E (normalize isRad s) = Js.Done v ->
  calculate E isRad s = Js.Normal (finalResult (Js.to_number v)).
Proof. intros H. unfold calculate, Js.newFunction_return. rewrite H. reflexivity. Qed.

Lemma calculate_run_throws (E : Js.Engine) (isRad : bool) (s : jsstring) (e : Js.error) :
  Js.run E (normalize isRad s) = Js.Throws e ->
  calculate E isRad s = Js.Throw e.
Proof. intros H. unfold calculate, Js.newFunction_return. rewrite H. reflexivity. Qed.

(** ** handleInput, by the kind of token *)

Lemma handleInput_operator (st : State) (op : jsstring) :
  str_eqb (displayValue st) (lit "Error") = false ->
  In op operators ->
  handleInput op st =
  mkState (expression st ++ op) (expression st ++ op) (isRad st) (history st).
Proof.
  intros Hd Hop. unfold handleInput.
  rewrite Hd, (includes_In _ _ Hop), andb_false_r. reflexivity.
Qed.

Lemma handleInput_replaces (st : State) (val : jsstring) :
  str_eqb (displayValue st) (lit "Error") = false ->
  expression st = displayValue st ->
  includes operators val = false ->
  handleInput val st = mkState val val (isRad st) (history st).
Proof.
  intros Hd Heq Hval. unfold handleInput.
  rewrite Hd, Hval, Heq, str_eqb_refl. reflexivity.
Qed.

(** handleInput always leaves the display equal to the buffer, so the test
    [expression === displayValue] of the next handleInput holds. *)
Lemma handleInput_display (val : jsstring) (st : State) :
  displayValue (handleInput val st) = expression (handleInput val st).
Proof.
  unfold handleInput. destruct (str_eqb (displayValue st) (lit "Error")); [reflexivity |].
  destruct (str_eqb (expression st) (displayValue st) && negb (includes operators val));
    reflexivity.
Qed.

Example first_key : handleInput (lit "4") initialState = entered (lit "4") false [].
Proof. reflexivity. Qed.

Example second_digit_replaces_first :
  expression (handleInput (lit "2") (handleInput (lit "1") initialState)) = lit "2".
Proof. reflexivity. Qed.

(** ** Division by zero *)

(** C1, as the code has it: for the input "5/0" the rewriting changes nothing,
    the run returns the Number +Infinity, and handleCalculate stores it like
    any other result: display and buffer become "Infinity", the history
    "5/0".  The non-finite value is not turned into the error outcome. *)
Theorem division_by_zero_propagates :
  forall (E : Js.Engine) (isRad : bool) (d h : jsstring),
    normalize isRad (lit "5/0") = lit "5/0" /\
    Js.run E (lit "5/0") = Js.Done (Js.VNumber infinity) /\
    calculate E isRad (lit "5/0") = Js.Normal infinity /\
    handleCalculate E (mkState (lit "5/0") d isRad h) =
    mkState (lit "Infinity") (lit "Infinity") isRad (lit "5/0").
Proof.
  intros E isRad d h. destruct isRad; vm_compute; repeat split; reflexivity.
Qed.

(** C1 as stated fails: evaluating "5/0" does not end in the error state; it
    completes normally with the Number +Infinity. *)
Lemma division_by_zero_is_not_an_error :
  ~ error_state (handleCalculate sample_engine (entered (lit "5/0") false [])) /\
  (forall e, calculate sample_engine false (lit "5/0") <> Js.Throw e) /\
  displayValue (handleCalculate sample_engine (entered (lit "5/0") false [])) = lit "Infinity".
Proof.
  split; [| split].
  - intros [H _]. vm_compute in H. discriminate H.
  - intros e H. vm_compute in H. discriminate H.
  - vm_compute. reflexivity.
Qed.

(** ** Logarithms *)

(** C2, at its failing input: "log(100)" is rewritten to "Math.log10(100)" and
    evaluates to the engine's base-10 logarithm of 100; "ln(e)" is rewritten
    to "Math.log(Math.E)" by the step for [log] and then again by the step for
    [log10], which finds "log(" inside it: the text run is
    "Math.Math.log10(Math.E)", the run throws a TypeError, and handleCalculate
    ends in the error state. *)
Theorem ln_is_rewritten_twice :
  forall (E : Js.Engine) (isRad : bool) (d h : jsstring),
    normalize isRad (lit "log(100)") = lit "Math.log10(100)" /\
    calculate E isRad (lit "log(100)") = Js.Normal (finalResult (Js.Math_log10 E 100)) /\
    normalize isRad (lit "ln(e)") = lit "Math.Math.log10(Math.E)" /\
    calculate E isRad (lit "ln(e)") = Js.Throw Js.TypeError /\
    handleCalculate E (mkState (lit "ln(e)") d isRad h) = mkState [] (lit "Error") isRad h.
Proof.
  intros E isRad d h. destruct isRad; vm_compute; repeat split; reflexivity.
Qed.

(** ** Chaining *)

(** C3, at its failing input: after an evaluation with result [R] the buffer
    is the string of [R], and an operator token makes it that string followed
    by the operator; but the next token that is not an operator (a digit)
    replaces the buffer instead of being appended, because handleInput finds
    the buffer equal to the display after every input. *)
Theorem digit_after_operator_replaces_buffer :
  forall (E : Js.Engine) (st : State) (R : float) (op d : jsstring),
    calculate E (isRad st) (expression st) = Js.Normal R ->
    In op operators ->
    includes operators d = false ->
    expression (handleCalculate E st) = Number.toString R /\
    expression (handleInput op (handleCalculate E st)) = Number.toString R ++ op /\
    expression (handleInput d (handleInput op (handleCalculate E st))) = d.
Proof.
  intros E st R op d HR Hop Hd.
  rewrite (handleCalculate_normal _ _ HR).
  pose proof (toString_not_Error R []) as H0. rewrite app_nil_r in H0.
  rewrite handleInput_operator by assumption.
  rewrite handleInput_replaces; simpl; auto using toString_not_Error.
Qed.

(** The keys 4, =, +, 1. *)
Lemma digit_after_operator_replaces_buffer_witness :
  expression (handleCalculate sample_engine (entered (lit "4") false [])) = lit "4" /\
  expression (handleInput (lit "+") (handleCalculate sample_engine (entered (lit "4") false [])))
  = lit "4+" /\
  expression (handleInput (lit "1")
               (handleInput (lit "+") (handleCalculate sample_engine (entered (lit "4") false []))))
  = lit "1".
Proof.
  apply (@digit_after_operator_replaces_buffer sample_engine
           (entered (lit "4") false []) 4%float (lit "+") (lit "1")).
  - vm_compute. reflexivity.
  - simpl. left. reflexivity.
  - vm_compute. reflexivity.
Defined.

(** ** Malformed input *)

(** C4, as the code has it: running "2+" or "((3" raises a SyntaxError, which
    handleCalculate turns into the error state (display "Error", empty
    buffer), under either angle unit and whatever the display and history
    were.  The empty string is no error for the code: [return] without an
    expression yields [undefined], and display and buffer become "NaN". *)
Theorem syntax_errors_give_error_state :
  forall (E : Js.Engine) (isRad : bool) (d h : jsstring),
    calculate E isRad (lit "2+") = Js.Throw Js.SyntaxError /\
    calculate E isRad (lit "((3") = Js.Throw Js.SyntaxError /\
    error_state (handleCalculate E (mkState (lit "2+") d isRad h)) /\
    error_state (handleCalculate E (mkState (lit "((3") d isRad h)) /\
    handleCalculate E (mkState [] d isRad h) = mkState (lit "NaN") (lit "NaN") isRad [].
Proof.
  intros E isRad d h. unfold error_state.
  destruct isRad; vm_compute; repeat split; reflexivity.
Qed.

(** C4 as stated fails at the empty string: the evaluation does not end in
    the error state, the display reads "NaN". *)
Lemma empty_input_is_not_an_error :
  ~ error_state (handleCalculate sample_engine (entered [] false [])) /\
  displayValue (handleCalculate sample_engine (entered [] false [])) = lit "NaN" /\
  expression (handleCalculate sample_engine (entered [] false [])) = lit "NaN".
Proof.
  split; [| split].
  - intros [H _]. vm_compute in H. discriminate H.
  - vm_compute. reflexivity.
  - vm_compute. reflexivity.
Qed.

(** ** The error state *)

(** C5, as the code has it: when the evaluation throws, whatever the
    exception, the display shows "Error" and the buffer is emptied; the
    history and the angle unit are left as they were. *)
Theorem failed_evaluation_keeps_history :
  forall (E : Js.Engine) (st : State) (e : Js.error),
    calculate E (isRad st) (expression st) = Js.Throw e ->
    displayValue (handleCalculate E st) = lit "Error" /\
    expression (handleCalculate E st) = [] /\
    history (handleCalculate E st) = history st /\
    isRad (handleCalculate E st) = isRad st.
Proof.
  intros E st e H. rewrite (handleCalculate_throw _ _ H). simpl.
  repeat split; reflexivity.
Qed.

(** Evaluating "4+" with "4" in the history. *)
Lemma failed_evaluation_keeps_history_witness :
  displayValue (handleCalculate sample_engine (entered (lit "4+") false (lit "4"))) = lit "Error" /\
  expression (handleCalculate sample_engine (entered (lit "4+") false (lit "4"))) = [] /\
  history (handleCalculate sample_engine (entered (lit "4+") false (lit "4"))) = lit "4" /\
  isRad (handleCalculate sample_engine (entered (lit "4+") false (lit "4"))) = false.
Proof.
  apply (@failed_evaluation_keeps_history sample_engine
           (entered (lit "4+") false (lit "4")) Js.SyntaxError).
  vm_compute. reflexivity.
Defined.

(** C5 as stated fails: after "4" was evaluated and "+" appended, evaluating
    "4+" fails and the history still reads "4". *)
Lemma failed_evaluation_history_not_cleared :
  calculate sample_engine false (lit "4+") = Js.Throw Js.SyntaxError /\
  displayValue (handleCalculate sample_engine (entered (lit "4+") false (lit "4"))) = lit "Error" /\
  history (handleCalculate sample_engine (entered (lit "4+") false (lit "4"))) <> [].
Proof.
  split; [| split].
  - vm_compute. reflexivity.
  - vm_compute. reflexivity.
  - intros H. vm_compute in H. discriminate H.
Qed.

(** ** Angle units *)

(** C6: with a sine that returns 1 at the double nearest to pi/2 and
    0.8939966636005579 at 90, "sin(90)" is rewritten to
    "Math.sin((90) * Math.PI / 180)" in Degree mode and evaluates to 1, and to
    "Math.sin(90)" in Radian mode, where it evaluates to the Number that
    prints as 0.893996664: the same input gives different results. *)
Theorem sin_90_by_angle_unit :
  forall (E : Js.Engine) (d h : jsstring),
    Js.Math_sin E 0x1.921fb54442d18p+0 = 1%float ->
    Js.Math_sin E 90 = 0x1.c9b9ee41cb866p-1%float ->
    normalize false (lit "sin(90)") = lit "Math.sin((90) * Math.PI / 180)" /\
    normalize true (lit "sin(90)") = lit "Math.sin(90)" /\
    calculate E false (lit "sin(90)") = Js.Normal 1%float /\
    calculate E true (lit "sin(90)") = Js.Normal 0x1.c9b9ee4539e85p-1%float /\
    displayValue (handleCalculate E (mkState (lit "sin(90)") d false h)) = lit "1" /\
    displayValue (handleCalculate E (mkState (lit "sin(90)") d true h)) = lit "0.893996664".
Proof.
  intros E d h Hdeg Hrad.
  assert (Rdeg : Js.run E (normalize false (lit "sin(90)")) =
                 Js.Done (Js.VNumber (Js.Math_sin E 0x1.921fb54442d18p+0)))
    by (vm_compute; reflexivity).
  assert (Rrad : Js.run E (normalize true (lit "sin(90)")) =
                 Js.Done (Js.VNumber (Js.Math_sin E 90)))
    by (vm_compute; reflexivity).
  assert (Cdeg : calculate E false (lit "sin(90)") = Js.Normal 1%float).
  { rewrite (calculate_run_done _ _ _ Rdeg). simpl Js.to_number. rewrite Hdeg.
    vm_compute. reflexivity. }
  assert (Crad : calculate E true (lit "sin(90)") = Js.Normal 0x1.c9b9ee4539e85p-1%float).
  { rewrite (calculate_run_done _ _ _ Rrad). simpl Js.to_number. rewrite Hrad.
    vm_compute. reflexivity. }
  split; [vm_compute; reflexivity |].
  split; [vm_compute; reflexivity |].
  split; [exact Cdeg |].
  split; [exact Crad |].
  split.
  - rewrite (@handleCalculate_normal E (mkState (lit "sin(90)") d false h) _ Cdeg).
    vm_compute. reflexivity.
  - rewrite (@handleCalculate_normal E (mkState (lit "sin(90)") d true h) _ Crad).
    vm_compute. reflexivity.
Qed.

(** The engine of the examples has the two values of the sine. *)
Lemma sin_90_by_angle_unit_witness :
  normalize false (lit "sin(90)") = lit "Math.sin((90) * Math.PI / 180)" /\
  normalize true (lit "sin(90)") = lit "Math.sin(90)" /\
  calculate sample_engine false (lit "sin(90)") = Js.Normal 1%float /\
  calculate sample_engine true (lit "sin(90)") = Js.Normal 0x1.c9b9ee4539e85p-1%float /\
  displayValue (handleCalculate sample_engine (mkState (lit "sin(90)") (lit "sin(90)") false []))
  = lit "1" /\
  displayValue (handleCalculate sample_engine (mkState (lit "sin(90)") (lit "sin(90)") true []))
  = lit "0.893996664".
Proof.
  apply (@sin_90_by_angle_unit sample_engine (lit "sin(90)") []).
  - vm_compute. reflexivity.
  - vm_compute. reflexivity.
Defined.

(** ** Powers and roots *)

(** C7: "2^10" is rewritten to the call "Math.pow(2, 10)" and, with a [pow]
    that returns 1024 for 2 and 10, evaluates to 1024.  The pattern takes
    decimal numbers only: "1.5^2.5" is rewritten, the parenthesised operand
    of "(2)^10" is not; and the step for powers turns any two runs of digits
    around "^" into the call. *)
Theorem power_of_numbers :
  forall (E : Js.Engine) (isRad : bool) (d h : jsstring),
    Js.Math_pow E 2 10 = 1024%float ->
    normalize isRad (lit "2^10") = lit "Math.pow(2, 10)" /\
    calculate E isRad (lit "2^10") = Js.Normal 1024%float /\
    handleCalculate E (mkState (lit "2^10") d isRad h) =
    mkState (lit "1024") (lit "1024") isRad (lit "2^10") /\
    normalize isRad (lit "1.5^2.5") = lit "Math.pow(1.5, 2.5)" /\
    normalize isRad (lit "(2)^10") = lit "(2)^10" /\
    (forall a b : jsstring,
       all_digits a -> all_digits b ->
       replace_all re_pow pow_template (a ++ lit "^" ++ b) =
       lit "Math.pow(" ++ a ++ lit ", " ++ b ++ lit ")").
Proof.
  intros E isRad d h Hpow.
  assert (R : Js.run E (normalize isRad (lit "2^10")) =
              Js.Done (Js.VNumber (Js.Math_pow E 2 10)))
    by (destruct isRad; vm_compute; reflexivity).
  assert (C : calculate E isRad (lit "2^10") = Js.Normal 1024%float).
  { rewrite (calculate_run_done _ _ _ R). simpl Js.to_number. rewrite Hpow.
    vm_compute. reflexivity. }
  split; [destruct isRad; vm_compute; reflexivity |].
  split; [exact C |].
  split.
  - rewrite (@handleCalculate_normal E (mkState (lit "2^10") d isRad h) _ C).
    vm_compute. reflexivity.
  - split; [destruct isRad; vm_compute; reflexivity |].
    split; [destruct isRad; vm_compute; reflexivity |].
    exact pow_step.
Qed.

(** The engine of the examples has the value of the power. *)
Lemma power_of_numbers_witness :
  normalize false (lit "2^10") = lit "Math.pow(2, 10)" /\
  calculate sample_engine false (lit "2^10") = Js.Normal 1024%float /\
  handleCalculate sample_engine (mkState (lit "2^10") (lit "2^10") false []) =
  mkState (lit "1024") (lit "1024") false (lit "2^10") /\
  normalize false (lit "1.5^2.5") = lit "Math.pow(1.5, 2.5)" /\
  normalize false (lit "(2)^10") = lit "(2)^10" /\
  (forall a b : jsstring,
     all_digits a -> all_digits b ->
     replace_all re_pow pow_template (a ++ lit "^" ++ b) =
     lit "Math.pow(" ++ a ++ lit ", " ++ b ++ lit ")").
Proof.
  apply (@power_of_numbers sample_engine false (lit "2^10") []).
  vm_compute. reflexivity.
Defined.

(** C8: the parenthesised form and the bare-digits form of the square root
    of 16 are both rewritten to "Math.sqrt(16)" and evaluate to 4; the two
    steps for roots rewrite any text without a closing parenthesis between
    parentheses, and any run of digits. *)
Theorem square_root_forms :
  forall (E : Js.Engine) (isRad : bool) (d h : jsstring),
    normalize isRad (cu_sqrt :: lit "(16)") = lit "Math.sqrt(16)" /\
    normalize isRad (cu_sqrt :: lit "16") = lit "Math.sqrt(16)" /\
    calculate E isRad (cu_sqrt :: lit "(16)") = Js.Normal 4%float /\
    calculate E isRad (cu_sqrt :: lit "16") = Js.Normal 4%float /\
    displayValue (handleCalculate E (mkState (cu_sqrt :: lit "(16)") d isRad h)) = lit "4" /\
    displayValue (handleCalculate E (mkState (cu_sqrt :: lit "16") d isRad h)) = lit "4" /\
    (forall body : jsstring,
       body <> [] -> forallb (cset_mem (NoneOf (lit ")"))) body = true ->
       replace_all re_sqrt_paren sqrt_template (cu_sqrt :: lit "(" ++ body ++ lit ")") =
       lit "Math.sqrt(" ++ body ++ lit ")") /\
    (forall a : jsstring,
       all_digits a ->
       replace_all re_sqrt_digits sqrt_template (cu_sqrt :: a) =
       lit "Math.sqrt(" ++ a ++ lit ")").
Proof.
  intros E isRad d h.
  repeat (split; [destruct isRad; vm_compute; reflexivity |]).
  split; [exact sqrt_paren_step | exact sqrt_digits_step].
Qed.

(** ** The display and the buffer *)

(** C10: after handleInput, handleDelete, handleClear and handleCalculate,
    from any state, the display equals the buffer, or the buffer is empty and
    the display reads "0" or "Error". *)
Theorem display_agrees_after_every_operation :
  forall (E : Js.Engine) (st : State) (val : jsstring),
    display_agrees (handleInput val st) /\
    display_agrees (handleDelete st) /\
    display_agrees (handleClear st) /\
    display_agrees (handleCalculate E st).
Proof.
  intros E [ex dv r hi] val. unfold display_agrees.
  split; [| split; [| split]].
  - unfold handleInput; simpl.
    destruct (str_eqb dv (lit "Error")); [left; reflexivity |].
    destruct (str_eqb ex dv && negb (includes operators val)); left; reflexivity.
  - unfold handleDelete, handleClear; simpl.
    destruct (str_eqb dv (lit "Error")).
    + right. split; [reflexivity | left; reflexivity].
    + unfold slice_0_minus1.
      destruct (removelast ex) eqn:Er; simpl.
      * right. split; [reflexivity | left; reflexivity].
      * left. reflexivity.
  - right. split; [reflexivity | left; reflexivity].
  - unfold handleCalculate; simpl.
    destruct (calculate E r ex); simpl.
    + left. reflexivity.
    + right. split; [reflexivity | right; reflexivity].
Qed.

(** * Further properties of the handlers *)

(** ** Tokens and deletion *)

Lemma not_Error_with_operator (e op : jsstring) :
  In op operators -> str_eqb (e ++ op) (lit "Error") = false.
Proof.
  intros Hop. destruct (str_eqb (e ++ op) (lit "Error")) eqn:H; [| reflexivity].
  apply str_eqb_eq in H.
  change (lit "Error") with ([69; 114; 114; 111] ++ [114])%N in H.
  simpl in Hop.
  destruct Hop as [<- | [<- | [<- | [<- | [<- | []]]]]];
    apply app_inj_tail in H; destruct H as [_ H]; discriminate H.
Qed.

Lemma operator_is_one_char (op : jsstring) :
  In op operators -> exists c, op = [c].
Proof.
  simpl. intros [<- | [<- | [<- | [<- | [<- | []]]]]]; eexists; reflexivity.
Qed.

(** DEL after an operator key gives the buffer back: the operator was
    appended as one code unit and [slice(0, -1)] removes it. *)
Theorem delete_undoes_operator :
  forall (st : State) (op : jsstring),
    str_eqb (displayValue st) (lit "Error") = false ->
    In op operators ->
    handleDelete (handleInput op st) =
    mkState (expression st) (or_default (expression st) (lit "0")) (isRad st) (history st).
Proof.
  intros st op Hd Hop.
  rewrite (handleInput_operator _ Hd Hop).
  unfold handleDelete; cbn [displayValue expression isRad history].
  rewrite (not_Error_with_operator _ Hop).
  destruct (operator_is_one_char Hop) as [c ->].
  unfold slice_0_minus1. rewrite removelast_last. reflexivity.
Qed.

Lemma delete_undoes_operator_witness :
  handleDelete (handleInput (lit "+") (entered (lit "4") false [])) =
  mkState (lit "4") (lit "4") false [].
Proof.
  apply (@delete_undoes_operator (entered (lit "4") false []) (lit "+")).
  - reflexivity.
  - simpl. left. reflexivity.
Defined.

Lemma handleDelete_shortens (st : State) :
  List.length (expression (handleDelete st)) = Nat.pred (List.length (expression st)) \/
  expression (handleDelete st) = [].
Proof.
  unfold handleDelete. destruct (str_eqb (displayValue st) (lit "Error")).
  - right. reflexivity.
  - left. cbn [expression setExpression setDisplayValue]. unfold slice_0_minus1.
    destruct (expression st) as [|c e] eqn:He using rev_ind; [reflexivity |].
    rewrite removelast_last, length_app. simpl. lia.
Qed.

Lemma handleDelete_empty_shows_0 (st : State) :
  expression (handleDelete st) = [] -> displayValue (handleDelete st) = lit "0".
Proof.
  unfold handleDelete. destruct (str_eqb (displayValue st) (lit "Error")); [reflexivity |].
  cbn [expression displayValue setExpression setDisplayValue]. intros ->. reflexivity.
Qed.

(** DEL pressed at least as often as the buffer has code units leaves the
    buffer empty and the display at "0", from any state. *)
Theorem delete_until_empty :
  forall (k : nat) (st : State),
    (List.length (expression st) <= k)%nat ->
    (1 <= k)%nat ->
    expression (Nat.iter k handleDelete st) = [] /\
    displayValue (Nat.iter k handleDelete st) = lit "0".
Proof.
  assert (Hexp : forall k st, (List.length (expression st) <= k)%nat ->
                              expression (Nat.iter k handleDelete st) = []).
  { induction k as [|k IH]; intros st Hk.
    - simpl. destruct (expression st); [reflexivity | simpl in Hk; lia].
    - rewrite Nat.iter_succ_r. apply IH.
      destruct (handleDelete_shortens st) as [H | H]; rewrite H; simpl; lia. }
  intros k st Hk H1. split; [now apply Hexp |].
  destruct k as [|k]; [lia |].
  pose proof (Hexp (S k) st Hk) as He. simpl in He |- *.
  now apply handleDelete_empty_shows_0.
Qed.

Lemma delete_until_empty_witness :
  expression (Nat.iter 4 handleDelete (entered (lit "sin(") false [])) = [] /\
  displayValue (Nat.iter 4 handleDelete (entered (lit "sin(") false [])) = lit "0".
Proof.
  apply (@delete_until_empty 4 (entered (lit "sin(") false [])); simpl; lia.
Defined.

(** Of two tokens in a row the second replaces the whole buffer unless it is
    an operator: handleInput has left the display equal to the buffer, which
    is its test for a result being shown. *)
Theorem second_token_replaces_buffer :
  forall (st : State) (a b : jsstring),
    str_eqb (displayValue (handleInput a st)) (lit "Error") = false ->
    includes operators b = false ->
    handleInput b (handleInput a st) = mkState b b (isRad st) (history st).
Proof.
  intros st a b Ha Hb.
  rewrite handleInput_replaces; [| exact Ha | symmetry; apply handleInput_display | exact Hb].
  f_equal.
  - unfold handleInput. destruct (str_eqb (displayValue st) (lit "Error")); [reflexivity |].
    destruct (str_eqb (expression st) (displayValue st) && negb (includes operators a));
      reflexivity.
  - unfold handleInput. destruct (str_eqb (displayValue st) (lit "Error")); [reflexivity |].
    destruct (str_eqb (expression st) (displayValue st) && negb (includes operators a));
      reflexivity.
Qed.

Lemma second_token_replaces_buffer_witness :
  handleInput (lit "0") (handleInput (lit "sin(") (entered (lit "4+") false (lit "4"))) =
  mkState (lit "0") (lit "0") false (lit "4").
Proof.
  apply (@second_token_replaces_buffer (entered (lit "4+") false (lit "4"))
           (lit "sin(") (lit "0")); reflexivity.
Defined.

(** Operator keys are appended one after the other, whatever the buffer
    holds: nothing checks that an operand stands between them. *)
Theorem operators_are_appended :
  forall (ops : list jsstring) (st : State),
    str_eqb (displayValue st) (lit "Error") = false ->
    Forall (fun op => In op operators) ops ->
    expression (fold_left (fun s op => handleInput op s) ops st) = expression st ++ List.concat ops /\
    (ops <> [] ->
     displayValue (fold_left (fun s op => handleInput op s) ops st) = expression st ++ List.concat ops).
Proof.
  induction ops as [|op ops IH]; intros st Hd Hops.
  - simpl. rewrite app_nil_r. split; [reflexivity | congruence].
  - inversion Hops as [|? ? Hop Hrest]; subst.
    cbn [fold_left List.concat].
    assert (Hd' : str_eqb (displayValue (handleInput op st)) (lit "Error") = false).
    { rewrite (handleInput_operator _ Hd Hop). simpl. now apply not_Error_with_operator. }
    destruct (IH (handleInput op st) Hd' Hrest) as [He Hdv].
    assert (Hx : expression (handleInput op st) = expression st ++ op)
      by (rewrite (handleInput_operator _ Hd Hop); reflexivity).
    assert (Hy : displayValue (handleInput op st) = expression st ++ op)
      by (rewrite (handleInput_operator _ Hd Hop); reflexivity).
    rewrite Hx in He, Hdv. rewrite <- app_assoc in He, Hdv.
    split; [exact He |]. intros _.
    destruct ops as [|op' ops'].
    + simpl. rewrite app_nil_r. exact Hy.
    + apply Hdv. discriminate.
Qed.

Lemma operators_are_appended_witness :
  expression (fold_left (fun s op => handleInput op s) [lit "+"; lit "*"; lit "/"]
                        (entered (lit "4") false [])) = lit "4" ++ List.concat [lit "+"; lit "*"; lit "/"] /\
  ([lit "+"; lit "*"; lit "/"] <> [] ->
   displayValue (fold_left (fun s op => handleInput op s) [lit "+"; lit "*"; lit "/"]
                           (entered (lit "4") false [])) =
   lit "4" ++ List.concat [lit "+"; lit "*"; lit "/"]).
Proof.
  apply (@operators_are_appended [lit "+"; lit "*"; lit "/"] (entered (lit "4") false [])).
  - reflexivity.
  - repeat constructor; simpl; tauto.
Defined.

(** ** After an evaluation *)

(** After a failed evaluation any token, an operator too, starts the buffer
    afresh, and DEL clears buffer, display and history. *)
Theorem recovery_from_error :
  forall (E : Js.Engine) (st : State) (e : Js.error) (val : jsstring),
    calculate E (isRad st) (expression st) = Js.Throw e ->
    handleInput val (handleCalculate E st) = mkState val val (isRad st) (history st) /\
    handleDelete (handleCalculate E st) = mkState [] (lit "0") (isRad st) [].
Proof.
  intros E st e val H. rewrite (handleCalculate_throw _ _ H). split; reflexivity.
Qed.

Lemma recovery_from_error_witness :
  handleInput (lit "+") (handleCalculate sample_engine (entered (lit "4+") false (lit "4"))) =
  mkState (lit "+") (lit "+") false (lit "4") /\
  handleDelete (handleCalculate sample_engine (entered (lit "4+") false (lit "4"))) =
  mkState [] (lit "0") false [].
Proof.
  apply (@recovery_from_error sample_engine (entered (lit "4+") false (lit "4"))
           Js.SyntaxError (lit "+")).
  vm_compute. reflexivity.
Defined.

(** The string of a result is never the marker "Error": after a successful
    evaluation DEL removes the last code unit of the result and keeps the
    history. *)
Theorem result_is_not_the_error_marker :
  forall (E : Js.Engine) (st : State) (R : float),
    calculate E (isRad st) (expression st) = Js.Normal R ->
    displayValue (handleCalculate E st) <> lit "Error" /\
    handleDelete (handleCalculate E st) =
    mkState (removelast (Number.toString R))
            (or_default (removelast (Number.toString R)) (lit "0"))
            (isRad st) (expression st).
Proof.
  intros E st R H. rewrite (handleCalculate_normal _ _ H).
  pose proof (toString_not_Error R []) as H0. rewrite app_nil_r in H0.
  split.
  - simpl. intros Heq. apply str_eqb_eq in Heq. congruence.
  - unfold handleDelete. cbn [displayValue expression]. rewrite H0. reflexivity.
Qed.

Lemma result_is_not_the_error_marker_witness :
  displayValue (handleCalculate sample_engine (entered (lit "2^10") false [])) <> lit "Error" /\
  handleDelete (handleCalculate sample_engine (entered (lit "2^10") false [])) =
  mkState (removelast (Number.toString 1024)) (or_default (removelast (Number.toString 1024)) (lit "0"))
          false (lit "2^10").
Proof.
  apply (@result_is_not_the_error_marker sample_engine (entered (lit "2^10") false []) 1024%float).
  vm_compute. reflexivity.
Defined.

(** * Further properties of the rewriting *)

(** ** Replacing one character *)

Lemma flat_map_flat_map (A B C : Type) (f : A -> list B) (g : B -> list C) (l : list A) :
  flat_map g (flat_map f l) = flat_map (fun x => flat_map g (f x)) l.
Proof.
  induction l as [|x l IH]; simpl; [reflexivity |].
  rewrite flat_map_app, IH. reflexivity.
Qed.

Lemma forallb_flat_map (A B : Type) (p : B -> bool) (f : A -> list B) (l : list A) :
  (forall x, forallb p (f x) = true) -> forallb p (flat_map f l) = true.
Proof.
  intros H. induction l as [|x l IH]; simpl; [reflexivity |].
  rewrite forallb_app, H, IH. reflexivity.
Qed.

(** [s.replace(/c/g, t)] for a character [c] rewrites every occurrence of
    [c], wherever it stands. *)
Lemma replace_char (c : N) (t s : jsstring) :
  replace_all (One (Chr c)) [Text t] s =
  flat_map (fun x => if N.eqb c x then t else [x]) s.
Proof.
  unfold replace_all. induction s as [|x s IH]; [reflexivity |].
  cbn [replace_from flat_map]. unfold match_here. cbn [rmatch cset_mem].
  destruct (N.eqb c x).
  - replace (List.length (x :: s) - List.length s)%nat with 1%nat
      by (cbn [List.length]; lia).
    rewrite IH. simpl. rewrite app_nil_r. reflexivity.
  - rewrite IH. reflexivity.
Qed.

Lemma symbol_text_cases (x : N) :
  flat_map (fun x3 => if N.eqb 101 x3 then lit "Math.E" else [x3])
    (flat_map (fun x2 => if N.eqb cu_pi x2 then lit "Math.PI" else [x2])
       (flat_map (fun x1 => if N.eqb cu_divide x1 then lit "/" else [x1])
          (if N.eqb cu_times x then lit "*" else [x]))) = symbol_text x.
Proof.
  unfold symbol_text.
  destruct (N.eqb_spec x cu_times) as [-> | H1]; [reflexivity |].
  destruct (N.eqb_spec x cu_divide) as [-> | H2]; [reflexivity |].
  destruct (N.eqb_spec x cu_pi) as [-> | H3]; [reflexivity |].
  destruct (N.eqb_spec x 101) as [-> | H4]; [reflexivity |].
  apply not_eq_sym, N.eqb_neq in H1, H2, H3, H4.
  rewrite H1. cbn [flat_map app]. rewrite H2. cbn [flat_map app]. rewrite H3.
  cbn [flat_map app]. rewrite H4. reflexivity.
Qed.

Lemma symbols_flat_map :
  forall s : jsstring,
    replace_all (chr "e") [Text (lit "Math.E")]
      (replace_all (One (Chr cu_pi)) [Text (lit "Math.PI")]
         (replace_all (One (Chr cu_divide)) [Text (lit "/")]
            (replace_all (One (Chr cu_times)) [Text (lit "*")] s))) =
    flat_map symbol_text s.
Proof.
  intros s. change (chr "e") with (One (Chr 101)).
  rewrite !replace_char, !flat_map_flat_map.
  apply flat_map_ext. intros x.
  rewrite <- (symbol_text_cases x). rewrite !flat_map_flat_map.
  destruct (N.eqb cu_times x); simpl; rewrite ?app_nil_r; reflexivity.
Qed.

(** ** What the replacements keep *)

Section Keeps.

Variable p : N -> bool.

(** Every captured text satisfies [p]. *)
Definition captures_keep (caps : captures) : bool :=
  forallb (fun q => forallb p (snd q)) caps.

(** Every literal text of the replacement satisfies [p]. *)
Definition template_keeps (tmpl : list piece) : bool :=
  forallb (fun q => match q with Text t => forallb p t | Ref _ => true end) tmpl.

Definition cont_keeps (k : cont) : Prop :=
  forall s caps res,
    forallb p s = true -> captures_keep caps = true -> k s caps = Some res ->
    forallb p (fst res) = true /\ captures_keep (snd res) = true.

Lemma forallb_firstn (n : nat) (s : jsstring) :
  forallb p s = true -> forallb p (firstn n s) = true.
Proof.
  revert n. induction s as [|x s IH]; intros [|n] H; simpl in *; try reflexivity.
  apply andb_true_iff in H as [Hx Hs]. rewrite Hx, (IH n Hs). reflexivity.
Qed.

Lemma plus_loop_keeps (c : cset) (s : jsstring) (caps : captures) (k : cont)
      (res : jsstring * captures) :
  cont_keeps k ->
  forallb p s = true -> captures_keep caps = true ->
  plus_loop c s caps k = Some res ->
  forallb p (fst res) = true /\ captures_keep (snd res) = true.
Proof.
  intros Hk. induction s as [|x s IH]; intros Hs Hc H; simpl in H.
  - exact (Hk _ _ _ Hs Hc H).
  - pose proof Hs as Hs'. simpl in Hs'. apply andb_true_iff in Hs' as [_ Hs'].
    destruct (cset_mem c x).
    + destruct (plus_loop c s caps k) eqn:Hl.
      * injection H as <-. exact (IH Hs' Hc eq_refl).
      * exact (Hk _ _ _ Hs Hc H).
    + exact (Hk _ _ _ Hs Hc H).
Qed.

Lemma rmatch_keeps (r : regex) :
  forall (s : jsstring) (caps : captures) (k : cont) (res : jsstring * captures),
    cont_keeps k ->
    forallb p s = true -> captures_keep caps = true ->
    rmatch r s caps k = Some res ->
    forallb p (fst res) = true /\ captures_keep (snd res) = true.
Proof.
  induction r as [c | c | r1 IH1 r2 IH2 | r1 IH1 r2 IH2 | r IH | n r IH];
    intros s caps k res Hk Hs Hc H; cbn [rmatch] in H.
  - destruct s as [|x s]; [discriminate |].
    simpl in Hs. apply andb_true_iff in Hs as [_ Hs].
    destruct (cset_mem c x); [| discriminate]. exact (Hk _ _ _ Hs Hc H).
  - destruct s as [|x s]; [discriminate |].
    simpl in Hs. apply andb_true_iff in Hs as [_ Hs].
    destruct (cset_mem c x); [| discriminate].
    exact (plus_loop_keeps _ _ _ Hk Hs Hc H).
  - refine (IH1 _ _ _ _ _ Hs Hc H).
    intros s' caps' res' Hs' Hc' H'. exact (IH2 _ _ _ _ Hk Hs' Hc' H').
  - destruct (rmatch r1 s caps k) eqn:H1.
    + injection H as <-. exact (IH1 _ _ _ _ Hk Hs Hc H1).
    + exact (IH2 _ _ _ _ Hk Hs Hc H).
  - destruct (rmatch r s caps k) eqn:H1.
    + injection H as <-. exact (IH _ _ _ _ Hk Hs Hc H1).
    + exact (Hk _ _ _ Hs Hc H).
  - refine (IH _ _ _ _ _ Hs Hc H).
    intros s' caps' res' Hs' Hc' H'. refine (Hk _ _ _ Hs' _ H').
    simpl. rewrite Hc', (forallb_firstn _ _ Hs). reflexivity.
Qed.

Lemma match_here_keeps (r : regex) (s rest : jsstring) (caps : captures) :
  forallb p s = true ->
  match_here r s = Some (rest, caps) ->
  captures_keep caps = true.
Proof.
  intros Hs H. unfold match_here in H.
  refine (proj2 (@rmatch_keeps r s [] _ _ _ Hs eq_refl H)).
  intros s' caps' res' Hs' Hc' H'. injection H' as <-. simpl. now split.
Qed.

Lemma capture_keeps (n : nat) (caps : captures) :
  captures_keep caps = true -> forallb p (capture n caps) = true.
Proof.
  induction caps as [|[m t] caps IH]; intros H; simpl in *; [reflexivity |].
  apply andb_true_iff in H as [Ht Hc].
  destruct (Nat.eqb m n); [exact Ht | exact (IH Hc)].
Qed.

Lemma expand_keeps (tmpl : list piece) (caps : captures) :
  template_keeps tmpl = true -> captures_keep caps = true ->
  forallb p (expand tmpl caps) = true.
Proof.
  intros Ht Hc. unfold expand.
  induction tmpl as [|q tmpl IH]; simpl in *; [reflexivity |].
  apply andb_true_iff in Ht as [Hq Ht]. rewrite forallb_app, (IH Ht), andb_true_r.
  destruct q as [t | n]; [exact Hq | now apply capture_keeps].
Qed.

Lemma replace_from_keeps (r : regex) (tmpl : list piece) (s : jsstring) :
  template_keeps tmpl = true ->
  forallb p s = true ->
  forall skip, forallb p (replace_from r tmpl s skip) = true.
Proof.
  intros Ht. induction s as [|x s IH]; intros Hs skip.
  - simpl. destruct skip; [| reflexivity].
    destruct (match_here r []) as [[rest caps] |] eqn:Hm; [| reflexivity].
    apply expand_keeps; [exact Ht | exact (@match_here_keeps r [] rest caps eq_refl Hm)].
  - pose proof Hs as Hs'. simpl in Hs'. apply andb_true_iff in Hs' as [Hx Hs'].
    cbn [replace_from]. destruct skip as [|n]; [| exact (IH Hs' n)].
    destruct (match_here r (x :: s)) as [[rest caps] |] eqn:Hm.
    + rewrite forallb_app, (@expand_keeps _ _ Ht (@match_here_keeps r (x :: s) rest caps Hs Hm)).
      destruct (List.length (x :: s) - List.length rest)%nat; simpl;
        rewrite ?Hx, (IH Hs'); reflexivity.
    + simpl. rewrite Hx, (IH Hs' 0%nat). reflexivity.
Qed.

(** A replacement whose literal texts satisfy [p] keeps a text that
    satisfies [p]: what it inserts is its literal texts and pieces of the
    text itself. *)
Lemma replace_all_keeps (r : regex) (tmpl : list piece) (s : jsstring) :
  template_keeps tmpl = true ->
  forallb p s = true ->
  forallb p (replace_all r tmpl s) = true.
Proof. intros Ht Hs. now apply replace_from_keeps. Qed.

Lemma rewriteFunc_keeps (isRad : bool) (s func : jsstring) :
  forallb p (lit "Math.log10() * PI / 180 abs sin cos tan") = true ->
  In func mathFuncs ->
  forallb p s = true ->
  forallb p (rewriteFunc isRad s func) = true.
Proof.
  intros Hp Hf Hs. simpl in Hp.
  repeat (apply andb_true_iff in Hp as [? Hp]).
  simpl in Hf.
  destruct Hf as [<- | [<- | [<- | [<- | [<- | [<- | []]]]]]];
    destruct isRad; cbv [rewriteFunc str_eqb lit list_ascii_of_string map N_of_ascii
                         N.eqb Pos.eqb andb includes existsb orb negb];
    apply replace_all_keeps; try exact Hs; simpl;
    repeat match goal with H : p _ = true |- _ => rewrite H; clear H end; reflexivity.
Qed.

End Keeps.

(** ** The symbols *)

(** Line 93 is a character-by-character substitution: every code unit for
    times, divide, pi and the letter e is rewritten, whatever surrounds it
    (an e inside any word too), and every other code unit is kept. *)
Theorem symbols_are_replaced_blindly :
  forall s : jsstring,
    replace_all (chr "e") [Text (lit "Math.E")]
      (replace_all (One (Chr cu_pi)) [Text (lit "Math.PI")]
         (replace_all (One (Chr cu_divide)) [Text (lit "/")]
            (replace_all (One (Chr cu_times)) [Text (lit "*")] s))) =
    flat_map symbol_text s.
Proof. exact symbols_flat_map. Qed.

Lemma normalize_split (isRad : bool) (s : jsstring) :
  normalize isRad s = fold_left (rewriteFunc isRad) mathFuncs (before_functions s).
Proof. reflexivity. Qed.

Lemma before_functions_keeps (p : N -> bool) (s : jsstring) :
  forallb p (lit "Math.pow(, )sqrt") = true ->
  forallb p (flat_map symbol_text s) = true ->
  forallb p (before_functions s) = true.
Proof.
  intros Hp Hs. unfold before_functions. rewrite symbols_flat_map.
  simpl in Hp. repeat (apply andb_true_iff in Hp as [? Hp]).
  repeat apply replace_all_keeps; try exact Hs; simpl;
    repeat match goal with H : p _ = true |- _ => rewrite H; clear H end; reflexivity.
Qed.

Lemma functions_keep (p : N -> bool) (isRad : bool) (funcs : list jsstring) :
  forallb p (lit "Math.log10() * PI / 180 abs sin cos tan") = true ->
  incl funcs mathFuncs ->
  forall s, forallb p s = true -> forallb p (fold_left (rewriteFunc isRad) funcs s) = true.
Proof.
  intros Hp. induction funcs as [|f funcs IH]; intros Hin s Hs; [exact Hs |].
  cbn [fold_left]. apply IH.
  - intros x Hx. apply Hin. now right.
  - apply rewriteFunc_keeps; [exact Hp | apply Hin; now left | exact Hs].
Qed.

Lemma symbol_text_clean (x : N) :
  forallb (fun c => negb (is_symbol c)) (symbol_text x) = true.
Proof.
  unfold symbol_text.
  destruct (N.eqb_spec x cu_times); [reflexivity |].
  destruct (N.eqb_spec x cu_divide); [reflexivity |].
  destruct (N.eqb_spec x cu_pi); [reflexivity |].
  destruct (N.eqb_spec x 101); [reflexivity |].
  unfold is_symbol. simpl.
  repeat match goal with H : x <> _ |- _ => apply N.eqb_neq in H; rewrite H; clear H end.
  reflexivity.
Qed.

(** The text handed to [new Function] never holds the display symbols for
    times, divide and pi, nor the letter e, whatever the buffer and the
    angle unit. *)
Theorem run_text_has_no_symbols :
  forall (isRad : bool) (s : jsstring),
    forallb (fun c => negb (is_symbol c)) (normalize isRad s) = true.
Proof.
  intros isRad s. rewrite normalize_split.
  apply functions_keep; [reflexivity | apply incl_refl |].
  apply before_functions_keeps; [reflexivity |].
  apply forallb_flat_map, symbol_text_clean.
Qed.

(** ** Patterns that cannot match *)

Lemma re_lit_needs_prefix (f : jsstring) (r : regex) :
  forall (s : jsstring) (caps : captures) (k : cont) (res : jsstring * captures),
    rmatch (re_lit f r) s caps k = Some res -> exists t, s = f ++ t.
Proof.
  induction f as [|c f IH]; intros s caps k res H.
  - exists s. reflexivity.
  - cbn [re_lit rmatch cset_mem] in H.
    destruct s as [|x s]; [discriminate |].
    destruct (N.eqb_spec c x) as [-> | _]; [| discriminate].
    destruct (IH _ _ _ _ H) as [t ->]. exists t. reflexivity.
Qed.

Lemma absent_no_match (f : jsstring) (r : regex) (x : N) (s : jsstring) :
  In x f ->
  forallb (fun c => negb (N.eqb x c)) s = true ->
  match_here (re_lit f r) s = None.
Proof.
  intros Hx Hs. destruct (match_here (re_lit f r) s) as [res |] eqn:H; [| reflexivity].
  apply re_lit_needs_prefix in H as [t ->].
  rewrite forallb_app in Hs. apply andb_true_iff in Hs as [Hs _].
  rewrite forallb_forall in Hs. specialize (Hs x Hx).
  rewrite N.eqb_refl in Hs. discriminate Hs.
Qed.

(** A pattern that starts with a literal word is the identity on a text
    that lacks a character of the word. *)
Lemma replace_all_absent (f : jsstring) (r : regex) (tmpl : list piece) (x : N) (s : jsstring) :
  In x f ->
  forallb (fun c => negb (N.eqb x c)) s = true ->
  replace_all (re_lit f r) tmpl s = s.
Proof.
  intros Hx. unfold replace_all. induction s as [|c s IH]; intros Hs.
  - simpl. rewrite (absent_no_match f r x [] Hx eq_refl). reflexivity.
  - cbn [replace_from]. rewrite (absent_no_match f r x (c :: s) Hx Hs).
    simpl in Hs. apply andb_true_iff in Hs as [_ Hs]. rewrite (IH Hs). reflexivity.
Qed.

Lemma forallb_weaken (p q : N -> bool) (s : jsstring) :
  (forall c, p c = true -> q c = true) -> forallb p s = true -> forallb q s = true.
Proof.
  intros H Hs. rewrite forallb_forall in *. intros c Hc. apply H, Hs, Hc.
Qed.

Lemma no_trig_letter_absent (x : N) (s : jsstring) :
  In x (lit "icn") ->
  forallb no_trig_letter s = true ->
  forallb (fun c => negb (N.eqb x c)) s = true.
Proof.
  intros Hx. apply forallb_weaken. intros c Hc.
  unfold no_trig_letter in Hc. apply negb_true_iff in Hc.
  apply negb_true_iff. destruct (N.eqb_spec x c) as [-> | _]; [| reflexivity].
  rewrite <- Hc. symmetry. apply existsb_exists. exists c. split; [exact Hx | apply N.eqb_refl].
Qed.

Lemma rewriteFunc_trig (isRad : bool) (func s : jsstring) :
  In func [lit "sin"; lit "cos"; lit "tan"] ->
  rewriteFunc isRad s func =
  if isRad then replace_all (re_call func) [Text (lit "Math." ++ func ++ lit "(")] s
  else replace_all (re_call_deg func)
         [Text (lit "Math." ++ func ++ lit "(("); Ref 1; Text (lit ") * Math.PI / 180)")] s.
Proof.
  simpl. intros [<- | [<- | [<- | []]]]; destruct isRad; reflexivity.
Qed.

Lemma trig_step_absent (isRad : bool) (func : jsstring) (x : N) (s : jsstring) :
  In func [lit "sin"; lit "cos"; lit "tan"] ->
  In x func ->
  forallb (fun c => negb (N.eqb x c)) s = true ->
  rewriteFunc isRad s func = s.
Proof.
  intros Hf Hx Hs. rewrite (rewriteFunc_trig isRad s Hf).
  destruct isRad; unfold re_call, re_call_deg; exact (@replace_all_absent _ _ _ _ _ Hx Hs).
Qed.

(** ** The angle unit and the trigonometric names *)

Lemma forallb_flat_map_in (p : N -> bool) (f : N -> jsstring) (s : jsstring) :
  (forall x, p x = true -> forallb p (f x) = true) ->
  forallb p s = true -> forallb p (flat_map f s) = true.
Proof.
  intros H. induction s as [|x s IH]; intros Hs; simpl in *; [reflexivity |].
  apply andb_true_iff in Hs as [Hx Hs].
  rewrite forallb_app, (H x Hx), (IH Hs). reflexivity.
Qed.

Lemma symbol_text_no_trig_letter (x : N) :
  no_trig_letter x = true -> forallb no_trig_letter (symbol_text x) = true.
Proof.
  intros Hx. unfold symbol_text.
  destruct (N.eqb x cu_times); [reflexivity |].
  destruct (N.eqb x cu_divide); [reflexivity |].
  destruct (N.eqb x cu_pi); [reflexivity |].
  destruct (N.eqb x 101); [reflexivity |].
  simpl. rewrite Hx. reflexivity.
Qed.

(** For a buffer without the letters i, c and n, so without the names sin,
    cos and tan, the text that is run, and with it the whole outcome of
    handleCalculate, is the same in Degree and in Radian mode. *)
Theorem angle_unit_matters_for_trig_only :
  forall (E : Js.Engine) (s d h : jsstring),
    forallb no_trig_letter s = true ->
    normalize true s = normalize false s /\
    calculate E true s = calculate E false s /\
    handleCalculate E (mkState s d true h) = setIsRad true (handleCalculate E (mkState s d false h)).
Proof.
  intros E s d h Hs.
  assert (Ht : forallb no_trig_letter (before_functions s) = true).
  { apply before_functions_keeps; [reflexivity |].
    now apply forallb_flat_map_in; [apply symbol_text_no_trig_letter |]. }
  assert (Hn : normalize true s = normalize false s).
  { rewrite !normalize_split. unfold mathFuncs. cbn [fold_left].
    set (t := before_functions s) in *.
    assert (Hi : forall r, rewriteFunc r t (lit "sin") = t).
    { intros r. apply (@trig_step_absent r (lit "sin") 105%N t);
        [simpl; auto | simpl; auto |].
      apply no_trig_letter_absent; [simpl; auto | exact Ht]. }
    assert (Hc : forall r, rewriteFunc r t (lit "cos") = t).
    { intros r. apply (@trig_step_absent r (lit "cos") 99%N t);
        [simpl; auto | simpl; auto |].
      apply no_trig_letter_absent; [simpl; auto | exact Ht]. }
    assert (Hn : forall r, rewriteFunc r t (lit "tan") = t).
    { intros r. apply (@trig_step_absent r (lit "tan") 110%N t);
        [simpl; auto | simpl; auto |].
      apply no_trig_letter_absent; [simpl; auto | exact Ht]. }
    rewrite !Hi, !Hc, !Hn. reflexivity. }
  assert (Hc : calculate E true s = calculate E false s)
    by (unfold calculate; rewrite Hn; reflexivity).
  split; [exact Hn |]. split; [exact Hc |].
  unfold handleCalculate. cbn [isRad expression]. rewrite Hc.
  destruct (calculate E false s); reflexivity.
Qed.

Lemma angle_unit_matters_for_trig_only_witness :
  normalize true (lit "log(100)+2^3") = normalize false (lit "log(100)+2^3") /\
  calculate sample_engine true (lit "log(100)+2^3") =
  calculate sample_engine false (lit "log(100)+2^3") /\
  handleCalculate sample_engine (mkState (lit "log(100)+2^3") (lit "0") true []) =
  setIsRad true (handleCalculate sample_engine (mkState (lit "log(100)+2^3") (lit "0") false [])).
Proof.
  apply (@angle_unit_matters_for_trig_only sample_engine (lit "log(100)+2^3") (lit "0") []).
  reflexivity.
Defined.

(** ** Matches at the start of the text *)

Lemma re_lit_matches (f : jsstring) (r : regex) (t : jsstring) (caps : captures) (k : cont) :
  rmatch (re_lit f r) (f ++ t) caps k = rmatch r t caps k.
Proof.
  induction f as [|c f IH]; [reflexivity |].
  cbn [re_lit app]. rewrite rmatch_seq, rmatch_chr. exact IH.
Qed.

Lemma re_lit_nil_none (f : jsstring) (r : regex) :
  f <> [] -> match_here (re_lit f r) [] = None.
Proof.
  intros Hf. destruct (match_here (re_lit f r) []) eqn:H; [| reflexivity].
  apply re_lit_needs_prefix in H as [t H].
  destruct f; [congruence | discriminate H].
Qed.

Lemma replace_from_skip_app (r : regex) (tmpl : list piece) (a s : jsstring) :
  replace_from r tmpl (a ++ s) (List.length a) = replace_from r tmpl s 0.
Proof. induction a as [|c a IH]; [reflexivity | exact IH]. Qed.

(** When the pattern matches the prefix [a] of the text, the prefix is
    replaced and the search goes on behind it. *)
Lemma replace_all_match_prefix (r : regex) (tmpl : list piece) (a s : jsstring)
      (caps : captures) :
  a <> [] ->
  match_here r (a ++ s) = Some (s, caps) ->
  replace_all r tmpl (a ++ s) = expand tmpl caps ++ replace_all r tmpl s.
Proof.
  intros Ha H. unfold replace_all. destruct a as [|c a]; [congruence |].
  cbn [app replace_from]. cbn [app] in H. rewrite H.
  replace (List.length (c :: a ++ s) - List.length s)%nat with (S (List.length a))
    by (cbn [List.length]; rewrite length_app; lia).
  rewrite replace_from_skip_app. reflexivity.
Qed.

(** When no match starts inside the prefix [a], the prefix is kept and the
    search goes on behind it. *)
Lemma replace_all_prefix_none (r : regex) (tmpl : list piece) (a s : jsstring) :
  no_match_in r a s ->
  replace_all r tmpl (a ++ s) = a ++ replace_all r tmpl s.
Proof.
  unfold replace_all. induction a as [|c a IH]; intros H; [reflexivity |].
  destruct H as [H1 H2]. cbn [app replace_from]. cbn [app] in H1. rewrite H1.
  rewrite (IH H2). reflexivity.
Qed.

Lemma group_alt_plus_matches (n : nat) (c : cset) (r : regex) (ds rest : jsstring)
      (caps : captures) (k : cont) (res : jsstring * captures) :
  ds <> [] ->
  forallb (cset_mem c) ds = true ->
  stops c rest ->
  k rest ((n, ds) :: caps) = Some res ->
  rmatch (Group n (Alt (Plus c) r)) (ds ++ rest) caps k = Some res.
Proof.
  intros Hne Hds Hrest Hk.
  change (match rmatch (Group n (Plus c)) (ds ++ rest) caps k with
          | Some x => Some x
          | None =>
              rmatch r (ds ++ rest) caps
                (fun s' caps' =>
                   k s' ((n, firstn (List.length (ds ++ rest) - List.length s') (ds ++ rest))
                           :: caps'))
          end = Some res).
  rewrite (@group_plus_matches n c ds rest caps k res Hne Hds Hrest Hk). reflexivity.
Qed.

(** ** Function calls *)

Lemma digits_or_point_absent (x : N) (arg : jsstring) :
  cset_mem (DigitOr (lit ".")) x = false ->
  forallb (cset_mem (DigitOr (lit "."))) arg = true ->
  forallb (fun c => negb (N.eqb x c)) arg = true.
Proof.
  intros Hx. apply forallb_weaken. intros c Hc.
  destruct (N.eqb_spec x c) as [-> | _]; [congruence | reflexivity].
Qed.

Lemma trig_call_step :
  forall (func arg : jsstring),
    In func [lit "sin"; lit "cos"; lit "tan"] ->
    arg <> [] ->
    forallb (cset_mem (DigitOr (lit "."))) arg = true ->
    rewriteFunc false (func ++ lit "(" ++ arg ++ lit ")") func =
    lit "Math." ++ func ++ lit "((" ++ arg ++ lit ") * Math.PI / 180)" /\
    rewriteFunc true (func ++ lit "(" ++ arg ++ lit ")") func =
    lit "Math." ++ func ++ lit "(" ++ arg ++ lit ")".
Proof.
  intros func arg Hf Hne Harg.
  assert (Hfne : func <> []) by (simpl in Hf; intuition (subst; discriminate)).
  rewrite !(rewriteFunc_trig _ _ Hf). split.
  - rewrite (@replace_all_whole (re_call_deg func) _ (func ++ lit "(" ++ arg ++ lit ")")
               [(1%nat, arg)]).
    + unfold expand. cbn [flat_map capture Nat.eqb].
      rewrite app_nil_r, <- !app_assoc. reflexivity.
    + destruct func; [congruence | discriminate].
    + now apply re_lit_nil_none.
    + unfold match_here, re_call_deg. rewrite re_lit_matches.
      change (chr "(") with (One (Chr 40)). change (chr ")") with (One (Chr 41)).
      change (lit "(" ++ arg ++ lit ")") with (40%N :: arg ++ lit ")").
      rewrite rmatch_seq, rmatch_chr, rmatch_seq.
      apply group_alt_plus_matches; [exact Hne | exact Harg | reflexivity | reflexivity].
  - rewrite (app_assoc func).
    rewrite (@replace_all_match_prefix (re_call func) _ (func ++ lit "(") (arg ++ lit ")") []).
    + unfold expand. cbn [flat_map]. rewrite app_nil_r, <- !app_assoc. f_equal. f_equal. f_equal.
      unfold re_call. simpl in Hf.
      destruct Hf as [<- | [<- | [<- | []]]].
      * apply (@replace_all_absent (lit "sin") _ _ 115%N); [simpl; auto |].
        rewrite forallb_app, (digits_or_point_absent 115 arg eq_refl Harg). reflexivity.
      * apply (@replace_all_absent (lit "cos") _ _ 99%N); [simpl; auto |].
        rewrite forallb_app, (digits_or_point_absent 99 arg eq_refl Harg). reflexivity.
      * apply (@replace_all_absent (lit "tan") _ _ 116%N); [simpl; auto |].
        rewrite forallb_app, (digits_or_point_absent 116 arg eq_refl Harg). reflexivity.
    + destruct func; [congruence | discriminate].
    + unfold match_here, re_call. rewrite <- app_assoc, re_lit_matches. reflexivity.
Qed.

(** A call of sin, cos or tan on a run of digits and points: in Degree mode
    the argument is wrapped and scaled by pi / 180 inside the call, in Radian
    mode only the name is rewritten. *)
Theorem trig_call_on_number :
  forall (func arg : jsstring),
    In func [lit "sin"; lit "cos"; lit "tan"] ->
    arg <> [] ->
    forallb (cset_mem (DigitOr (lit "."))) arg = true ->
    rewriteFunc false (func ++ lit "(" ++ arg ++ lit ")") func =
    lit "Math." ++ func ++ lit "((" ++ arg ++ lit ") * Math.PI / 180)" /\
    rewriteFunc true (func ++ lit "(" ++ arg ++ lit ")") func =
    lit "Math." ++ func ++ lit "(" ++ arg ++ lit ")".
Proof. exact trig_call_step. Qed.

Lemma trig_call_on_number_witness :
  rewriteFunc false (lit "cos" ++ lit "(" ++ lit "0.5" ++ lit ")") (lit "cos") =
  lit "Math." ++ lit "cos" ++ lit "((" ++ lit "0.5" ++ lit ") * Math.PI / 180)" /\
  rewriteFunc true (lit "cos" ++ lit "(" ++ lit "0.5" ++ lit ")") (lit "cos") =
  lit "Math." ++ lit "cos" ++ lit "(" ++ lit "0.5" ++ lit ")".
Proof.
  apply (@trig_call_on_number (lit "cos") (lit "0.5")).
  - simpl. auto.
  - discriminate.
  - reflexivity.
Defined.

Lemma rewriteFunc_log (isRad : bool) (s : jsstring) :
  rewriteFunc isRad s (lit "log") = replace_all (re_call (lit "ln")) [Text (lit "Math.log(")] s.
Proof. reflexivity. Qed.

Lemma rewriteFunc_log10 (isRad : bool) (s : jsstring) :
  rewriteFunc isRad s (lit "log10") =
  replace_all (re_call (lit "log")) [Text (lit "Math.log10(")] s.
Proof. reflexivity. Qed.

Lemma rewriteFunc_abs (isRad : bool) (s : jsstring) :
  rewriteFunc isRad s (lit "abs") =
  replace_all (re_call (lit "abs")) [Text (lit "Math.abs(")] s.
Proof. reflexivity. Qed.

Lemma rewriteFunc_rad (func s : jsstring) :
  In func [lit "sin"; lit "cos"; lit "tan"] ->
  rewriteFunc true s func = replace_all (re_call func) [Text (lit "Math." ++ func ++ lit "(")] s.
Proof. intros Hf. exact (rewriteFunc_trig true s Hf). Qed.

Lemma rewriteFunc_deg (func s : jsstring) :
  In func [lit "sin"; lit "cos"; lit "tan"] ->
  rewriteFunc false s func =
  replace_all (re_call_deg func)
    [Text (lit "Math." ++ func ++ lit "(("); Ref 1; Text (lit ") * Math.PI / 180)")] s.
Proof. intros Hf. exact (rewriteFunc_trig false s Hf). Qed.

(** The steps of the rewriting, as replacements. *)
Ltac as_replacements :=
  unfold normalize at 1, mathFuncs; cbv zeta; cbn [fold_left];
  rewrite ?rewriteFunc_log, ?rewriteFunc_log10, ?rewriteFunc_abs;
  rewrite ?rewriteFunc_rad by (simpl; auto);
  rewrite ?rewriteFunc_deg by (simpl; auto).

(** The innermost replacement finds no match inside the prefix [a]. *)
Ltac keep_prefix a :=
  rewrite (@replace_all_prefix_none _ _ a _) by (repeat split; reflexivity).

(** The innermost replacement matches the prefix [a]. *)
Ltac replace_prefix a :=
  rewrite (@replace_all_match_prefix _ _ a _ []) by (discriminate || reflexivity);
  unfold expand; cbn [flat_map]; rewrite app_nil_r.

Lemma ln_prefix :
  forall (isRad : bool) (rest : jsstring),
    normalize isRad (lit "ln(" ++ rest) = lit "Math.Math.log10(" ++ normalize isRad rest.
Proof.
  intros isRad rest. destruct isRad; as_replacements.
  - do 10 keep_prefix (lit "ln("). replace_prefix (lit "ln(").
    change (lit "Math.log(") with (lit "Math." ++ lit "log("). rewrite <- app_assoc.
    keep_prefix (lit "Math."). replace_prefix (lit "log("). rewrite app_assoc.
    keep_prefix (lit "Math." ++ lit "Math.log10("). reflexivity.
  - do 10 keep_prefix (lit "ln("). replace_prefix (lit "ln(").
    change (lit "Math.log(") with (lit "Math." ++ lit "log("). rewrite <- app_assoc.
    keep_prefix (lit "Math."). replace_prefix (lit "log("). rewrite app_assoc.
    keep_prefix (lit "Math." ++ lit "Math.log10("). reflexivity.
Qed.

(** * The keyboard and the buttons *)

(** ** The handlers and their queued updates *)

Lemma commit_handleInput (val : jsstring) (st : State) :
  commit (handleInput_updates val st) st = handleInput val st.
Proof.
  unfold handleInput_updates, handleInput.
  destruct (str_eqb (displayValue st) (lit "Error")); reflexivity.
Qed.

Lemma commit_handleClear (st : State) : commit handleClear_updates st = handleClear st.
Proof. reflexivity. Qed.

Lemma commit_handleDelete (st : State) :
  commit (handleDelete_updates st) st = handleDelete st.
Proof.
  unfold handleDelete_updates, handleDelete.
  destruct (str_eqb (displayValue st) (lit "Error")); reflexivity.
Qed.

Lemma commit_handleCalculate (E : Js.Engine) (st : State) :
  commit (handleCalculate_updates E st) st = handleCalculate E st.
Proof.
  unfold handleCalculate_updates, handleCalculate.
  destruct (calculate E (isRad st) (expression st)); reflexivity.
Qed.

Lemma commit_toggle (st : State) : commit (toggle_updates st) st = toggleAngleUnit st.
Proof. reflexivity. Qed.

(** ** Which handler a key runs *)

Lemma test_digit (key : jsstring) :
  regexp_test (One (DigitOr [])) key = existsb is_digit key.
Proof.
  induction key as [|c key IH]; [reflexivity |].
  cbn [regexp_test existsb]. unfold match_here. cbn [rmatch cset_mem existsb].
  rewrite orb_false_r. destruct (is_digit c); [reflexivity | exact IH].
Qed.

Lemma handleKeyDown_dispatch (E : Js.Engine) (key : jsstring) (c : State) :
  handleKeyDown E key c =
  if existsb is_digit key || includes keyboard_tokens key then handleInput_updates key c
  else if str_eqb key (lit "Enter") then handleCalculate_updates E c
  else if str_eqb key (lit "Backspace") then handleDelete_updates c
  else if str_eqb key (lit "Escape") then handleClear_updates
  else [].
Proof.
  unfold handleKeyDown. rewrite test_digit.
  destruct (str_eqb key (lit "Enter")) eqn:H1;
    [apply str_eqb_eq in H1; subst key; cbn; rewrite app_nil_r; reflexivity |].
  destruct (str_eqb key (lit "Backspace")) eqn:H2;
    [apply str_eqb_eq in H2; subst key; cbn; rewrite app_nil_r; reflexivity |].
  destruct (str_eqb key (lit "Escape")) eqn:H3;
    [apply str_eqb_eq in H3; subst key; reflexivity |].
  destruct (includes keyboard_tokens key) eqn:H4.
  - unfold includes, keyboard_tokens in H4. cbn [existsb] in H4.
    repeat (apply orb_true_iff in H4;
            destruct H4 as [H4 | H4];
            [apply str_eqb_eq in H4; subst key; cbn; rewrite app_nil_r; reflexivity |]).
    discriminate H4.
  - rewrite orb_false_r. destruct (existsb is_digit key); cbn [app];
      rewrite ?app_nil_r; reflexivity.
Qed.

(** ** What a handler leaves of a well-formed state *)

Lemma calculate_empty (E : Js.Engine) (isRad : bool) :
  calculate E isRad [] = Js.Normal nan.
Proof. destruct isRad; vm_compute; reflexivity. Qed.

Lemma toString_nonempty (x : float) : Number.toString x <> [].
Proof. destruct (toString_starts_plain x) as (c & r & -> & _). discriminate. Qed.

Lemma removelast_fixed (s : jsstring) : removelast s = s -> s = [].
Proof.
  intros H. destruct s as [|c s] using rev_ind; [reflexivity |].
  rewrite removelast_last in H. apply (f_equal (@List.length N)) in H.
  rewrite length_app in H. simpl in H. lia.
Qed.

Lemma agrees_nonempty (st : State) :
  well_formed st -> expression st <> [] -> displayValue st = expression st.
Proof. intros [[H | [H _]] _] Hne; [exact H | contradiction]. Qed.

Lemma agrees_empty (st : State) :
  well_formed st -> expression st = [] ->
  displayValue st = lit "0" \/ displayValue st = lit "Error".
Proof.
  intros [[H | [_ H]] Hd] He; [| exact H]. rewrite He in H. contradiction.
Qed.

Lemma quiet_set_both (st : State) (v : jsstring) :
  v <> [] -> well_formed st ->
  quiet_change st (mkState v v (isRad st) (history st)).
Proof.
  intros Hv Hst. unfold quiet_change, well_formed, display_agrees. cbn.
  split; [split; [left; reflexivity | exact Hv] |]. split.
  - intros ->. left. symmetry. now apply agrees_nonempty.
  - intros _ _ H. exact H.
Qed.

Lemma handleInput_sets_both (val : jsstring) (st : State) :
  val <> [] ->
  exists v, v <> [] /\ handleInput val st = mkState v v (isRad st) (history st).
Proof.
  intros Hv. unfold handleInput.
  destruct (str_eqb (displayValue st) (lit "Error")); [exists val; now split |].
  destruct (str_eqb (expression st) (displayValue st) && negb (includes operators val)).
  - exists val. now split.
  - exists (expression st ++ val). split; [| reflexivity].
    intros H. apply app_eq_nil in H as [_ H]. contradiction.
Qed.

Lemma quiet_handleInput (val : jsstring) (st : State) :
  val <> [] -> well_formed st -> quiet_change st (handleInput val st).
Proof.
  intros Hv Hst. destruct (handleInput_sets_both st Hv) as (v & Hne & ->).
  now apply quiet_set_both.
Qed.

Lemma quiet_cleared (st : State) (r : bool) :
  quiet_change st (mkState [] (lit "0") r []).
Proof.
  unfold quiet_change, well_formed, display_agrees. cbn.
  split; [split; [right; split; [reflexivity | left; reflexivity] | discriminate] |].
  split; [intros _; right; repeat split | intros _ _ _; reflexivity].
Qed.

Lemma quiet_handleClear (st : State) : quiet_change st (handleClear st).
Proof. apply quiet_cleared. Qed.

Lemma quiet_handleDelete (st : State) : well_formed st -> quiet_change st (handleDelete st).
Proof.
  intros Hst. unfold handleDelete.
  destruct (str_eqb (displayValue st) (lit "Error")) eqn:Hd; [apply quiet_cleared |].
  unfold slice_0_minus1, setDisplayValue, setExpression. cbn [expression displayValue isRad history].
  unfold quiet_change, well_formed, display_agrees. cbn.
  split; [| split].
  - destruct (removelast (expression st)) eqn:Hr; cbn.
    + split; [right; split; [reflexivity | left; reflexivity] | discriminate].
    + split; [left; reflexivity | discriminate].
  - intros H. apply removelast_fixed in H. rewrite H. cbn. left.
    destruct (agrees_empty Hst H) as [H0 | H0]; [now rewrite H0 |].
    rewrite H0 in Hd. discriminate Hd.
  - intros _ _ H. exact H.
Qed.

Lemma quiet_handleCalculate (E : Js.Engine) (st : State) :
  well_formed st -> quiet_change st (handleCalculate E st).
Proof.
  intros Hst. unfold handleCalculate.
  destruct (calculate E (isRad st) (expression st)) as [R | e] eqn:Hc;
    unfold setDisplayValue, setExpression, setHistory;
    cbn [expression displayValue isRad history];
    unfold quiet_change, well_formed, display_agrees; cbn.
  - pose proof (toString_nonempty R) as HR.
    split; [split; [left; reflexivity | exact HR] |]. split.
    + intros H. left. rewrite H. symmetry. apply agrees_nonempty; [exact Hst | congruence].
    + intros H He. congruence.
  - split; [split; [right; split; [reflexivity | right; reflexivity] | discriminate] |].
    split.
    + intros H. rewrite <- H, calculate_empty in Hc. discriminate Hc.
    + intros H. rewrite <- H, calculate_empty in Hc. discriminate Hc.
Qed.

Lemma quiet_toggle (st : State) : well_formed st -> quiet_change st (toggleAngleUnit st).
Proof.
  intros Hst. unfold quiet_change. cbn.
  split; [exact Hst |]. split; [intros _; left; reflexivity | intros _ _ H; exact H].
Qed.

Lemma quiet_same (st : State) : well_formed st -> quiet_change st st.
Proof.
  intros Hst. split; [exact Hst |].
  split; [intros _; left; reflexivity | intros _ _ H; exact H].
Qed.

Lemma button_token_nonempty (label token : jsstring) :
  In (Key label token) buttons -> token <> [].
Proof.
  unfold buttons. cbn [In]. intros H.
  repeat (destruct H as [H | H];
          [first [discriminate H | injection H as <- <-; discriminate] |]).
  destruct H.
Qed.

Lemma handled_key_nonempty (key : jsstring) :
  existsb is_digit key || includes keyboard_tokens key = true -> key <> [].
Proof. intros H ->. discriminate H. Qed.

Lemma quiet_act (E : Js.Engine) (ev : event) (st : State) :
  on_keypad ev -> well_formed st -> quiet_change st (act E ev st).
Proof.
  intros Hev Hst. destruct ev as [b | key]; cbn [act].
  - destruct b as [label token | | | |]; cbn [onClick].
    + rewrite commit_handleInput. apply quiet_handleInput; [| exact Hst].
      exact (button_token_nonempty Hev).
    + rewrite commit_handleClear. apply quiet_handleClear.
    + rewrite commit_handleDelete. now apply quiet_handleDelete.
    + rewrite commit_handleCalculate. now apply quiet_handleCalculate.
    + rewrite commit_toggle. now apply quiet_toggle.
  - unfold key_action.
    destruct (existsb is_digit key || includes keyboard_tokens key) eqn:Hk.
    + apply quiet_handleInput; [now apply handled_key_nonempty | exact Hst].
    + destruct (str_eqb key (lit "Enter")); [now apply quiet_handleCalculate |].
      destruct (str_eqb key (lit "Backspace")); [now apply quiet_handleDelete |].
      destruct (str_eqb key (lit "Escape")); [apply quiet_handleClear | now apply quiet_same].
Qed.

(** ** The registered listener *)

Lemma listener_acts_as_current (E : Js.Engine) (key : jsstring) (ui : Ui) :
  listener_ok ui -> well_formed (current ui) ->
  commit (handleKeyDown E key (listener ui)) (current ui) = key_action E key (current ui).
Proof.
  intros (He & Hr & Hd & Hcase) Hwf.
  rewrite handleKeyDown_dispatch. unfold key_action.
  destruct ui as [cur lis]. cbn [current listener] in *.
  destruct (existsb is_digit key || includes keyboard_tokens key).
  { rewrite <- commit_handleInput. f_equal. unfold handleInput_updates.
    destruct Hcase as [Hsame | (Hce & _ & Hcd)]; [rewrite He, Hsame; reflexivity |].
    rewrite He, Hce, Hcd. destruct (displayValue lis) as [|c d]; [contradiction |].
    destruct (str_eqb (c :: d) (lit "Error")); reflexivity. }
  destruct (str_eqb key (lit "Enter")).
  { rewrite <- commit_handleCalculate. f_equal. unfold handleCalculate_updates.
    rewrite He, Hr. reflexivity. }
  destruct (str_eqb key (lit "Backspace")).
  { destruct Hcase as [Hsame | (Hce & Hch & Hcd)].
    - rewrite <- commit_handleDelete. f_equal. unfold handleDelete_updates.
      rewrite He, Hsame. reflexivity.
    - destruct cur as [ex dv r hi]. cbn in Hce, Hch, Hcd, He.
      rewrite Hce in He. unfold handleDelete_updates. rewrite He, Hce, Hch, Hcd.
      destruct (str_eqb (displayValue lis) (lit "Error")); reflexivity. }
  destruct (str_eqb key (lit "Escape")); reflexivity.
Qed.

Lemma deps_unchanged (a b : State) :
  deps_changed a b = false -> expression a = expression b /\ isRad a = isRad b.
Proof.
  unfold deps_changed. intros H. apply orb_false_iff in H as [H1 H2].
  apply negb_false_iff in H1, H2. apply str_eqb_eq in H1. apply Bool.eqb_prop in H2.
  now split.
Qed.

Lemma render_ok (ui : Ui) (st : State) :
  listener_ok ui -> quiet_change (current ui) st -> listener_ok (render ui st).
Proof.
  intros (He & Hr & Hd & Hcase) ((Hag & Hne) & Hq2 & Hq3).
  unfold render, listener_ok. cbn [current listener].
  destruct (deps_changed (listener ui) st) eqn:Hdep.
  - repeat split; [exact Hne | left; reflexivity].
  - apply deps_unchanged in Hdep as [Hde Hdr].
    assert (Hex : expression st = expression (current ui)) by congruence.
    repeat split; [exact Hde | exact Hdr | exact Hd |].
    destruct (Hq2 Hex) as [Hsame | Halt]; [| right; exact Halt].
    destruct Hcase as [Hl | (Hce & Hch & Hcd)]; [left; congruence |].
    right. repeat split; [congruence | now apply Hq3 | congruence].
Qed.

Lemma step_acts (E : Js.Engine) (ui : Ui) (ev : event) :
  on_keypad ev -> listener_ok ui -> well_formed (current ui) ->
  current (step E ui ev) = act E ev (current ui) /\
  listener_ok (step E ui ev) /\
  well_formed (current (step E ui ev)).
Proof.
  intros Hev Hok Hwf.
  pose proof (@quiet_act E ev (current ui) Hev Hwf) as Hq.
  assert (Hs : step E ui ev = render ui (act E ev (current ui))).
  { destruct ev as [b | key]; [reflexivity |].
    cbn [step act]. now rewrite listener_acts_as_current. }
  rewrite Hs. split; [reflexivity |]. split; [now apply render_ok |].
  exact (proj1 Hq).
Qed.

Lemma run_events_snoc (E : Js.Engine) (evs : list event) (ev : event) :
  run_events E (evs ++ [ev]) = step E (run_events E evs) ev.
Proof. unfold run_events. rewrite fold_left_app. reflexivity. Qed.

Lemma run_events_ok (E : Js.Engine) (evs : list event) :
  Forall on_keypad evs ->
  listener_ok (run_events E evs) /\ well_formed (current (run_events E evs)).
Proof.
  induction evs as [|ev evs IH] using rev_ind; intros Hevs.
  - split.
    + repeat split; [discriminate | left; reflexivity].
    + split; [right; split; [reflexivity | left; reflexivity] | discriminate].
  - apply Forall_app in Hevs as [Hevs Hev]. inversion Hev as [|? ? Hev' _]; subst.
    destruct (IH Hevs) as [Hok Hwf]. rewrite run_events_snoc.
    destruct (@step_acts E (run_events E evs) ev Hev' Hok Hwf) as (_ & H1 & H2). now split.
Qed.

(** After any clicks and key presses a key does what its handler does on
    the current state: a key with a digit in its name, or one of
    [+ - * / ( ) .], is handed to handleInput, Enter runs handleCalculate,
    Backspace handleDelete, Escape handleClear, and any other key does
    nothing.  The listener is registered anew only when the buffer or the
    angle unit changes, and the display that it may have missed never shows
    in the result. *)
Theorem key_acts_on_current_state :
  forall (E : Js.Engine) (evs : list event) (key : jsstring),
    Forall on_keypad evs ->
    current (step E (run_events E evs) (KeyDown key)) =
    key_action E key (current (run_events E evs)).
Proof.
  intros E evs key Hevs. destruct (@run_events_ok E evs Hevs) as [Hok Hwf].
  exact (proj1 (@step_acts E (run_events E evs) (KeyDown key) I Hok Hwf)).
Qed.

(** The keys "(", "=" and AC leave a listener that still holds the display
    "Error" while "0" is shown; Backspace then acts as on the current
    state. *)
Lemma key_acts_on_current_state_witness :
  current (step sample_engine
             (run_events sample_engine
                [Click (Key (lit "(") (lit "(")); Click Equal; Click AC])
             (KeyDown (lit "Backspace"))) =
  key_action sample_engine (lit "Backspace")
    (current (run_events sample_engine
                [Click (Key (lit "(") (lit "(")); Click Equal; Click AC])).
Proof.
  apply (@key_acts_on_current_state sample_engine
           [Click (Key (lit "(") (lit "(")); Click Equal; Click AC] (lit "Backspace")).
  repeat constructor; cbn; tauto.
Defined.

Example listener_can_be_stale :
  displayValue (listener (run_events sample_engine
                            [Click (Key (lit "(") (lit "(")); Click Equal; Click AC]))
  = lit "Error" /\
  displayValue (current (run_events sample_engine
                           [Click (Key (lit "(") (lit "(")); Click Equal; Click AC]))
  = lit "0".
Proof. vm_compute. split; reflexivity. Qed.

(** On every state that clicks and key presses lead to, the display is not
    empty, and it is the buffer unless the buffer is empty and "0" or
    "Error" is shown. *)
Theorem display_is_never_empty :
  forall (E : Js.Engine) (evs : list event),
    Forall on_keypad evs ->
    displayValue (current (run_events E evs)) <> [] /\
    display_agrees (current (run_events E evs)).
Proof.
  intros E evs Hevs. destruct (@run_events_ok E evs Hevs) as [_ [Hag Hne]]. now split.
Qed.

Lemma display_is_never_empty_witness :
  displayValue (current (run_events sample_engine
                           [KeyDown (lit "7"); KeyDown (lit "Backspace")])) <> [] /\
  display_agrees (current (run_events sample_engine
                             [KeyDown (lit "7"); KeyDown (lit "Backspace")])).
Proof.
  apply (@display_is_never_empty sample_engine [KeyDown (lit "7"); KeyDown (lit "Backspace")]).
  repeat constructor.
Defined.

(** ** One operand at most *)

Lemma so_nil (toks : list jsstring) : single_operand toks [].
Proof.
  exists [], []. split; [reflexivity |]. split; [constructor |].
  exists (Number.toString 0). split; [eexists; reflexivity | right; eexists; reflexivity].
Qed.

Lemma so_atom (toks : list jsstring) (t : jsstring) :
  In t toks \/ (exists R, t = Number.toString R) -> single_operand toks t.
Proof.
  intros H. exists t, []. split; [symmetry; apply app_nil_r |]. split; [constructor |].
  exists t. split; [exists []; symmetry; apply app_nil_r | exact H].
Qed.

Lemma so_op (toks : list jsstring) (s op : jsstring) :
  single_operand toks s -> In op operators -> single_operand toks (s ++ op).
Proof.
  intros (a & ops & -> & Hops & Hat) Hop.
  exists a, (ops ++ op). split; [symmetry; apply app_assoc |]. split; [| exact Hat].
  apply Forall_app. split; [exact Hops |].
  destruct (operator_is_one_char Hop) as [c ->]. constructor; [exact Hop | constructor].
Qed.

Lemma so_removelast (toks : list jsstring) (s : jsstring) :
  single_operand toks s -> single_operand toks (removelast s).
Proof.
  intros (a & ops & -> & Hops & atom & [t Ht] & Hat).
  destruct ops as [|x ops _] using rev_ind.
  - rewrite app_nil_r. exists (removelast a), []. split; [symmetry; apply app_nil_r |].
    split; [constructor |]. exists atom. split; [| exact Hat].
    destruct a as [|y a _] using rev_ind; [exists atom; reflexivity |].
    rewrite removelast_last. exists ([y] ++ t). rewrite Ht, <- app_assoc. reflexivity.
  - rewrite app_assoc, removelast_last. apply Forall_app in Hops as [Hops _].
    exists a, ops. split; [reflexivity |]. split; [exact Hops |].
    exists atom. split; [exists t; exact Ht | exact Hat].
Qed.

Lemma so_mono (toks toks' : list jsstring) (s : jsstring) :
  incl toks toks' -> single_operand toks s -> single_operand toks' s.
Proof.
  intros Hin (a & ops & Hs & Hops & atom & Hp & [Hat | Hat]);
    exists a, ops; (split; [exact Hs |]); (split; [exact Hops |]); exists atom;
    (split; [exact Hp |]); [left; now apply Hin | right; exact Hat].
Qed.

Lemma includes_true_In (arr : list jsstring) (val : jsstring) :
  includes arr val = true -> In val arr.
Proof.
  unfold includes. intros H. apply existsb_exists in H as (x & Hx & Heq).
  apply str_eqb_eq in Heq. now subst.
Qed.

Lemma so_handleInput (toks : list jsstring) (val : jsstring) (st : State) :
  well_formed st -> In val toks ->
  single_operand toks (expression st) ->
  single_operand toks (expression (handleInput val st)).
Proof.
  intros Hwf Hval Hso. unfold handleInput, setDisplayValue, setExpression.
  destruct (str_eqb (displayValue st) (lit "Error")); cbn [expression];
    [apply so_atom; now left |].
  destruct (str_eqb (expression st) (displayValue st)) eqn:Heq; cbn [andb].
  - destruct (includes operators val) eqn:Hop; cbn [negb]; [| apply so_atom; now left].
    apply so_op; [exact Hso | now apply includes_true_In].
  - destruct (expression st) as [|c e] eqn:He; [apply so_atom; now left |].
    assert (Hd : displayValue st = c :: e)
      by (rewrite <- He; apply agrees_nonempty; [exact Hwf | rewrite He; discriminate]).
    rewrite Hd, str_eqb_refl in Heq. discriminate Heq.
Qed.

Lemma so_handleDelete (toks : list jsstring) (st : State) :
  single_operand toks (expression st) ->
  single_operand toks (expression (handleDelete st)).
Proof.
  intros Hso. unfold handleDelete.
  destruct (str_eqb (displayValue st) (lit "Error")); cbn; [apply so_nil |].
  now apply so_removelast.
Qed.

Lemma so_handleCalculate (E : Js.Engine) (toks : list jsstring) (st : State) :
  single_operand toks (expression (handleCalculate E st)).
Proof.
  unfold handleCalculate. destruct (calculate E (isRad st) (expression st)); cbn.
  - apply so_atom. right. eexists. reflexivity.
  - apply so_nil.
Qed.

Lemma so_act (E : Js.Engine) (toks : list jsstring) (ev : event) (st : State) :
  well_formed st ->
  single_operand toks (expression st) ->
  single_operand (toks ++ token_of ev) (expression (act E ev st)).
Proof.
  intros Hwf Hso.
  assert (Hso' : single_operand (toks ++ token_of ev) (expression st))
    by (apply (so_mono (toks := toks)); [apply incl_appl, incl_refl | exact Hso]).
  destruct ev as [b | key]; cbn [act].
  - destruct b as [label token | | | |]; cbn [onClick].
    + rewrite commit_handleInput. apply so_handleInput; [exact Hwf | | exact Hso'].
      apply in_or_app. right. simpl. now left.
    + apply so_nil.
    + rewrite commit_handleDelete. now apply so_handleDelete.
    + rewrite commit_handleCalculate. apply so_handleCalculate.
    + exact Hso'.
  - unfold key_action.
    destruct (existsb is_digit key || includes keyboard_tokens key).
    + apply so_handleInput; [exact Hwf | | exact Hso'].
      apply in_or_app. right. simpl. now left.
    + destruct (str_eqb key (lit "Enter")); [apply so_handleCalculate |].
      destruct (str_eqb key (lit "Backspace")); [now apply so_handleDelete |].
      destruct (str_eqb key (lit "Escape")); [apply so_nil | exact Hso'].
Qed.

(** Whatever is clicked and typed, the buffer never holds two operands: it
    is the beginning of one token (or of the string of one result) followed
    by operator characters only, because a token that is not an operator
    replaces the buffer. *)
Theorem buffer_holds_one_operand :
  forall (E : Js.Engine) (evs : list event),
    Forall on_keypad evs ->
    single_operand (flat_map token_of evs) (expression (current (run_events E evs))).
Proof.
  intros E evs. induction evs as [|ev evs IH] using rev_ind; intros Hevs.
  - apply so_nil.
  - apply Forall_app in Hevs as [Hevs Hev]. inversion Hev as [|? ? Hev' _]; subst.
    destruct (@run_events_ok E evs Hevs) as [Hok Hwf].
    destruct (@step_acts E (run_events E evs) ev Hev' Hok Hwf) as (Hcur & _ & _).
    rewrite run_events_snoc, Hcur, flat_map_app. cbn [flat_map]. rewrite app_nil_r.
    apply so_act; [exact Hwf | now apply IH].
Qed.

Lemma buffer_holds_one_operand_witness :
  single_operand
    (flat_map token_of [KeyDown (lit "2"); KeyDown (lit "+"); KeyDown (lit "3")])
    (expression (current (run_events sample_engine
                            [KeyDown (lit "2"); KeyDown (lit "+"); KeyDown (lit "3")]))).
Proof.
  apply (@buffer_holds_one_operand sample_engine
           [KeyDown (lit "2"); KeyDown (lit "+"); KeyDown (lit "3")]).
  repeat constructor.
Defined.

Example two_plus_three :
  displayValue (current (run_events sample_engine
                           [KeyDown (lit "2"); KeyDown (lit "+"); KeyDown (lit "3");
                            KeyDown (lit "Enter")])) = lit "3".
Proof. vm_compute. reflexivity. Qed.

(** * Function names with any argument *)

Lemma function_prefixes :
  forall (isRad : bool) (rest : jsstring),
    normalize isRad (lit "log(" ++ rest) = lit "Math.log10(" ++ normalize isRad rest /\
    normalize isRad (lit "abs(" ++ rest) = lit "Math.abs(" ++ normalize isRad rest /\
    normalize true (lit "sin(" ++ rest) = lit "Math.sin(" ++ normalize true rest /\
    normalize true (lit "cos(" ++ rest) = lit "Math.cos(" ++ normalize true rest /\
    normalize true (lit "tan(" ++ rest) = lit "Math.tan(" ++ normalize true rest.
Proof.
  intros isRad rest. split; [| split; [| split; [| split]]].
  - destruct isRad; as_replacements; do 11 keep_prefix (lit "log(");
      replace_prefix (lit "log("); keep_prefix (lit "Math.log10("); reflexivity.
  - destruct isRad; as_replacements; do 12 keep_prefix (lit "abs(");
      replace_prefix (lit "abs("); reflexivity.
  - as_replacements. do 7 keep_prefix (lit "sin("). replace_prefix (lit "sin(").
    do 5 keep_prefix (lit "Math.sin("). reflexivity.
  - as_replacements. do 8 keep_prefix (lit "cos("). replace_prefix (lit "cos(").
    do 4 keep_prefix (lit "Math.cos("). reflexivity.
  - as_replacements. do 9 keep_prefix (lit "tan("). replace_prefix (lit "tan(").
    do 3 keep_prefix (lit "Math.tan("). reflexivity.
Qed.

(** A buffer that starts with "ln(" is run as a text that starts with
    "Math.Math.log10(", whatever follows and whatever the angle unit: the
    step for log10 rewrites the "log(" that the step for the natural
    logarithm has just written.  The rest is rewritten as it would be alone. *)
Theorem ln_call_is_rewritten_twice :
  forall (isRad : bool) (rest : jsstring),
    normalize isRad (lit "ln(" ++ rest) = lit "Math.Math.log10(" ++ normalize isRad rest.
Proof. exact ln_prefix. Qed.

(** A buffer that starts with "log(" or "abs(", and in Radian mode one that
    starts with "sin(", "cos(" or "tan(", is run as the call of the Math
    function followed by the rewriting of what follows: the name is
    rewritten whatever the argument is. *)
Theorem function_names_are_rewritten :
  forall (isRad : bool) (rest : jsstring),
    normalize isRad (lit "log(" ++ rest) = lit "Math.log10(" ++ normalize isRad rest /\
    normalize isRad (lit "abs(" ++ rest) = lit "Math.abs(" ++ normalize isRad rest /\
    normalize true (lit "sin(" ++ rest) = lit "Math.sin(" ++ normalize true rest /\
    normalize true (lit "cos(" ++ rest) = lit "Math.cos(" ++ normalize true rest /\
    normalize true (lit "tan(" ++ rest) = lit "Math.tan(" ++ normalize true rest.
Proof. exact function_prefixes. Qed.

(** * Number literals as arguments *)

(** ** The lexer needs no more fuel than the text is long *)

Lemma span_snd_length (p : N -> bool) (s : jsstring) :
  (List.length (snd (Js.span p s)) <= List.length s)%nat.
Proof.
  induction s as [|c s IH]; simpl; [lia |].
  destruct (p c); [| simpl; lia].
  destruct (Js.span p s) as [a b]. simpl in *. lia.
Qed.

Lemma number_token_rest (ip fp rr r : jsstring) (t : Js.token) :
  Js.bind (Js.number_token ip fp rr) (fun t0 => Js.Done (t0, rr)) = Js.Done (t, r) ->
  r = rr.
Proof.
  destruct (Js.number_token ip fp rr); simpl; intros H; [| discriminate | discriminate].
  now injection H.
Qed.

Lemma next_token_shorter (s r : jsstring) (t : Js.token) :
  Js.next_token s = Js.Done (t, r) -> (List.length r < List.length s)%nat.
Proof.
  destruct s as [|c s]; [discriminate |]. unfold Js.next_token.
  destruct (Js.is_digit c) eqn:Hc.
  { assert (Hl : (List.length (snd (Js.span Js.is_digit (c :: s))) <= List.length s)%nat).
    { simpl. rewrite Hc. pose proof (span_snd_length Js.is_digit s) as Hl.
      destruct (Js.span Js.is_digit s) as [a b]. exact Hl. }
    destruct (Js.span Js.is_digit (c :: s)) as [ip r0]. simpl in Hl.
    destruct r0 as [|x r'].
    - intros H. apply (@number_token_rest _ _ _ _ _) in H. subst r. simpl. lia.
    - pose proof (span_snd_length Js.is_digit r') as Hl2.
      destruct (Js.span Js.is_digit r') as [fp r''] eqn:Hsp. simpl in Hl2.
      intros H.
      assert (Hr : r = r'' \/ r = x :: r').
      { destruct x as [|p]; [right; exact (@number_token_rest _ _ _ _ _ H) |].
        do 6 (destruct p as [p | p |];
              try (right; exact (@number_token_rest _ _ _ _ _ H))).
        left. exact (@number_token_rest _ _ _ _ _ H). }
      destruct Hr as [-> | ->]; simpl in *; lia. }
  destruct (Js.is_ident_start c) eqn:Hi.
  { assert (Hl : (List.length (snd (Js.span Js.is_ident_part (c :: s))) <= List.length s)%nat).
    { simpl. unfold Js.is_ident_part at 1. rewrite Hi. simpl.
      pose proof (span_snd_length Js.is_ident_part s) as Hl.
      destruct (Js.span Js.is_ident_part s) as [a b]. exact Hl. }
    destruct (Js.span Js.is_ident_part (c :: s)) as [name r0]. simpl in Hl.
    intros H. injection H as _ <-. simpl. lia. }
  intros H.
  assert (Hr : (List.length r <= List.length s)%nat).
  { destruct s as [|d s'].
    - destruct c as [|p]; [discriminate H |].
      do 6 (destruct p as [p | p |]; try discriminate H);
        injection H as _ <-; simpl; lia.
    - pose proof (span_snd_length Js.is_digit (d :: s')) as Hl2.
      destruct (Js.span Js.is_digit (d :: s')) as [fp rr] eqn:Hsp. simpl in Hl2.
      assert (Hr : r = rr \/ r = d :: s').
      { destruct c as [|p]; [discriminate H |].
        do 6 (destruct p as [p | p |]; try discriminate H).
        all: try (right; injection H as _ <-; reflexivity).
        all: try (destruct (Js.is_digit d);
                  [left; exact (@number_token_rest _ _ _ _ _ H) |
                   destruct (N.eqb d 46);
                   [discriminate H | right; injection H as _ <-; reflexivity]]).
        all: destruct d as [|q]; [right; injection H as _ <-; reflexivity |].
        all: do 6 (destruct q as [q | q |];
                   try discriminate H; try (right; injection H as _ <-; reflexivity)). }
      destruct Hr as [-> | ->]; simpl in *; lia. }
  simpl. lia.
Qed.

Lemma tokens_unfold (f : nat) (s : jsstring) :
  Js.tokens (S f) s =
  match s with
  | [] => Js.Done []
  | c :: s' =>
      if N.eqb c 32 then Js.tokens f s'
      else match Js.next_token s with
           | Js.Done (t, r) => Js.bind (Js.tokens f r) (fun ts => Js.Done (t :: ts))
           | Js.Throws e => Js.Done [Js.TInvalid e]
           | Js.Unmodelled => Js.Unmodelled
           end
  end.
Proof.
  destruct s as [|c s']; [reflexivity |].
  destruct c as [|p]; [reflexivity |].
  do 6 (destruct p as [p | p |]; try reflexivity).
Qed.

Lemma tokens_enough (n : nat) :
  forall (s : jsstring) (f1 f2 : nat),
    (List.length s <= n)%nat -> (List.length s < f1)%nat -> (List.length s < f2)%nat ->
    Js.tokens f1 s = Js.tokens f2 s.
Proof.
  induction n as [|n IH]; intros s f1 f2 Hn H1 H2;
    destruct f1 as [|f1]; try lia; destruct f2 as [|f2]; try lia;
    rewrite !tokens_unfold; destruct s as [|c s']; try reflexivity; simpl in Hn, H1, H2;
    try lia.
  destruct (N.eqb c 32); [apply IH; lia |].
  destruct (Js.next_token (c :: s')) as [[t r] | e |] eqn:Hn'; try reflexivity.
  apply next_token_shorter in Hn'. simpl in Hn'.
  rewrite (IH r f1 f2); [reflexivity | lia | lia | lia].
Qed.

Lemma tokenize_space (s : jsstring) : Js.tokenize (32%N :: s) = Js.tokenize s.
Proof.
  unfold Js.tokenize. rewrite tokens_unfold. cbn [N.eqb Pos.eqb].
  apply (@tokens_enough (List.length s)); simpl; lia.
Qed.

Lemma tokenize_token (c : N) (s r : jsstring) (t : Js.token) :
  N.eqb c 32 = false ->
  Js.next_token (c :: s) = Js.Done (t, r) ->
  Js.tokenize (c :: s) = Js.bind (Js.tokenize r) (fun ts => Js.Done (t :: ts)).
Proof.
  intros Hc Hn. unfold Js.tokenize. rewrite tokens_unfold, Hc, Hn.
  apply next_token_shorter in Hn.
  rewrite (@tokens_enough (List.length r) r (List.length (c :: s)) (S (List.length r)));
    [reflexivity | lia | exact Hn | lia].
Qed.

Lemma closes_stops (rest : jsstring) : closes rest -> stops Digit rest.
Proof. destruct rest as [|c rest]; [trivial |]. intros [-> | ->]; reflexivity. Qed.

Lemma span_digits (ds rest : jsstring) :
  forallb is_digit ds = true ->
  stops Digit rest ->
  Js.span Js.is_digit (ds ++ rest) = (ds, rest).
Proof.
  intros Hds Hrest. induction ds as [|d ds IH].
  - destruct rest as [|x rest]; [reflexivity |].
    cbn [stops cset_mem] in Hrest. cbn [app Js.span]. unfold Js.is_digit.
    rewrite Hrest. reflexivity.
  - cbn [forallb] in Hds. apply andb_true_iff in Hds as [Hd Hds].
    cbn [app Js.span]. unfold Js.is_digit at 1. rewrite Hd, (IH Hds). reflexivity.
Qed.

Lemma number_token_closes (ds rest : jsstring) :
  closes rest -> Js.number_token ds [] rest = Js.number_token ds [] [].
Proof.
  destruct rest as [|c rest]; [reflexivity |]. intros [-> | ->]; reflexivity.
Qed.

Lemma digit_is_no_space (d : N) : is_digit d = true -> N.eqb d 32 = false.
Proof.
  unfold is_digit. intros H. apply andb_true_iff in H as [H _].
  apply N.leb_le in H. apply N.eqb_neq. lia.
Qed.

Lemma tokenize_number (ds rest : jsstring) (x : float) :
  all_digits ds -> closes rest ->
  Js.number_token ds [] [] = Js.Done (Js.TNum x) ->
  Js.tokenize (ds ++ rest) = Js.bind (Js.tokenize rest) (fun ts => Js.Done (Js.TNum x :: ts)).
Proof.
  intros [Hne Hds] Hrest Hx. destruct ds as [|d ds]; [congruence |].
  pose proof Hds as Hd. simpl in Hd. apply andb_true_iff in Hd as [Hd _].
  apply (@tokenize_token d (ds ++ rest) rest (Js.TNum x)); [now apply digit_is_no_space |].
  unfold Js.next_token. unfold Js.is_digit at 1. rewrite Hd.
  change (d :: ds ++ rest) with ((d :: ds) ++ rest).
  rewrite (span_digits (d :: ds) rest Hds (closes_stops rest Hrest)).
  rewrite <- (number_token_closes (d :: ds) rest Hrest) in Hx.
  destruct rest as [|c rest]; [rewrite Hx; reflexivity |].
  destruct Hrest as [-> | ->]; rewrite Hx; reflexivity.
Qed.

(** ** Patterns that find nothing *)

Lemma is_suffix_refl (s : jsstring) : is_suffix s s.
Proof. exists []. reflexivity. Qed.

Lemma is_suffix_cons (x : N) (s' s : jsstring) : is_suffix s' s -> is_suffix s' (x :: s).
Proof. intros [p ->]. exists (x :: p). reflexivity. Qed.

Lemma is_suffix_trans (a b c : jsstring) : is_suffix a b -> is_suffix b c -> is_suffix a c.
Proof. intros [p ->] [q ->]. exists (q ++ p). now rewrite app_assoc. Qed.

Lemma plus_loop_reaches (c : cset) (s : jsstring) (caps : captures) (k : cont)
      (res : jsstring * captures) :
  plus_loop c s caps k = Some res ->
  exists s' caps', is_suffix s' s /\ k s' caps' = Some res.
Proof.
  induction s as [|x s IH]; simpl; intros H.
  - exists [], caps. split; [apply is_suffix_refl | exact H].
  - destruct (cset_mem c x).
    + destruct (plus_loop c s caps k) eqn:Hl.
      * injection H as <-. destruct (IH eq_refl) as (s' & caps' & Hs & Hk).
        exists s', caps'. split; [now apply is_suffix_cons | exact Hk].
      * exists (x :: s), caps. split; [apply is_suffix_refl | exact H].
    + exists (x :: s), caps. split; [apply is_suffix_refl | exact H].
Qed.

(** A match calls its continuation on an end of the text. *)
Lemma rmatch_reaches (r : regex) :
  forall (s : jsstring) (caps : captures) (k : cont) (res : jsstring * captures),
    rmatch r s caps k = Some res ->
    exists s' caps', is_suffix s' s /\ k s' caps' = Some res.
Proof.
  induction r as [c | c | r1 IH1 r2 IH2 | r1 IH1 r2 IH2 | r IH | n r IH];
    intros s caps k res H; cbn [rmatch] in H.
  - destruct s as [|x s]; [discriminate |]. destruct (cset_mem c x); [| discriminate].
    exists s, caps. split; [exists [x]; reflexivity | exact H].
  - destruct s as [|x s]; [discriminate |]. destruct (cset_mem c x); [| discriminate].
    destruct (plus_loop_reaches _ _ _ _ H) as (s' & caps' & Hs & Hk).
    exists s', caps'. split; [now apply is_suffix_cons | exact Hk].
  - destruct (IH1 _ _ _ _ H) as (s1 & caps1 & Hs1 & H1).
    destruct (IH2 _ _ _ _ H1) as (s2 & caps2 & Hs2 & H2).
    exists s2, caps2. split; [exact (is_suffix_trans Hs2 Hs1) | exact H2].
  - destruct (rmatch r1 s caps k) eqn:H1.
    + injection H as <-. exact (IH1 _ _ _ _ H1).
    + exact (IH2 _ _ _ _ H).
  - destruct (rmatch r s caps k) eqn:H1.
    + injection H as <-. exact (IH _ _ _ _ H1).
    + exists s, caps. split; [apply is_suffix_refl | exact H].
  - destruct (IH _ _ _ _ H) as (s' & caps' & Hs & Hk).
    exists s'. eexists. split; [exact Hs | exact Hk].
Qed.

Lemma pow_needs_caret (s : jsstring) (res : jsstring * captures) :
  match_here re_pow s = Some res -> In 94%N s.
Proof.
  unfold match_here, re_pow. rewrite rmatch_seq. intros H.
  apply rmatch_reaches in H as (s' & caps' & [p ->] & H).
  rewrite rmatch_seq in H. change (chr "^") with (One (Chr 94)) in H.
  cbn [rmatch cset_mem] in H. destruct s' as [|x s']; [discriminate |].
  destruct (N.eqb_spec 94 x) as [<- | _]; [| discriminate].
  apply in_or_app. right. now left.
Qed.

Lemma replace_all_never (r : regex) (tmpl : list piece) (p : N -> bool) (s : jsstring) :
  (forall s', forallb p s' = true -> match_here r s' = None) ->
  forallb p s = true ->
  replace_all r tmpl s = s.
Proof.
  intros Hno. unfold replace_all. induction s as [|c s IH]; intros Hs.
  - simpl. rewrite (Hno [] eq_refl). reflexivity.
  - cbn [replace_from]. rewrite (Hno (c :: s) Hs).
    simpl in Hs. apply andb_true_iff in Hs as [_ Hs]. rewrite (IH Hs). reflexivity.
Qed.

Lemma pow_step_absent (s : jsstring) :
  forallb (fun c => negb (N.eqb 94 c)) s = true ->
  replace_all re_pow pow_template s = s.
Proof.
  apply replace_all_never. intros s' Hs'.
  destruct (match_here re_pow s') as [res |] eqn:H; [| reflexivity].
  apply pow_needs_caret in H. rewrite forallb_forall in Hs'.
  specialize (Hs' _ H). rewrite N.eqb_refl in Hs'. discriminate Hs'.
Qed.

Lemma lacks_absent (l : jsstring) (x : N) (s : jsstring) :
  In x l -> lacks l s -> forallb (fun c => negb (N.eqb x c)) s = true.
Proof.
  intros Hx. apply forallb_weaken. intros c Hc.
  apply negb_true_iff in Hc. apply negb_true_iff.
  destruct (N.eqb_spec x c) as [-> | _]; [| reflexivity].
  rewrite <- Hc. symmetry. apply existsb_exists. exists c. split; [exact Hx | apply N.eqb_refl].
Qed.

Lemma lacks_app (l a b : jsstring) : lacks l a -> lacks l b -> lacks l (a ++ b).
Proof. unfold lacks. intros Ha Hb. now rewrite forallb_app, Ha, Hb. Qed.

Lemma lacks_incl (l l' s : jsstring) : incl l' l -> lacks l s -> lacks l' s.
Proof.
  intros Hin. apply forallb_weaken. intros c Hc.
  apply negb_true_iff in Hc. apply negb_true_iff.
  destruct (existsb (N.eqb c) l') eqn:He; [| reflexivity].
  apply existsb_exists in He as (y & Hy & Heq).
  rewrite <- Hc. symmetry. apply existsb_exists. exists y. split; [now apply Hin | exact Heq].
Qed.

Lemma symbols_inert (s : jsstring) :
  lacks symbols s -> flat_map symbol_text s = s.
Proof.
  induction s as [|x s IH]; intros H; [reflexivity |].
  pose proof H as H'. unfold lacks in H'. simpl in H'. apply andb_true_iff in H' as [_ Hs].
  cbn [flat_map]. rewrite (IH Hs).
  assert (Hx : forall y, In y symbols -> N.eqb x y = false).
  { intros y Hy. pose proof (@lacks_absent _ _ _ Hy H) as Ha. simpl in Ha.
    apply andb_true_iff in Ha as [Ha _]. apply negb_true_iff in Ha. now rewrite N.eqb_sym. }
  unfold symbol_text. rewrite !Hx by (simpl; auto 8). reflexivity.
Qed.

Lemma functions_inert (isRad : bool) (s : jsstring) :
  lacks sought_by_functions s ->
  fold_left (rewriteFunc isRad) mathFuncs s = s.
Proof.
  intros H.
  assert (Ha : forall x, In x sought_by_functions ->
                         forallb (fun c => negb (N.eqb x c)) s = true)
    by (intros x Hx; exact (@lacks_absent _ _ _ Hx H)).
  unfold mathFuncs. cbn [fold_left].
  rewrite (@trig_step_absent isRad (lit "sin") 105%N s);
    [| simpl; auto | simpl; auto | apply Ha; simpl; auto].
  rewrite (@trig_step_absent isRad (lit "cos") 99%N s);
    [| simpl; auto | simpl; auto | apply Ha; simpl; auto].
  rewrite (@trig_step_absent isRad (lit "tan") 110%N s);
    [| simpl; auto | simpl; auto | apply Ha; simpl; auto 8].
  rewrite rewriteFunc_log, rewriteFunc_log10, rewriteFunc_abs. unfold re_call.
  rewrite (@replace_all_absent (lit "ln") _ _ 108%N s); [| simpl; auto | apply Ha; simpl; auto 8].
  rewrite (@replace_all_absent (lit "log") _ _ 108%N s); [| simpl; auto | apply Ha; simpl; auto 8].
  rewrite (@replace_all_absent (lit "abs") _ _ 98%N s); [| simpl; auto | apply Ha; simpl; auto 8].
  reflexivity.
Qed.

Lemma sqrt_steps_absent (s : jsstring) :
  forallb (fun c => negb (N.eqb cu_sqrt c)) s = true ->
  replace_all re_sqrt_paren sqrt_template s = s /\
  replace_all re_sqrt_digits sqrt_template s = s.
Proof.
  intros H. split.
  - change re_sqrt_paren
      with (re_lit [cu_sqrt]
              (Seq (chr "(") (Seq (Group 1 (Plus (NoneOf (lit ")")))) (chr ")")))).
    apply (@replace_all_absent [cu_sqrt] _ _ cu_sqrt s); [now left | exact H].
  - change re_sqrt_digits with (re_lit [cu_sqrt] (Group 1 (Plus Digit))).
    apply (@replace_all_absent [cu_sqrt] _ _ cu_sqrt s); [now left | exact H].
Qed.

Lemma before_functions_inert (s : jsstring) :
  lacks sought_before s -> before_functions s = s.
Proof.
  intros H. unfold before_functions.
  rewrite symbols_flat_map, (@symbols_inert s (lacks_incl (incl_appl _ (incl_refl _)) H)).
  rewrite pow_step_absent by (apply (@lacks_absent sought_before); [simpl; auto 8 | exact H]).
  destruct (@sqrt_steps_absent s) as [H1 H2];
    [apply (@lacks_absent sought_before); [simpl; auto 8 | exact H] |].
  rewrite H1, H2. reflexivity.
Qed.

Lemma normalize_inert (isRad : bool) (s : jsstring) :
  lacks sought_before s -> lacks sought_by_functions s -> normalize isRad s = s.
Proof.
  intros H1 H2. rewrite normalize_split, (@before_functions_inert s H1).
  now apply functions_inert.
Qed.

Lemma digits_lack (l ds : jsstring) :
  forallb (fun c => negb (is_digit c)) l = true ->
  forallb is_digit ds = true ->
  lacks l ds.
Proof.
  intros Hl. apply forallb_weaken. intros c Hc. apply negb_true_iff.
  destruct (existsb (N.eqb c) l) eqn:He; [| reflexivity].
  apply existsb_exists in He as (y & Hy & Heq). apply N.eqb_eq in Heq. subst y.
  rewrite forallb_forall in Hl. specialize (Hl c Hy). rewrite Hc in Hl. discriminate Hl.
Qed.

Ltac lex_prefix :=
  cbn [lit list_ascii_of_string map app];
  repeat first [rewrite tokenize_space | erewrite tokenize_token by reflexivity].

(** ** Texts around a run of digits *)

Lemma digits_no_match (c : N) (f : jsstring) (r : regex) (ds rest : jsstring) :
  is_digit c = false ->
  forallb is_digit ds = true ->
  no_match_in (re_lit (c :: f) r) ds rest.
Proof.
  intros Hc. induction ds as [|d ds IH]; intros Hds; [exact I |].
  simpl in Hds. apply andb_true_iff in Hds as [Hd Hds].
  split; [| exact (IH Hds)].
  unfold match_here. cbn [app re_lit rmatch cset_mem].
  destruct (N.eqb_spec c d) as [-> | _]; [congruence | reflexivity].
Qed.

(** A pattern that starts with a letter finds nothing in a text made of
    [before], a run of digits and [after], when it finds nothing in [before]
    and in [after]. *)
Lemma step_over_digits (name : jsstring) (c : N) (f : jsstring) (r : regex)
      (tmpl : list piece) (before ds after : jsstring) :
  name = c :: f ->
  is_digit c = false ->
  forallb is_digit ds = true ->
  no_match_in (re_lit name r) before (ds ++ after) ->
  replace_all (re_lit name r) tmpl after = after ->
  replace_all (re_lit name r) tmpl (before ++ ds ++ after) = before ++ ds ++ after.
Proof.
  intros -> Hc Hds Hb Ha.
  rewrite (@replace_all_prefix_none _ tmpl before (ds ++ after) Hb).
  rewrite (@replace_all_prefix_none _ tmpl ds after (@digits_no_match c f r ds after Hc Hds)).
  rewrite Ha. reflexivity.
Qed.

(** ** A number literal, alone and as an argument *)

Ltac lex_number Hds Hx :=
  erewrite tokenize_number;
  [| exact Hds | first [exact I | left; reflexivity | right; reflexivity] | exact Hx].

Ltac lacks_tac :=
  repeat apply lacks_app;
  first [reflexivity | apply digits_lack; [reflexivity | assumption]].

Ltac skip_step before after :=
  erewrite (@step_over_digits _ _ _ _ _ before _ after);
  [| reflexivity | reflexivity | assumption | repeat split; reflexivity | reflexivity].

Lemma calculate_of_run (E : Js.Engine) (isRad : bool) (s t : jsstring) (v : Js.value) :
  normalize isRad s = t -> Js.run E t = Js.Done v ->
  calculate E isRad s = Js.Normal (finalResult (Js.to_number v)).
Proof. intros <- H. now apply calculate_run_done. Qed.

Lemma calculate_of_throw (E : Js.Engine) (isRad : bool) (s t : jsstring) (e : Js.error) :
  normalize isRad s = t -> Js.run E t = Js.Throws e ->
  calculate E isRad s = Js.Throw e.
Proof. intros <- H. now apply calculate_run_throws. Qed.

Lemma digits_are_numbers (ds : jsstring) :
  forallb is_digit ds = true -> forallb (cset_mem (DigitOr (lit "."))) ds = true.
Proof. apply forallb_weaken. intros c Hc. simpl. now rewrite Hc. Qed.

Lemma digits_are_no_paren (ds : jsstring) :
  forallb is_digit ds = true -> forallb (cset_mem (NoneOf (lit ")"))) ds = true.
Proof.
  apply forallb_weaken. intros c Hc. simpl.
  destruct (N.eqb_spec c 41) as [-> | _]; [discriminate Hc | reflexivity].
Qed.

Section Literal.

Variable E : Js.Engine.
Variables (ds : jsstring) (x : float).
Hypothesis Hds : all_digits ds.
Hypothesis Hx : Js.number_token ds [] [] = Js.Done (Js.TNum x).

Let Hd : forallb is_digit ds = true := proj2 Hds.

Lemma literal_text (isRad : bool) : normalize isRad ds = ds.
Proof. apply normalize_inert; lacks_tac. Qed.

Lemma closed_text (isRad : bool) : normalize isRad (ds ++ lit ")") = ds ++ lit ")".
Proof. apply normalize_inert; lacks_tac. Qed.

Lemma literal_run : Js.run E ds = Js.Done (Js.VNumber x).
Proof.
  unfold Js.run. rewrite <- (app_nil_r ds). lex_number Hds Hx. reflexivity.
Qed.

Lemma log_text (isRad : bool) :
  normalize isRad (lit "log(" ++ ds ++ lit ")") = lit "Math.log10(" ++ ds ++ lit ")".
Proof.
  rewrite (proj1 (function_prefixes isRad _)), closed_text. reflexivity.
Qed.

Lemma log_run : Js.run E (lit "Math.log10(" ++ ds ++ lit ")") = Js.Done (Js.VNumber (Js.Math_log10 E x)).
Proof. unfold Js.run. lex_prefix. lex_number Hds Hx. reflexivity. Qed.

Lemma ln_text (isRad : bool) :
  normalize isRad (lit "ln(" ++ ds ++ lit ")") = lit "Math.Math.log10(" ++ ds ++ lit ")".
Proof. rewrite ln_prefix, closed_text. reflexivity. Qed.

Lemma ln_run : Js.run E (lit "Math.Math.log10(" ++ ds ++ lit ")") = Js.Throws Js.TypeError.
Proof. unfold Js.run. lex_prefix. lex_number Hds Hx. reflexivity. Qed.

Lemma abs_text (isRad : bool) :
  normalize isRad (lit "abs(" ++ ds ++ lit ")") = lit "Math.abs(" ++ ds ++ lit ")".
Proof.
  rewrite (proj1 (proj2 (function_prefixes isRad _))), closed_text. reflexivity.
Qed.

Lemma abs_run : Js.run E (lit "Math.abs(" ++ ds ++ lit ")") = Js.Done (Js.VNumber (PrimFloat.abs x)).
Proof. unfold Js.run. lex_prefix. lex_number Hds Hx. reflexivity. Qed.

Lemma sqrt_run :
  Js.run E (lit "Math.sqrt(" ++ ds ++ lit ")") = Js.Done (Js.VNumber (PrimFloat.sqrt x)).
Proof. unfold Js.run. lex_prefix. lex_number Hds Hx. reflexivity. Qed.

Lemma sqrt_digits_text (isRad : bool) :
  normalize isRad ([cu_sqrt] ++ ds) = lit "Math.sqrt(" ++ ds ++ lit ")".
Proof.
  rewrite normalize_split. unfold before_functions.
  rewrite symbols_flat_map, symbols_inert by lacks_tac.
  rewrite pow_step_absent by (apply (@lacks_absent [94%N]); [now left | lacks_tac]).
  change re_sqrt_paren
    with (re_lit [cu_sqrt; 40%N] (Seq (Group 1 (Plus (NoneOf (lit ")")))) (chr ")"))).
  rewrite (@replace_all_absent [cu_sqrt; 40%N] _ _ 40%N)
    by first [simpl; tauto | apply (@lacks_absent [40%N]); [now left | lacks_tac]].
  change ([cu_sqrt] ++ ds) with (cu_sqrt :: ds).
  rewrite (sqrt_digits_step Hds).
  apply functions_inert. lacks_tac.
Qed.

Lemma sqrt_paren_text (isRad : bool) :
  normalize isRad ([cu_sqrt] ++ lit "(" ++ ds ++ lit ")") = lit "Math.sqrt(" ++ ds ++ lit ")".
Proof.
  rewrite normalize_split. unfold before_functions.
  rewrite symbols_flat_map, symbols_inert by lacks_tac.
  rewrite pow_step_absent by (apply (@lacks_absent [94%N]); [now left | lacks_tac]).
  change ([cu_sqrt] ++ lit "(" ++ ds ++ lit ")") with (cu_sqrt :: lit "(" ++ ds ++ lit ")").
  rewrite (@sqrt_paren_step ds (proj1 Hds) (digits_are_no_paren ds Hd)).
  destruct (@sqrt_steps_absent (lit "Math.sqrt(" ++ ds ++ lit ")")) as [_ H2];
    [apply (@lacks_absent [cu_sqrt]); [now left | lacks_tac] |].
  rewrite H2. apply functions_inert. lacks_tac.
Qed.

Lemma trig_rad_text (func : jsstring) :
  In func [lit "sin"; lit "cos"; lit "tan"] ->
  normalize true (func ++ lit "(" ++ ds ++ lit ")") = lit "Math." ++ func ++ lit "(" ++ ds ++ lit ")".
Proof.
  intros [<- | [<- | [<- | []]]].
  - change (lit "sin" ++ lit "(" ++ ds ++ lit ")") with (lit "sin(" ++ ds ++ lit ")").
    rewrite (proj1 (proj2 (proj2 (function_prefixes true _)))), closed_text.
    reflexivity.
  - change (lit "cos" ++ lit "(" ++ ds ++ lit ")") with (lit "cos(" ++ ds ++ lit ")").
    rewrite (proj1 (proj2 (proj2 (proj2 (function_prefixes true _))))), closed_text.
    reflexivity.
  - change (lit "tan" ++ lit "(" ++ ds ++ lit ")") with (lit "tan(" ++ ds ++ lit ")").
    rewrite (proj2 (proj2 (proj2 (proj2 (function_prefixes true _))))), closed_text.
    reflexivity.
Qed.

Lemma trig_deg_text (func : jsstring) :
  In func [lit "sin"; lit "cos"; lit "tan"] ->
  normalize false (func ++ lit "(" ++ ds ++ lit ")") =
  lit "Math." ++ func ++ lit "((" ++ ds ++ lit ") * Math.PI / 180)".
Proof.
  intros Hf. rewrite normalize_split.
  rewrite before_functions_inert
    by (destruct Hf as [<- | [<- | [<- | []]]]; lacks_tac).
  unfold mathFuncs. cbn [fold_left].
  rewrite rewriteFunc_log, rewriteFunc_log10, rewriteFunc_abs.
  pose proof (fun f Hf' => proj1 (@trig_call_step f ds Hf' (proj1 Hds)
                                     (digits_are_numbers ds Hd))) as Hcall.
  destruct Hf as [<- | [<- | [<- | []]]].
  - rewrite (Hcall (lit "sin")) by (simpl; auto).
    rewrite !rewriteFunc_deg by (simpl; auto). unfold re_call, re_call_deg.
    change (lit "Math." ++ lit "sin" ++ lit "((" ++ ds ++ lit ") * Math.PI / 180)")
      with (lit "Math.sin((" ++ ds ++ lit ") * Math.PI / 180)").
    do 5 skip_step (lit "Math.sin((") (lit ") * Math.PI / 180)"). reflexivity.
  - rewrite (@rewriteFunc_deg (lit "sin")) by (simpl; auto). unfold re_call_deg at 1.
    change (lit "cos" ++ lit "(" ++ ds ++ lit ")") with (lit "cos(" ++ ds ++ lit ")").
    skip_step (lit "cos(") (lit ")").
    change (lit "cos(" ++ ds ++ lit ")") with (lit "cos" ++ lit "(" ++ ds ++ lit ")").
    rewrite (Hcall (lit "cos")) by (simpl; auto).
    rewrite !rewriteFunc_deg by (simpl; auto). unfold re_call, re_call_deg.
    change (lit "Math." ++ lit "cos" ++ lit "((" ++ ds ++ lit ") * Math.PI / 180)")
      with (lit "Math.cos((" ++ ds ++ lit ") * Math.PI / 180)").
    do 4 skip_step (lit "Math.cos((") (lit ") * Math.PI / 180)"). reflexivity.
  - rewrite (@rewriteFunc_deg (lit "sin")), (@rewriteFunc_deg (lit "cos")) by (simpl; auto).
    unfold re_call_deg at 1 2.
    change (lit "tan" ++ lit "(" ++ ds ++ lit ")") with (lit "tan(" ++ ds ++ lit ")").
    do 2 skip_step (lit "tan(") (lit ")").
    change (lit "tan(" ++ ds ++ lit ")") with (lit "tan" ++ lit "(" ++ ds ++ lit ")").
    rewrite (Hcall (lit "tan")) by (simpl; auto).
    unfold re_call.
    change (lit "Math." ++ lit "tan" ++ lit "((" ++ ds ++ lit ") * Math.PI / 180)")
      with (lit "Math.tan((" ++ ds ++ lit ") * Math.PI / 180)").
    do 3 skip_step (lit "Math.tan((") (lit ") * Math.PI / 180)"). reflexivity.
Qed.

Lemma trig_rad_run (func : jsstring) :
  In func [lit "sin"; lit "cos"; lit "tan"] ->
  Js.run E (lit "Math." ++ func ++ lit "(" ++ ds ++ lit ")") =
  Js.Done (Js.VNumber (trig_function E func x)).
Proof.
  intros [<- | [<- | [<- | []]]];
    unfold Js.run; lex_prefix; lex_number Hds Hx; reflexivity.
Qed.

Lemma trig_deg_run (func : jsstring) :
  In func [lit "sin"; lit "cos"; lit "tan"] ->
  Js.run E (lit "Math." ++ func ++ lit "((" ++ ds ++ lit ") * Math.PI / 180)") =
  Js.Done (Js.VNumber (trig_function E func
                         (PrimFloat.div (PrimFloat.mul x Js.Math_PI) 180))).
Proof.
  intros [<- | [<- | [<- | []]]];
    unfold Js.run; lex_prefix; lex_number Hds Hx; reflexivity.
Qed.

End Literal.

Section Power.

Variable E : Js.Engine.
Variables (a b : jsstring) (xa xb : float).
Hypothesis Ha : all_digits a.
Hypothesis Hb : all_digits b.
Hypothesis Hxa : Js.number_token a [] [] = Js.Done (Js.TNum xa).
Hypothesis Hxb : Js.number_token b [] [] = Js.Done (Js.TNum xb).

Let Hda : forallb is_digit a = true := proj2 Ha.
Let Hdb : forallb is_digit b = true := proj2 Hb.

Lemma pow_text (isRad : bool) :
  normalize isRad (a ++ lit "^" ++ b) = lit "Math.pow(" ++ a ++ lit ", " ++ b ++ lit ")".
Proof.
  rewrite normalize_split. unfold before_functions.
  rewrite symbols_flat_map, symbols_inert by lacks_tac.
  rewrite (pow_step Ha Hb).
  destruct (@sqrt_steps_absent (lit "Math.pow(" ++ a ++ lit ", " ++ b ++ lit ")")) as [H1 H2];
    [apply (@lacks_absent [cu_sqrt]); [now left | lacks_tac] |].
  rewrite H1, H2. apply functions_inert. lacks_tac.
Qed.

Lemma pow_run :
  Js.run E (lit "Math.pow(" ++ a ++ lit ", " ++ b ++ lit ")") =
  Js.Done (Js.VNumber (Js.Math_pow E xa xb)).
Proof.
  unfold Js.run. lex_prefix. lex_number Ha Hxa. lex_prefix. lex_number Hb Hxb. reflexivity.
Qed.

End Power.

(** ** Evaluations with any number literal *)

Lemma handleCalculate_of_run (E : Js.Engine) (s d h t : jsstring) (isRad : bool)
      (v : Js.value) :
  normalize isRad s = t -> Js.run E t = Js.Done v ->
  handleCalculate E (mkState s d isRad h) =
  mkState (Number.toString (finalResult (Js.to_number v)))
          (Number.toString (finalResult (Js.to_number v))) isRad s.
Proof.
  intros Ht Hr.
  apply (@handleCalculate_normal E (mkState s d isRad h)).
  eapply calculate_of_run; eassumption.
Qed.

(** A buffer without any of the characters that the rewriting looks for (the
    symbols of line 93, the root sign, the caret, and a letter of each
    function name) is run as it is. *)
Theorem plain_text_is_run_unchanged :
  forall (isRad : bool) (s : jsstring),
    lacks sought_before s -> lacks sought_by_functions s -> normalize isRad s = s.
Proof. exact normalize_inert. Qed.

Lemma plain_text_is_run_unchanged_witness :
  normalize false (lit "(2+3)*4-1.5/2") = lit "(2+3)*4-1.5/2".
Proof.
  apply (@plain_text_is_run_unchanged false (lit "(2+3)*4-1.5/2")).
  - reflexivity.
  - reflexivity.
Defined.

(** A buffer that is one number literal evaluates to the rounding of its
    value, in both modes; the evaluation shows the string of that Number,
    makes it the buffer and puts the literal in the history. *)
Theorem number_literal_is_evaluated :
  forall (E : Js.Engine) (isRad : bool) (ds d h : jsstring) (x : float),
    reads_as ds x ->
    normalize isRad ds = ds /\
    calculate E isRad ds = Js.Normal (finalResult x) /\
    handleCalculate E (mkState ds d isRad h) =
    mkState (Number.toString (finalResult x)) (Number.toString (finalResult x)) isRad ds.
Proof.
  intros E isRad ds d h x [Hds Hx].
  assert (Ht : normalize isRad ds = ds) by (now apply literal_text).
  assert (Hr : Js.run E ds = Js.Done (Js.VNumber x)) by (now apply literal_run).
  split; [exact Ht |]. split.
  - apply (@calculate_of_run E isRad ds ds (Js.VNumber x) Ht Hr).
  - apply (@handleCalculate_of_run E ds d h ds isRad (Js.VNumber x) Ht Hr).
Qed.

Lemma number_literal_is_evaluated_witness :
  normalize true (lit "90") = lit "90" /\
  calculate sample_engine true (lit "90") = Js.Normal (finalResult 90) /\
  handleCalculate sample_engine (mkState (lit "90") (lit "90") true []) =
  mkState (Number.toString (finalResult 90)) (Number.toString (finalResult 90)) true (lit "90").
Proof.
  apply (@number_literal_is_evaluated sample_engine true (lit "90") (lit "90") [] 90%float).
  split; [split; [discriminate | reflexivity] | vm_compute; reflexivity].
Defined.

(** The base-10 logarithm, the absolute value and both forms of the square
    root of a number literal evaluate, in both modes, to the rounding of the
    engine's function at the value of the literal. *)
Theorem functions_of_a_number :
  forall (E : Js.Engine) (isRad : bool) (ds : jsstring) (x : float),
    reads_as ds x ->
    calculate E isRad (lit "log(" ++ ds ++ lit ")") =
    Js.Normal (finalResult (Js.Math_log10 E x)) /\
    calculate E isRad (lit "abs(" ++ ds ++ lit ")") =
    Js.Normal (finalResult (PrimFloat.abs x)) /\
    calculate E isRad ([cu_sqrt] ++ ds) = Js.Normal (finalResult (PrimFloat.sqrt x)) /\
    calculate E isRad ([cu_sqrt] ++ lit "(" ++ ds ++ lit ")") =
    Js.Normal (finalResult (PrimFloat.sqrt x)).
Proof.
  intros E isRad ds x [Hds Hx]. repeat split.
  - eapply (@calculate_of_run E isRad _ _ (Js.VNumber _));
      [now apply log_text | now apply log_run].
  - eapply (@calculate_of_run E isRad _ _ (Js.VNumber _));
      [now apply abs_text | now apply abs_run].
  - eapply (@calculate_of_run E isRad _ _ (Js.VNumber _));
      [now apply sqrt_digits_text | now apply sqrt_run].
  - eapply (@calculate_of_run E isRad _ _ (Js.VNumber _));
      [now apply sqrt_paren_text | now apply sqrt_run].
Qed.

Lemma functions_of_a_number_witness :
  calculate sample_engine false (lit "log(" ++ lit "100" ++ lit ")") =
  Js.Normal (finalResult (Js.Math_log10 sample_engine 100)) /\
  calculate sample_engine false (lit "abs(" ++ lit "100" ++ lit ")") =
  Js.Normal (finalResult (PrimFloat.abs 100)) /\
  calculate sample_engine false ([cu_sqrt] ++ lit "100") =
  Js.Normal (finalResult (PrimFloat.sqrt 100)) /\
  calculate sample_engine false ([cu_sqrt] ++ lit "(" ++ lit "100" ++ lit ")") =
  Js.Normal (finalResult (PrimFloat.sqrt 100)).
Proof.
  apply (@functions_of_a_number sample_engine false (lit "100") 100%float).
  split; [split; [discriminate | reflexivity] | vm_compute; reflexivity].
Defined.

(** The natural logarithm of any number literal fails: the text that is run
    is "Math.Math.log10(...)", the run throws a TypeError in both modes, and
    the evaluation shows "Error", empties the buffer and keeps the history. *)
Theorem ln_of_a_number_fails :
  forall (E : Js.Engine) (isRad : bool) (ds d h : jsstring) (x : float),
    reads_as ds x ->
    calculate E isRad (lit "ln(" ++ ds ++ lit ")") = Js.Throw Js.TypeError /\
    handleCalculate E (mkState (lit "ln(" ++ ds ++ lit ")") d isRad h) =
    mkState [] (lit "Error") isRad h.
Proof.
  intros E isRad ds d h x [Hds Hx].
  assert (Hc : calculate E isRad (lit "ln(" ++ ds ++ lit ")") = Js.Throw Js.TypeError)
    by (eapply calculate_of_throw; [now apply ln_text | now apply (@ln_run E ds x)]).
  split; [exact Hc |].
  exact (@handleCalculate_throw E (mkState (lit "ln(" ++ ds ++ lit ")") d isRad h) _ Hc).
Qed.

Lemma ln_of_a_number_fails_witness :
  calculate sample_engine false (lit "ln(" ++ lit "1" ++ lit ")") = Js.Throw Js.TypeError /\
  handleCalculate sample_engine (mkState (lit "ln(" ++ lit "1" ++ lit ")") (lit "ln(1)") false (lit "2+3")) =
  mkState [] (lit "Error") false (lit "2+3").
Proof.
  apply (@ln_of_a_number_fails sample_engine false (lit "1") (lit "ln(1)") (lit "2+3") 1%float).
  split; [split; [discriminate | reflexivity] | vm_compute; reflexivity].
Defined.

(** The sine, cosine or tangent of a number literal: in Radian mode the
    engine's function is applied to the value of the literal, in Degree mode
    to that value times pi, divided by 180 (two roundings); the result is
    rounded as every result is. *)
Theorem trig_of_a_number :
  forall (E : Js.Engine) (func ds : jsstring) (x : float),
    In func [lit "sin"; lit "cos"; lit "tan"] ->
    reads_as ds x ->
    calculate E true (func ++ lit "(" ++ ds ++ lit ")") =
    Js.Normal (finalResult (trig_function E func x)) /\
    calculate E false (func ++ lit "(" ++ ds ++ lit ")") =
    Js.Normal (finalResult
                 (trig_function E func (PrimFloat.div (PrimFloat.mul x Js.Math_PI) 180))).
Proof.
  intros E func ds x Hf [Hds Hx]. split.
  - eapply (@calculate_of_run E true _ _ (Js.VNumber _));
      [now apply trig_rad_text | now apply trig_rad_run].
  - eapply (@calculate_of_run E false _ _ (Js.VNumber _));
      [now apply trig_deg_text | now apply trig_deg_run].
Qed.

Lemma trig_of_a_number_witness :
  calculate sample_engine true (lit "cos" ++ lit "(" ++ lit "0" ++ lit ")") =
  Js.Normal (finalResult (trig_function sample_engine (lit "cos") 0)) /\
  calculate sample_engine false (lit "cos" ++ lit "(" ++ lit "0" ++ lit ")") =
  Js.Normal (finalResult
               (trig_function sample_engine (lit "cos")
                  (PrimFloat.div (PrimFloat.mul 0 Js.Math_PI) 180))).
Proof.
  apply (@trig_of_a_number sample_engine (lit "cos") (lit "0") 0%float).
  - right. left. reflexivity.
  - split; [split; [discriminate | reflexivity] | vm_compute; reflexivity].
Defined.

(** A number literal, a caret and a number literal evaluate, in both modes,
    to the rounding of the engine's power of the two values. *)
Theorem power_of_two_literals :
  forall (E : Js.Engine) (isRad : bool) (a b : jsstring) (xa xb : float),
    reads_as a xa -> reads_as b xb ->
    normalize isRad (a ++ lit "^" ++ b) = lit "Math.pow(" ++ a ++ lit ", " ++ b ++ lit ")" /\
    calculate E isRad (a ++ lit "^" ++ b) = Js.Normal (finalResult (Js.Math_pow E xa xb)).
Proof.
  intros E isRad a b xa xb [Ha Hxa] [Hb Hxb].
  assert (Ht : normalize isRad (a ++ lit "^" ++ b) =
               lit "Math.pow(" ++ a ++ lit ", " ++ b ++ lit ")") by (now apply pow_text).
  split; [exact Ht |].
  eapply (@calculate_of_run E isRad _ _ (Js.VNumber _)); [exact Ht | now apply pow_run].
Qed.

Lemma power_of_two_literals_witness :
  normalize false (lit "2" ++ lit "^" ++ lit "10") =
  lit "Math.pow(" ++ lit "2" ++ lit ", " ++ lit "10" ++ lit ")" /\
  calculate sample_engine false (lit "2" ++ lit "^" ++ lit "10") =
  Js.Normal (finalResult (Js.Math_pow sample_engine 2 10)).
Proof.
  apply (@power_of_two_literals sample_engine false (lit "2") (lit "10") 2%float 10%float).
  - split; [split; [discriminate | reflexivity] | vm_compute; reflexivity].
  - split; [split; [discriminate | reflexivity] | vm_compute; reflexivity].
Defined.

(** ** A constant directly after a number *)

Lemma plus_loop_digits_fail (tl : jsstring) (k : cont) :
  (forall ds' caps', forallb is_digit ds' = true -> k (ds' ++ 77%N :: tl) caps' = None) ->
  forall (ds : jsstring) (caps : captures),
    forallb is_digit ds = true ->
    plus_loop Digit (ds ++ 77%N :: tl) caps k = None.
Proof.
  intros Hk. induction ds as [|d ds IH]; intros caps Hds.
  - cbn [app plus_loop cset_mem]. change (is_digit 77) with false. cbv iota.
    exact (Hk [] caps eq_refl).
  - pose proof Hds as Hds'. cbn [forallb] in Hds'. apply andb_true_iff in Hds' as [Hd Hds'].
    cbn [app plus_loop cset_mem]. rewrite Hd, (IH caps Hds').
    exact (Hk (d :: ds) caps Hds).
Qed.

Lemma digit_is_not (c x : N) : is_digit c = false -> is_digit x = true -> N.eqb c x = false.
Proof.
  intros Hc Hx. destruct (N.eqb_spec c x) as [-> | _]; [congruence | reflexivity].
Qed.

(** No power starts in a run of digits that a capital M follows. *)
Lemma pow_not_before_M (ds tl : jsstring) :
  forallb is_digit ds = true -> match_here re_pow (ds ++ 77%N :: tl) = None.
Proof.
  intros Hds. unfold match_here, re_pow, re_number. cbn [rmatch].
  destruct ds as [|d ds]; [reflexivity |].
  cbn [forallb] in Hds. apply andb_true_iff in Hds as [Hd Hds].
  cbn [app cset_mem]. rewrite Hd.
  apply plus_loop_digits_fail; [| exact Hds].
  intros ds' caps' Hds'. unfold chr. cbn [lit list_ascii_of_string map rmatch cset_mem].
  destruct ds' as [|x ds']; [reflexivity |].
  cbn [forallb] in Hds'. apply andb_true_iff in Hds' as [Hx _].
  cbn [app]. change (N_of_ascii ".") with 46%N. change (N_of_ascii "^") with 94%N.
  rewrite (@digit_is_not 46 x eq_refl Hx), (@digit_is_not 94 x eq_refl Hx). reflexivity.
Qed.

Lemma first_char_no_match (c : N) (f : jsstring) (r : regex) (x : N) (s : jsstring) :
  N.eqb c x = false -> match_here (re_lit (c :: f) r) (x :: s) = None.
Proof. intros H. unfold match_here. cbn [re_lit rmatch cset_mem]. rewrite H. reflexivity. Qed.

(** A pattern that starts with a character that is neither a digit nor a
    capital M finds nothing in a run of digits that a capital M follows. *)
Lemma name_not_before_M (name : jsstring) (c : N) (f : jsstring) (r : regex)
      (ds tl : jsstring) :
  name = c :: f -> is_digit c = false -> N.eqb c 77 = false ->
  forallb is_digit ds = true ->
  match_here (re_lit name r) (ds ++ 77%N :: tl) = None.
Proof.
  intros -> Hc HM Hds. destruct ds as [|d ds]; cbn [app].
  - now apply first_char_no_match.
  - cbn [forallb] in Hds. apply andb_true_iff in Hds as [Hd _].
    apply first_char_no_match. now apply digit_is_not.
Qed.

(** A step whose pattern finds nothing there keeps a run of digits and the
    capital M after it. *)
Lemma step_keeps_number_M (r : regex) (tmpl : list piece) :
  (forall ds tl, forallb is_digit ds = true -> match_here r (ds ++ 77%N :: tl) = None) ->
  forall ds tl,
    forallb is_digit ds = true ->
    replace_all r tmpl (ds ++ 77%N :: tl) = ds ++ 77%N :: replace_all r tmpl tl.
Proof.
  intros Hr ds tl Hds.
  assert (Hn : no_match_in r (ds ++ [77%N]) tl).
  { induction ds as [|d ds IH].
    - split; [exact (Hr [] tl eq_refl) | exact I].
    - pose proof Hds as Hds'. cbn [forallb] in Hds'.
      apply andb_true_iff in Hds' as [_ Hds'].
      split; [| exact (IH Hds')].
      cbn [app]. rewrite <- app_assoc. exact (Hr (d :: ds) tl Hds). }
  pose proof (@replace_all_prefix_none r tmpl (ds ++ [77%N]) tl Hn) as H.
  rewrite <- !app_assoc in H. exact H.
Qed.

Lemma rewriteFunc_keeps_number_M (isRad : bool) (func ds tl : jsstring) :
  In func mathFuncs -> forallb is_digit ds = true ->
  number_then_M ds (rewriteFunc isRad (ds ++ 77%N :: tl) func).
Proof.
  intros Hf Hds. unfold mathFuncs in Hf.
  destruct Hf as [<- | [<- | [<- | [<- | [<- | [<- | []]]]]]]; destruct isRad;
    unfold rewriteFunc; cbn [str_eqb includes existsb andb orb negb];
    (eexists; apply step_keeps_number_M; [| exact Hds]; intros ds' tl' Hds';
     unfold re_call, re_call_deg;
     eapply name_not_before_M; [reflexivity | reflexivity | reflexivity | exact Hds']).
Qed.

Lemma functions_keep_number_M (isRad : bool) (ds : jsstring) :
  forallb is_digit ds = true ->
  forall (fs : list jsstring) (s : jsstring),
    incl fs mathFuncs -> number_then_M ds s ->
    number_then_M ds (fold_left (rewriteFunc isRad) fs s).
Proof.
  intros Hds. induction fs as [|f fs IH]; intros s Hfs Hs; [exact Hs |].
  cbn [fold_left]. apply IH; [intros x Hx; apply Hfs; now right |].
  destruct Hs as [tl ->]. apply rewriteFunc_keeps_number_M; [apply Hfs; now left | exact Hds].
Qed.

(** A constant written directly after a number: the text that is run starts
    with the number and the capital M of "Math". *)
Lemma constant_after_number_text (isRad : bool) (ds : jsstring) (c : N) (rest : jsstring) :
  forallb is_digit ds = true -> c = cu_pi \/ c = 101%N ->
  number_then_M ds (normalize isRad (ds ++ c :: rest)).
Proof.
  intros Hds Hc. rewrite normalize_split.
  apply functions_keep_number_M; [exact Hds | apply incl_refl |].
  unfold before_functions. rewrite symbols_flat_map, flat_map_app.
  rewrite (@symbols_inert ds) by (apply digits_lack; [reflexivity | exact Hds]).
  cbn [flat_map].
  assert (Hm : exists t, symbol_text c = 77%N :: t)
    by (destruct Hc as [-> | ->]; eexists; reflexivity).
  destruct Hm as [t ->]. cbn [app].
  rewrite (@step_keeps_number_M re_pow pow_template pow_not_before_M ds _ Hds).
  rewrite (@step_keeps_number_M re_sqrt_paren sqrt_template) ; [| | exact Hds].
  2:{ intros ds' tl' Hds'.
      change re_sqrt_paren
        with (re_lit [cu_sqrt]
                (Seq (chr "(") (Seq (Group 1 (Plus (NoneOf (lit ")")))) (chr ")")))).
      eapply name_not_before_M; [reflexivity | reflexivity | reflexivity | exact Hds']. }
  rewrite (@step_keeps_number_M re_sqrt_digits sqrt_template) ; [| | exact Hds].
  2:{ intros ds' tl' Hds'.
      change re_sqrt_digits with (re_lit [cu_sqrt] (Group 1 (Plus Digit))).
      eapply name_not_before_M; [reflexivity | reflexivity | reflexivity | exact Hds']. }
  eexists. reflexivity.
Qed.

(** A number that a capital M follows is no token. *)
Lemma tokenize_number_M (ds tl : jsstring) :
  all_digits ds -> Js.tokenize (ds ++ 77%N :: tl) = Js.Done [Js.TInvalid Js.SyntaxError].
Proof.
  intros [Hne Hds]. destruct ds as [|d ds]; [congruence |].
  pose proof Hds as Hd. cbn [forallb] in Hd. apply andb_true_iff in Hd as [Hd _].
  unfold Js.tokenize. cbn [app]. rewrite tokens_unfold, (digit_is_no_space d Hd).
  unfold Js.next_token. unfold Js.is_digit at 1. rewrite Hd.
  change (d :: ds ++ 77%N :: tl) with ((d :: ds) ++ 77%N :: tl).
  rewrite (@span_digits (d :: ds) (77%N :: tl) Hds eq_refl).
  reflexivity.
Qed.

(** A number directly followed by the constant pi or e, as in an implied
    product or in the exponent notation of a result ("1e-7"), is a syntax
    error in both modes, whatever follows: the constant becomes "Math.PI" or
    "Math.E", no later step touches the number or the capital M, and a
    numeric literal may not be followed by a letter.  The evaluation shows
    "Error", empties the buffer and keeps the history. *)
Theorem constant_after_number_is_a_syntax_error :
  forall (E : Js.Engine) (isRad : bool) (ds : jsstring) (c : N) (rest d h : jsstring),
    all_digits ds -> c = cu_pi \/ c = 101%N ->
    calculate E isRad (ds ++ c :: rest) = Js.Throw Js.SyntaxError /\
    handleCalculate E (mkState (ds ++ c :: rest) d isRad h) = mkState [] (lit "Error") isRad h.
Proof.
  intros E isRad ds c rest d h Hds Hc.
  destruct (@constant_after_number_text isRad ds c rest (proj2 Hds) Hc) as [tl Ht].
  assert (Hr : Js.run E (ds ++ 77%N :: tl) = Js.Throws Js.SyntaxError)
    by (unfold Js.run; rewrite (tokenize_number_M tl Hds); reflexivity).
  assert (H : calculate E isRad (ds ++ c :: rest) = Js.Throw Js.SyntaxError)
    by (eapply calculate_of_throw; [exact Ht | exact Hr]).
  split; [exact H |].
  exact (@handleCalculate_throw E (mkState (ds ++ c :: rest) d isRad h) _ H).
Qed.

Lemma constant_after_number_is_a_syntax_error_witness :
  calculate sample_engine false (lit "1" ++ 101%N :: lit "-7") = Js.Throw Js.SyntaxError /\
  handleCalculate sample_engine (mkState (lit "1" ++ 101%N :: lit "-7") (lit "1e-7") false []) =
  mkState [] (lit "Error") false [].
Proof.
  apply (@constant_after_number_is_a_syntax_error sample_engine false (lit "1") 101%N
           (lit "-7") (lit "1e-7") []).
  - split; [discriminate | reflexivity].
  - right. reflexivity.
Defined.

(** The result of "0.0000001" is shown as "1e-7"; evaluating it again gives
    "Error". *)
Example small_result_cannot_be_reused :
  displayValue (handleCalculate sample_engine (entered (lit "0.0000001") false [])) =
  lit "1e-7" /\
  displayValue (handleCalculate sample_engine
                  (handleCalculate sample_engine (entered (lit "0.0000001") false []))) =
  lit "Error".
Proof. vm_compute. split; reflexivity. Qed.

(** ** Keys and handlers *)

(** The listener is five tests in a row, none excluding the next; still a key
    runs one handler at most, and once: handleInput for a key with a digit in
    its name or one of [+ - * / ( ) .], handleCalculate for Enter,
    handleDelete for Backspace, handleClear for Escape, nothing otherwise. *)
Theorem a_key_runs_one_handler :
  forall (E : Js.Engine) (key : jsstring) (c : State),
    handleKeyDown E key c =
    if existsb is_digit key || includes keyboard_tokens key then handleInput_updates key c
    else if str_eqb key (lit "Enter") then handleCalculate_updates E c
    else if str_eqb key (lit "Backspace") then handleDelete_updates c
    else if str_eqb key (lit "Escape") then handleClear_updates
    else [].
Proof. exact handleKeyDown_dispatch. Qed.

(** The test for a digit is not anchored: a key whose name holds a digit
    anywhere, such as F5, is handed whole to handleInput. *)
Theorem keys_named_with_a_digit_are_entered :
  forall (E : Js.Engine) (key : jsstring) (st : State),
    existsb is_digit key = true ->
    commit (handleKeyDown E key st) st = handleInput key st.
Proof.
  intros E key st H. rewrite handleKeyDown_dispatch, H. apply commit_handleInput.
Qed.

Lemma keys_named_with_a_digit_are_entered_witness :
  commit (handleKeyDown sample_engine (lit "F5") initialState) initialState =
  handleInput (lit "F5") initialState.
Proof.
  apply (@keys_named_with_a_digit_are_entered sample_engine (lit "F5") initialState).
  reflexivity.
Defined.

(** ** The characters of a result, and the signs of the keypad *)


Lemma uint_digits (u : Decimal.uint) :
  forallb is_digit (lit (NilZero.string_of_uint u)) = true.
Proof.
  assert (H : forall v, forallb is_digit (lit (NilEmpty.string_of_uint v)) = true)
    by (intros v; induction v; simpl; auto).
  destruct u; try exact (H _); reflexivity.
Qed.

Lemma digits_result_chars (z : Z) : forallb result_char (Number.digits z) = true.
Proof.
  unfold Number.digits. eapply forallb_weaken; [| apply uint_digits].
  intros c Hc. unfold result_char. now rewrite Hc.
Qed.

Lemma forallb_skipn (p : N -> bool) (n : nat) (s : jsstring) :
  forallb p s = true -> forallb p (skipn n s) = true.
Proof.
  revert n. induction s as [|x s IH]; intros [|n] H; simpl in *; try reflexivity; auto.
  apply andb_true_iff in H as [_ Hs]. exact (IH n Hs).
Qed.

Lemma forallb_repeat (p : N -> bool) (c : N) (n : nat) :
  p c = true -> forallb p (repeat c n) = true.
Proof. intros H. induction n as [|n IH]; simpl; [reflexivity | now rewrite H, IH]. Qed.

Lemma layout_result_chars (n k s : Z) : forallb result_char (Number.layout n k s) = true.
Proof.
  pose proof (digits_result_chars s) as Hd.
  pose proof (digits_result_chars (Z.abs (n - 1))) as He.
  unfold Number.layout.
  repeat match goal with
         | |- context [if ?b then _ else _] => destruct b
         end;
    rewrite ?forallb_app, ?forallb_repeat, ?forallb_firstn, ?forallb_skipn, ?Hd, ?He
      by first [reflexivity | assumption];
    reflexivity.
Qed.

(** The string of a Number is made of digits, ".", "-", "+", "e" and the
    letters of "NaN" and "Infinity". *)
Lemma toString_result_chars (x : float) : forallb result_char (Number.toString x) = true.
Proof.
  unfold Number.toString. destruct (Prim2SF x) as [s | [|] | | s m e]; try reflexivity.
  destruct (Number.shortest (Z.pos m) e) as [[n k] z].
  rewrite forallb_app, layout_result_chars. destruct s; reflexivity.
Qed.

Lemma result_has_no_sign (x : float) : no_sign (Number.toString x).
Proof.
  unfold no_sign, lacks. eapply forallb_weaken; [| apply toString_result_chars].
  intros c Hc. unfold result_char in Hc.
  cbn [existsb]. rewrite orb_false_r.
  destruct (N.eqb_spec c cu_times) as [-> | _]; [discriminate Hc |].
  destruct (N.eqb_spec c cu_divide) as [-> | _]; [discriminate Hc | reflexivity].
Qed.

Lemma no_sign_removelast (s : jsstring) : no_sign s -> no_sign (removelast s).
Proof.
  unfold no_sign, lacks. induction s as [|c s IH]; intros H; [exact H |].
  cbn [forallb] in H. apply andb_true_iff in H as [Hc Hs].
  cbn [removelast]. destruct s as [|d s]; [reflexivity |].
  cbn [forallb]. rewrite Hc. exact (IH Hs).
Qed.

Lemma no_sign_handleInput (val : jsstring) (st : State) :
  no_sign val -> no_sign (expression st) -> no_sign (expression (handleInput val st)).
Proof.
  intros Hv Hs. unfold handleInput.
  destruct (str_eqb (displayValue st) (lit "Error")); [exact Hv |].
  cbn [expression setDisplayValue setExpression].
  destruct (str_eqb (expression st) (displayValue st) && negb (includes operators val));
    [exact Hv | now apply lacks_app].
Qed.

Lemma no_sign_handleDelete (st : State) :
  no_sign (expression st) -> no_sign (expression (handleDelete st)).
Proof.
  intros Hs. unfold handleDelete.
  destruct (str_eqb (displayValue st) (lit "Error")); [reflexivity |].
  now apply no_sign_removelast.
Qed.

Lemma no_sign_handleCalculate (E : Js.Engine) (st : State) :
  no_sign (expression (handleCalculate E st)).
Proof.
  unfold handleCalculate. destruct (calculate E (isRad st) (expression st));
    [apply result_has_no_sign | reflexivity].
Qed.

Lemma button_has_no_sign (label token : jsstring) :
  In (Key label token) buttons -> no_sign token.
Proof.
  unfold buttons. intros H.
  repeat (destruct H as [H | H]; [first [discriminate H | injection H as <- <-; reflexivity] |]).
  destruct H.
Qed.

Lemma enters_no_sign_on_keypad (ev : event) : enters_no_sign ev -> on_keypad ev.
Proof. destruct ev; [exact (fun H => H) | exact (fun _ => I)]. Qed.

Lemma no_sign_act (E : Js.Engine) (ev : event) (st : State) :
  enters_no_sign ev -> no_sign (expression st) -> no_sign (expression (act E ev st)).
Proof.
  intros Hev Hs. destruct ev as [b | key]; cbn [act].
  - destruct b as [label token | | | |]; cbn [onClick].
    + rewrite commit_handleInput. apply no_sign_handleInput; [| exact Hs].
      exact (button_has_no_sign Hev).
    + reflexivity.
    + rewrite commit_handleDelete. now apply no_sign_handleDelete.
    + rewrite commit_handleCalculate. apply no_sign_handleCalculate.
    + exact Hs.
  - unfold key_action.
    destruct (existsb is_digit key || includes keyboard_tokens key);
      [now apply no_sign_handleInput |].
    destruct (str_eqb key (lit "Enter")); [apply no_sign_handleCalculate |].
    destruct (str_eqb key (lit "Backspace")); [now apply no_sign_handleDelete |].
    destruct (str_eqb key (lit "Escape")); [reflexivity | exact Hs].
Qed.

Lemma run_events_no_sign (E : Js.Engine) (evs : list event) :
  Forall enters_no_sign evs -> no_sign (expression (current (run_events E evs))).
Proof.
  induction evs as [|ev evs IH] using rev_ind; intros Hevs; [reflexivity |].
  apply Forall_app in Hevs as [Hevs Hev]. inversion Hev as [|? ? Hev' _]; subst.
  assert (Hk : Forall on_keypad evs)
    by (eapply Forall_impl; [apply enters_no_sign_on_keypad | exact Hevs]).
  destruct (@run_events_ok E evs Hk) as [Hok Hwf].
  destruct (@step_acts E (run_events E evs) ev (enters_no_sign_on_keypad ev Hev') Hok Hwf)
    as (Hcur & _ & _).
  rewrite run_events_snoc, Hcur. apply no_sign_act; [exact Hev' | now apply IH].
Qed.

Lemma replace_char_absent (c : N) (t s : jsstring) :
  forallb (fun x => negb (N.eqb c x)) s = true -> replace_all (One (Chr c)) [Text t] s = s.
Proof.
  intros H. rewrite replace_char. induction s as [|x s IH]; [reflexivity |].
  cbn [forallb] in H. apply andb_true_iff in H as [Hx Hs]. apply negb_true_iff in Hx.
  cbn [flat_map]. rewrite Hx, (IH Hs). reflexivity.
Qed.

(** Whatever buttons are clicked, the buffer never holds a multiplication or
    a division sign: the two buttons hand over "*" and "/", and no result
    holds one; so the first two replacements of the rewriting leave every
    such buffer as it is. *)
Theorem buffer_never_holds_the_signs :
  forall (E : Js.Engine) (evs : list event),
    Forall enters_no_sign evs ->
    no_sign (expression (current (run_events E evs))) /\
    replace_all (One (Chr cu_divide)) [Text (lit "/")]
      (replace_all (One (Chr cu_times)) [Text (lit "*")]
         (expression (current (run_events E evs)))) =
    expression (current (run_events E evs)).
Proof.
  intros E evs Hevs. pose proof (run_events_no_sign E Hevs) as H.
  split; [exact H |].
  rewrite (@replace_char_absent cu_times)
    by (apply (@lacks_absent [cu_times; cu_divide]); [now left | exact H]).
  apply replace_char_absent.
  apply (@lacks_absent [cu_times; cu_divide]); [right; now left | exact H].
Qed.

Lemma buffer_never_holds_the_signs_witness :
  no_sign (expression (current (run_events sample_engine
             [Click (Key (lit "6") (lit "6")); Click (Key [cu_divide] (lit "/"));
              KeyDown (lit "Enter")]))) /\
  replace_all (One (Chr cu_divide)) [Text (lit "/")]
    (replace_all (One (Chr cu_times)) [Text (lit "*")]
       (expression (current (run_events sample_engine
          [Click (Key (lit "6") (lit "6")); Click (Key [cu_divide] (lit "/"));
           KeyDown (lit "Enter")])))) =
  expression (current (run_events sample_engine
    [Click (Key (lit "6") (lit "6")); Click (Key [cu_divide] (lit "/"));
     KeyDown (lit "Enter")])).
Proof.
  apply (@buffer_never_holds_the_signs sample_engine
           [Click (Key (lit "6") (lit "6")); Click (Key [cu_divide] (lit "/"));
            KeyDown (lit "Enter")]).
  repeat constructor; cbn; tauto.
Defined.

(** ** Printed digits, long fractions and regular expressions *)

(** Numbers whose string needs seventeen digits. *)
Example toString_seventeen_digits :
  Number.toString 0x1.4d2af4a0fffffp+37 = lit "178868098079.99997" /\
  Number.toString (1234567890123456 * 12345678906) = lit "1.5241578759122076e+25" /\
  Number.toString (0x1.999999999999ap-4 + 0x1.999999999999ap-3) = lit "0.30000000000000004" /\
  Number.toString 0x1.fffffffffffffp+1023 = lit "1.7976931348623157e+308".
Proof. vm_compute. repeat split; reflexivity. Qed.

(** The literal 178868098080 comes back from the rounding of the result as
    178868098079.99997; DEL after the product of 1234567890123456 and
    12345678906 removes the last digit of the exponent. *)
Example seventeen_digit_results :
  displayValue (handleCalculate sample_engine (entered (lit "178868098080") false [])) =
  lit "178868098079.99997" /\
  expression (handleDelete
                (handleCalculate sample_engine
                   (entered (lit "1234567890123456*12345678906") false []))) =
  lit "1.5241578759122076e+2".
Proof. vm_compute. split; reflexivity. Qed.

(** A literal with more than eighteen fraction digits has no value in the
    model, and the text with it is left to the engine. *)
Example long_fraction_is_left_to_the_engine :
  Number.literal_value (lit "0") (lit "0005000000000000000") = None /\
  Js.run sample_engine (lit "0.0005000000000000000") = Js.Unmodelled.
Proof. vm_compute. split; reflexivity. Qed.

(** A digit followed by a letter is a syntax error where the parser reads
    it, and not inside a regular expression literal or after an operator of
    the full language, which are left to the engine. *)
Example lexical_error_where_the_parser_reads_it :
  Js.run sample_engine (lit "2/1a") = Js.Throws Js.SyntaxError /\
  Js.run sample_engine (lit "/1a/") = Js.Unmodelled /\
  Js.run sample_engine (lit "typeof /1a/") = Js.Unmodelled.
Proof. vm_compute. repeat split; reflexivity. Qed.

(** ** The angle-unit flag *)

(** C9: the unit starts as Degree; the toggle flips the flag and leaves the
    buffer, the display and the history alone; handleInput, handleDelete and
    handleClear do not consult the flag (they commute with the toggle);
    handleCalculate evaluates with the flag of the state it is run on, so a
    toggle before the evaluation decides it whether it came before or after
    the input, and a toggle after the evaluation changes none of its
    results.  The flag decides the outcome: for sin, cos or tan of any number
    literal entered in Degree mode, the evaluation applies the engine's
    function to the value times pi / 180, after a toggle it applies it to
    the value itself, and a toggle after the evaluation leaves the Degree
    result on the display and in the buffer.  For "sin(90)" the sine is taken
    at the double nearest to pi / 2 without the toggle and at 90 with it, and
    with the sine of the examples the display reads "1" without the toggle,
    "0.893996664" with it, and still "1" when the toggle comes after. *)
Theorem angle_unit_read_at_evaluation :
  isRad initialState = false /\
  (forall st,
     isRad (toggleAngleUnit st) = negb (isRad st) /\
     expression (toggleAngleUnit st) = expression st /\
     displayValue (toggleAngleUnit st) = displayValue st /\
     history (toggleAngleUnit st) = history st) /\
  (forall val st,
     handleInput val (toggleAngleUnit st) = toggleAngleUnit (handleInput val st)) /\
  (forall st, handleDelete (toggleAngleUnit st) = toggleAngleUnit (handleDelete st)) /\
  (forall st, handleClear (toggleAngleUnit st) = toggleAngleUnit (handleClear st)) /\
  (forall E st,
     handleCalculate E (toggleAngleUnit st) =
     match calculate E (negb (isRad st)) (expression st) with
     | Js.Normal r =>
         mkState (Number.toString r) (Number.toString r) (negb (isRad st)) (expression st)
     | Js.Throw _ => mkState [] (lit "Error") (negb (isRad st)) (history st)
     end) /\
  (forall E val st,
     handleCalculate E (toggleAngleUnit (handleInput val st)) =
     handleCalculate E (handleInput val (toggleAngleUnit st))) /\
  (forall E st,
     expression (toggleAngleUnit (handleCalculate E st)) = expression (handleCalculate E st) /\
     displayValue (toggleAngleUnit (handleCalculate E st)) = displayValue (handleCalculate E st) /\
     history (toggleAngleUnit (handleCalculate E st)) = history (handleCalculate E st)) /\
  normalize false (lit "sin(90)") <> normalize true (lit "sin(90)") /\
  (forall (E : Js.Engine) (func ds d h : jsstring) (x : float),
     In func [lit "sin"; lit "cos"; lit "tan"] ->
     reads_as ds x ->
     let s := func ++ lit "(" ++ ds ++ lit ")" in
     let deg := finalResult (trig_function E func (PrimFloat.div (PrimFloat.mul x Js.Math_PI) 180)) in
     let rad := finalResult (trig_function E func x) in
     calculate E false s = Js.Normal deg /\
     calculate E true s = Js.Normal rad /\
     handleCalculate E (mkState s d false h) =
     mkState (Number.toString deg) (Number.toString deg) false s /\
     handleCalculate E (toggleAngleUnit (mkState s d false h)) =
     mkState (Number.toString rad) (Number.toString rad) true s /\
     toggleAngleUnit (handleCalculate E (mkState s d false h)) =
     mkState (Number.toString deg) (Number.toString deg) true s) /\
  (forall (E : Js.Engine) (d h : jsstring),
     displayValue (handleCalculate E (mkState (lit "sin(90)") d false h)) =
     Number.toString (finalResult (Js.Math_sin E 0x1.921fb54442d18p+0)) /\
     displayValue (handleCalculate E (toggleAngleUnit (mkState (lit "sin(90)") d false h))) =
     Number.toString (finalResult (Js.Math_sin E 90))) /\
  displayValue (handleCalculate sample_engine (entered (lit "sin(90)") false [])) = lit "1" /\
  displayValue (handleCalculate sample_engine
                  (toggleAngleUnit (entered (lit "sin(90)") false []))) = lit "0.893996664" /\
  displayValue (toggleAngleUnit
                  (handleCalculate sample_engine (entered (lit "sin(90)") false []))) = lit "1".
Proof.
  assert (Hin : forall val st,
             handleInput val (toggleAngleUnit st) = toggleAngleUnit (handleInput val st)).
  { intros val [ex dv r hi]. unfold handleInput, toggleAngleUnit; simpl.
    destruct (str_eqb dv (lit "Error")); [reflexivity |].
    destruct (str_eqb ex dv && negb (includes operators val)); reflexivity. }
  assert (Htrig : forall (E : Js.Engine) (func ds d h : jsstring) (x : float),
             In func [lit "sin"; lit "cos"; lit "tan"] ->
             reads_as ds x ->
             let s := func ++ lit "(" ++ ds ++ lit ")" in
             let deg := finalResult
                          (trig_function E func
                             (PrimFloat.div (PrimFloat.mul x Js.Math_PI) 180)) in
             let rad := finalResult (trig_function E func x) in
             calculate E false s = Js.Normal deg /\
             calculate E true s = Js.Normal rad /\
             handleCalculate E (mkState s d false h) =
             mkState (Number.toString deg) (Number.toString deg) false s /\
             handleCalculate E (toggleAngleUnit (mkState s d false h)) =
             mkState (Number.toString rad) (Number.toString rad) true s /\
             toggleAngleUnit (handleCalculate E (mkState s d false h)) =
             mkState (Number.toString deg) (Number.toString deg) true s).
  { intros E func ds d h x Hf [Hds Hx] s deg rad.
    assert (Cdeg : calculate E false s = Js.Normal deg)
      by (eapply (@calculate_of_run E false _ _ (Js.VNumber _));
          [now apply trig_deg_text | now apply trig_deg_run]).
    assert (Crad : calculate E true s = Js.Normal rad)
      by (eapply (@calculate_of_run E true _ _ (Js.VNumber _));
          [now apply trig_rad_text | now apply trig_rad_run]).
    split; [exact Cdeg |]. split; [exact Crad |].
    rewrite (@handleCalculate_normal E (mkState s d false h) deg Cdeg).
    change (toggleAngleUnit (mkState s d false h)) with (mkState s d true h).
    rewrite (@handleCalculate_normal E (mkState s d true h) rad Crad).
    repeat split; reflexivity. }
  split; [reflexivity |].
  split; [intros st; repeat split; reflexivity |].
  split; [exact Hin |].
  split.
  { intros [ex dv r hi]. unfold handleDelete, handleClear, toggleAngleUnit; simpl.
    destruct (str_eqb dv (lit "Error")); reflexivity. }
  split; [intros st; reflexivity |].
  split.
  { intros E [ex dv r hi]. unfold handleCalculate, toggleAngleUnit; simpl.
    destruct (calculate E (negb r) ex); reflexivity. }
  split; [intros E val st; rewrite Hin; reflexivity |].
  split; [intros E st; repeat split; reflexivity |].
  split; [intros H; vm_compute in H; discriminate H |].
  split; [exact Htrig |].
  split.
  { intros E d h.
    assert (H90 : reads_as (lit "90") 90%float)
      by (split; [split; [discriminate | reflexivity] | vm_compute; reflexivity]).
    destruct (Htrig E (lit "sin") (lit "90") d h 90%float (or_introl eq_refl) H90)
      as (_ & _ & Hdeg & Hrad & _).
    change (lit "sin" ++ lit "(" ++ lit "90" ++ lit ")") with (lit "sin(90)") in Hdeg, Hrad.
    rewrite Hdeg, Hrad. split; reflexivity. }
  vm_compute. repeat split; reflexivity.
Qed.
